(** * VoteLedger: the hash-linked vote ledger, its tally, receipt lookup
      and rule-based fraud scan

    A shallow embedding of [app.py], [app2.py] and [prototype.py].  The three
    files carry the same [Block] and [Blockchain] classes; the pages around
    them differ (the Flask validator and fraud tab of [app.py], the Streamlit
    fraud scan, remediation button and receipt verification of [app2.py] and
    [prototype.py]).

    Conventions of the model:
    - a Python [str] is a [string] whose characters are read as the code
      points 0..255;
    - a Python [float] obtained from [time.time()] is carried by its [repr],
      the text that [json.dumps] and an f-string write for it; every
      operation that reads the clock takes that reading as an argument;
    - a [set] of strings is a [gset string], a [defaultdict(int)] a
      [gmap string nat] read with default 0, a [dict] whose order matters
      (the voter registry, an object's [__dict__]) an association list in
      insertion order, a DataFrame the list of its rows, indexed 0, 1, ... *)

From Stdlib Require Import ZArith List String Ascii Lia DecimalString.
From stdpp Require Import gmap strings list fin_maps.

#[local] Set Warnings "-register-all,-clear-no-such-hyp".

(** ** Python strings *)

Module PyStr.

Definition code (c : ascii) : Z := Z.of_N (N_of_ascii c).

Definition chr (n : Z) : ascii := ascii_of_N (Z.to_N n).

Definition chars (s : string) : list ascii := list_ascii_of_string s.

(** [str(n)] for a non-negative [int]. *)
Definition of_nat (n : nat) : string := NilZero.string_of_uint (Nat.to_uint n).

(** [s.encode()]: UTF-8 of code points below 256. *)
Definition encode_char (c : ascii) : list Z :=
  let n := code c in
  if (n <? 128)%Z then [n] else [192 + n / 64; 128 + n mod 64]%Z.

Definition encode (s : string) : list Z := concat (map encode_char (chars s)).

(** [sep.join(parts)] *)
Fixpoint join (sep : string) (parts : list string) : string :=
  match parts with
  | [] => EmptyString
  | [p] => p
  | p :: rest => p +:+ sep +:+ join sep rest
  end.

Definition hex_digit (n : Z) : ascii :=
  if (n <? 10)%Z then chr (48 + n) else chr (87 + n).

(** [s.lower()] on code points below 256: A-Z and the accented capitals
    of Latin-1 (all of 192..222 but the multiplication sign) move up 32. *)
Definition lower_char (c : ascii) : ascii :=
  let n := code c in
  if ((65 <=? n) && (n <=? 90))%Z then chr (n + 32)
  else if ((192 <=? n) && (n <=? 222) && negb (n =? 215))%Z then chr (n + 32)
  else c.

Fixpoint lower (s : string) : string :=
  match s with
  | EmptyString => EmptyString
  | String c r => String (lower_char c) (lower r)
  end.

(** [s.endswith(suffix)] *)
Definition endswith (s suffix : string) : bool :=
  let n := String.length s in
  let m := String.length suffix in
  (m <=? n)%nat && String.eqb (String.substring (n - m) m s) suffix.

(** [sub in s] *)
Fixpoint contains (sub s : string) : bool :=
  String.prefix sub s ||
  match s with
  | EmptyString => false
  | String _ r => contains sub r
  end.

(** [c.isspace()] on code points below 256. *)
Definition isspace (c : ascii) : bool :=
  let n := code c in
  (((9 <=? n) && (n <=? 13)) || ((28 <=? n) && (n <=? 32)) ||
   (n =? 133) || (n =? 160))%Z.

(** [len(s.split())]: the number of maximal runs of non-space characters.
    [inword] tells whether the character before the rest was in a run. *)
Fixpoint count_tokens (inword : bool) (s : string) : nat :=
  match s with
  | EmptyString => 0
  | String c r =>
      if isspace c then count_tokens false r
      else if inword then count_tokens true r
      else S (count_tokens true r)
  end.

Definition split_len (s : string) : nat := count_tokens false s.

End PyStr.

(** ** [hashlib.sha256] and [hashlib] hex digests *)

Module Hashlib.

Local Open Scope Z_scope.

Definition mask32 : Z := 4294967295.

Definition add32 (x y : Z) : Z := Z.land (x + y) mask32.

Definition rotr (n x : Z) : Z :=
  Z.lor (Z.shiftr x n) (Z.land (Z.shiftl x (32 - n)) mask32).

Definition xor3 (x y z : Z) : Z := Z.lxor (Z.lxor x y) z.

Definition Ch (x y z : Z) : Z :=
  Z.lxor (Z.land x y) (Z.land (Z.lxor x mask32) z).

Definition Maj (x y z : Z) : Z :=
  xor3 (Z.land x y) (Z.land x z) (Z.land y z).

Definition big_sigma0 (x : Z) : Z := xor3 (rotr 2 x) (rotr 13 x) (rotr 22 x).
Definition big_sigma1 (x : Z) : Z := xor3 (rotr 6 x) (rotr 11 x) (rotr 25 x).
Definition small_sigma0 (x : Z) : Z := xor3 (rotr 7 x) (rotr 18 x) (Z.shiftr x 3).
Definition small_sigma1 (x : Z) : Z := xor3 (rotr 17 x) (rotr 19 x) (Z.shiftr x 10).

(** The round constants: the first 32 bits of the fractional parts of the
    cube roots of the first 64 primes. *)
Definition round_constants : list Z :=
  [ 1116352408; 1899447441; 3049323471; 3921009573; 961987163; 1508970993;
    2453635748; 2870763221; 3624381080; 310598401; 607225278; 1426881987;
    1925078388; 2162078206; 2614888103; 3248222580; 3835390401; 4022224774;
    264347078; 604807628; 770255983; 1249150122; 1555081692; 1996064986;
    2554220882; 2821834349; 2952996808; 3210313671; 3336571891; 3584528711;
    113926993; 338241895; 666307205; 773529912; 1294757372; 1396182291;
    1695183700; 1986661051; 2177026350; 2456956037; 2730485921; 2820302411;
    3259730800; 3345764771; 3516065817; 3600352804; 4094571909; 275423344;
    430227734; 506948616; 659060556; 883997877; 958139571; 1322822218;
    1537002063; 1747873779; 1955562222; 2024104815; 2227730452; 2361852424;
    2428436474; 2756734187; 3204031479; 3329325298 ].

(** The initial state: square roots of the first 8 primes. *)
Definition initial_state : list Z :=
  [ 1779033703; 3144134277; 1013904242; 2773480762;
    1359893119; 2600822924; 528734635; 1541459225 ].

(** [n] bytes of [x], most significant first. *)
Definition be_bytes (n : nat) (x : Z) : list Z :=
  map (fun i => Z.land (Z.shiftr x (8 * Z.of_nat i)) 255) (rev (seq 0 n)).

(** The message, one 1 bit, zeros up to 56 mod 64, the bit length on 8 bytes. *)
Definition pad (msg : list Z) : list Z :=
  let l := Z.of_nat (length msg) in
  msg ++ 128 :: repeat 0 (Z.to_nat ((55 - l) mod 64)) ++ be_bytes 8 (8 * l).

Fixpoint be_words (bs : list Z) : list Z :=
  match bs with
  | a :: b :: c :: d :: rest =>
      (a * 16777216 + b * 65536 + c * 256 + d) :: be_words rest
  | _ => []
  end.

Fixpoint chunks16 (n : nat) (ws : list Z) : list (list Z) :=
  match n with
  | O => []
  | S n' => firstn 16 ws :: chunks16 n' (skipn 16 ws)
  end.

(** The message schedule, newest word first. *)
Fixpoint extend_schedule (n : nat) (w : list Z) : list Z :=
  match n with
  | O => w
  | S n' =>
      let x := add32 (add32 (small_sigma1 (nth 1 w 0)) (nth 6 w 0))
                     (add32 (small_sigma0 (nth 14 w 0)) (nth 15 w 0)) in
      extend_schedule n' (x :: w)
  end.

Definition schedule (block : list Z) : list Z :=
  rev (extend_schedule 48 (rev block)).

Definition round (st : list Z) (kw : Z * Z) : list Z :=
  match st with
  | [a; b; c; d; e; f; g; h] =>
      let t1 := add32 (add32 (add32 h (big_sigma1 e)) (Ch e f g))
                      (add32 (fst kw) (snd kw)) in
      let t2 := add32 (big_sigma0 a) (Maj a b c) in
      [add32 t1 t2; a; b; c; add32 d t1; e; f; g]
  | _ => st
  end.

Definition compress (st : list Z) (block : list Z) : list Z :=
  let st' := fold_left round (combine round_constants (schedule block)) st in
  map (fun p => add32 (fst p) (snd p)) (combine st st').

Definition sha256 (msg : list Z) : list Z :=
  let ws := be_words (pad msg) in
  fold_left compress (chunks16 (length ws / 16) ws) initial_state.

Definition hex_of_word (x : Z) : string :=
  string_of_list_ascii
    (map (fun i => PyStr.hex_digit (Z.land (Z.shiftr x (4 * Z.of_nat i)) 15))
         (rev (seq 0 8))).

(** [hashlib.sha256(data).hexdigest()] *)
Definition sha256_hexdigest (data : list Z) : string :=
  PyStr.join EmptyString (map hex_of_word (sha256 data)).

End Hashlib.

(** ** [json.dumps(obj, sort_keys=True)] *)

Module Json.

(** The values the ledger serialises: non-negative ints, floats (by their
    repr), strings, lists and dicts (in insertion order). *)
Inductive value :=
| Int (n : nat)
| Float (repr : string)
| Str (s : string)
| Arr (items : list value)
| Obj (fields : list (string * value)).

Definition dquote : ascii := "034"%char.
Definition backslash : ascii := "092"%char.

Definition short_escape (c : ascii) : string :=
  String backslash (String c EmptyString).

(** [ensure_ascii] escaping: the quote, the backslash and everything
    outside the printable range space..tilde is escaped. *)
Definition escape_char (c : ascii) : string :=
  let n := PyStr.code c in
  if (n =? 34)%Z then short_escape dquote
  else if (n =? 92)%Z then short_escape backslash
  else if (n =? 10)%Z then short_escape "n"
  else if (n =? 13)%Z then short_escape "r"
  else if (n =? 9)%Z then short_escape "t"
  else if (n =? 8)%Z then short_escape "b"
  else if (n =? 12)%Z then short_escape "f"
  else if ((32 <=? n) && (n <=? 126))%Z then String c EmptyString
  else String backslash
         (String "u" (String "0" (String "0"
           (String (PyStr.hex_digit (n / 16))
             (String (PyStr.hex_digit (n mod 16)) EmptyString))))).

Fixpoint escape (s : string) : string :=
  match s with
  | EmptyString => EmptyString
  | String c r => escape_char c +:+ escape r
  end.

Definition quote (s : string) : string :=
  String dquote (escape s +:+ String dquote EmptyString).

(** [sort_keys=True]: a stable insertion sort of the rendered items. *)
Fixpoint insert_by_key (kv : string * string) (l : list (string * string))
  : list (string * string) :=
  match l with
  | [] => [kv]
  | x :: r =>
      if String.leb (fst kv) (fst x) then kv :: l
      else x :: insert_by_key kv r
  end.

Definition sort_keys (l : list (string * string)) : list (string * string) :=
  fold_right insert_by_key [] l.

Definition item (kv : string * string) : string :=
  quote (fst kv) +:+ ": " +:+ snd kv.

Fixpoint dumps (v : value) : string :=
  match v with
  | Int n => PyStr.of_nat n
  | Float r => r
  | Str s => quote s
  | Arr items => "[" +:+ PyStr.join ", " (map dumps items) +:+ "]"
  | Obj fields =>
      "{" +:+
      PyStr.join ", "
        (map item
           (sort_keys
              (map (fun kv => match kv with (k, x) => (k, dumps x) end)
                   fields))) +:+
      "}"
  end.

End Json.

(** ** Transactions and blocks *)

Module Tx.

(** The dict [add_transaction] builds. *)
Record t := mk {
  voter_id : string;
  candidate : string;
  receipt_id : string;
  timestamp : string
}.

Definition to_json (tx : t) : Json.value :=
  Json.Obj [ ("voter_id", Json.Str (voter_id tx));
             ("candidate", Json.Str (candidate tx));
             ("receipt_id", Json.Str (receipt_id tx));
             ("timestamp", Json.Float (timestamp tx)) ].

End Tx.

Module Block.

Record t := mk {
  index : nat;
  transactions : list Tx.t;
  timestamp : string;
  previous_hash : string;
  nonce : nat;
  hash : string
}.

(** [self.__dict__] at the moment [__init__] calls [self.compute_hash()]:
    five attributes are set, [hash] is not one of them yet. *)
Definition dict_in_init (index : nat) (transactions : list Tx.t)
    (timestamp previous_hash : string) (nonce : nat)
  : list (string * Json.value) :=
  [ ("index", Json.Int index);
    ("transactions", Json.Arr (map Tx.to_json transactions));
    ("timestamp", Json.Float timestamp);
    ("previous_hash", Json.Str previous_hash);
    ("nonce", Json.Int nonce) ].

(** [self.__dict__] of a constructed block: [hash] is the sixth attribute. *)
Definition __dict__ (self : t) : list (string * Json.value) :=
  dict_in_init (index self) (transactions self) (timestamp self)
               (previous_hash self) (nonce self)
  ++ [ ("hash", Json.Str (hash self)) ].

(** [block_string = json.dumps(self.__dict__, sort_keys=True, default=str)] *)
Definition block_string (d : list (string * Json.value)) : string :=
  Json.dumps (Json.Obj d).

(** The body of [compute_hash] on a given [__dict__]. *)
Definition hash_of_dict (d : list (string * Json.value)) : string :=
  Hashlib.sha256_hexdigest (PyStr.encode (block_string d)).

(** [Block(index, transactions, timestamp, previous_hash)] *)
Definition new (index : nat) (transactions : list Tx.t)
    (timestamp previous_hash : string) : t :=
  {| index := index;
     transactions := transactions;
     timestamp := timestamp;
     previous_hash := previous_hash;
     nonce := 0;
     hash := hash_of_dict
               (dict_in_init index transactions timestamp previous_hash 0) |}.

(** [block.compute_hash()] on a constructed block. *)
Definition compute_hash (self : t) : string := hash_of_dict (__dict__ self).

End Block.

(** ** The ledger: class [Blockchain] *)

Module Blockchain.

Record t := mk {
  chain : list Block.t;
  pending_transactions : list Tx.t;
  voters : gset string
}.

(** [create_genesis_block]; [now] is the reading of [time.time()]. *)
Definition create_genesis_block (now : string) (self : t) : t :=
  let genesis_block := Block.new 0 [] now "0" in
  {| chain := chain self ++ [genesis_block];
     pending_transactions := pending_transactions self;
     voters := voters self |}.

(** [Blockchain()] *)
Definition new (now : string) : t :=
  create_genesis_block now
    {| chain := []; pending_transactions := []; voters := ∅ |}.

Definition add_transaction (voter_id candidate receipt_id now : string)
    (self : t) : bool * t :=
  if decide (voter_id ∈ voters self) then (false, self)
  else
    let tx := {| Tx.voter_id := voter_id;
                 Tx.candidate := candidate;
                 Tx.receipt_id := receipt_id;
                 Tx.timestamp := now |} in
    (true,
     {| chain := chain self;
        pending_transactions := pending_transactions self ++ [tx];
        voters := {[voter_id]} ∪ voters self |}).

(** [mine]; [None] stands for the [IndexError] of [self.chain[-1]] on an
    empty chain.  The block takes over the pending list and the ledger
    continues with a fresh empty one. *)
Definition mine (now : string) (self : t) : option (bool * t) :=
  match pending_transactions self with
  | [] => Some (false, self)
  | _ :: _ =>
      match last (chain self) with
      | None => None
      | Some last_block =>
          let new_block :=
            Block.new (length (chain self)) (pending_transactions self)
                      now (Block.hash last_block) in
          Some (true,
                {| chain := chain self ++ [new_block];
                   pending_transactions := [];
                   voters := voters self |})
      end
  end.

(** [get_all_transactions]: the loop over [self.chain[1:]]. *)
Definition get_all_transactions (self : t) : list Tx.t :=
  fold_left (fun txs block => txs ++ Block.transactions block)
            (drop 1 (chain self)) [].

(** [get_results]: [results[tx['candidate']] += 1] on a [defaultdict(int)]. *)
Definition count_vote (results : gmap string nat) (tx : Tx.t)
  : gmap string nat :=
  <[Tx.candidate tx := results !!! Tx.candidate tx + 1]> results.

Definition get_results (self : t) : gmap string nat :=
  fold_left count_vote (get_all_transactions self) ∅.

(** The calls a client can make on a ledger, each with its clock reading. *)
Inductive call :=
| AddTransaction (voter_id candidate receipt_id now : string)
| Mine (now : string).

(** One call: the returned flag and the ledger afterwards. *)
Definition step (self : t) (c : call) : option (bool * t) :=
  match c with
  | AddTransaction v cand r now => Some (add_transaction v cand r now self)
  | Mine now => mine now self
  end.

(** A sequence of calls: the flags returned, in order, and the final ledger. *)
Fixpoint run (calls : list call) (self : t) : option (list bool * t) :=
  match calls with
  | [] => Some ([], self)
  | c :: rest =>
      match step self c with
      | None => None
      | Some (ok, self') =>
          match run rest self' with
          | None => None
          | Some (oks, final) => Some (ok :: oks, final)
          end
      end
  end.

(** The ledgers a freshly constructed one can reach. *)
Inductive reachable : t -> Prop :=
| reachable_new now : reachable (new now)
| reachable_step s c ok s' :
    reachable s -> step s c = Some (ok, s') -> reachable s'.

(** The successful admissions of [voter_id] among the calls of a run. *)
Fixpoint successes (voter_id : string) (calls : list call) (oks : list bool)
  : nat :=
  match calls, oks with
  | AddTransaction v _ _ _ :: cs, true :: os =>
      (if decide (v = voter_id) then 1 else 0) + successes voter_id cs os
  | _ :: cs, _ :: os => successes voter_id cs os
  | _, _ => 0
  end.

Definition is_add (c : call) : bool :=
  match c with AddTransaction _ _ _ _ => true | Mine _ => false end.

(** The voter ids of a list of transactions. *)
Definition voter_ids (txs : list Tx.t) : gset string :=
  list_to_set (map Tx.voter_id txs).

(** The number of transactions for one candidate. *)
Definition votes_for (candidate : string) (txs : list Tx.t) : nat :=
  length (filter (fun tx => Tx.candidate tx = candidate) txs).

(** The chain links: every block but the first names its predecessor's hash. *)
Definition linked (c : list Block.t) : Prop :=
  forall i b p,
    c !! S i = Some b -> c !! i = Some p ->
    Block.previous_hash b = Block.hash p.

(** The first block is a genesis block. *)
Definition starts_with_genesis (c : list Block.t) : Prop :=
  exists g, c !! 0 = Some g /\
    Block.index g = 0 /\ Block.transactions g = [] /\
    Block.previous_hash g = "0".

End Blockchain.

(** ** Dicts in insertion order and DataFrame rows *)

Module Dict.

Section Dict.

Context {V : Type}.

(** [d.get(k)] *)
Fixpoint get (k : string) (d : list (string * V)) : option V :=
  match d with
  | [] => None
  | (k', x) :: rest => if decide (k' = k) then Some x else get k rest
  end.

(** [d.pop(k, None)]: the binding of [k] goes, the others keep their order. *)
Definition pop (k : string) (d : list (string * V)) : list (string * V) :=
  filter (fun kv => kv.1 <> k) d.

End Dict.

End Dict.

Module Frame.

Section Frame.

Context {A : Type}.

(** [df.iterrows()]: every row with its index label 0, 1, ... *)
Definition iterrows (df : list A) : list (nat * A) :=
  imap (fun idx row => (idx, row)) df.

(** [df[mask].index.tolist()] *)
Definition index_where (mask : A -> bool) (df : list A) : list nat :=
  map fst (filter (fun ir => mask ir.2 = true) (iterrows df)).

(** [df.loc[labels]]: the rows under the labels; [None] stands for the
    [KeyError] of a label that is not in the index. *)
Definition loc (df : list A) (labels : list nat) : option (list A) :=
  mapM (fun idx => df !! idx) labels.

Context {K : Type} `{EqDecision K}.

(** The number of rows whose key is [k]. *)
Definition count_key (key : A -> K) (k : K) (df : list A) : nat :=
  length (filter (fun row => key row = k) df).

(** [df[col].value_counts()] and [df.groupby(cols).size()]: every key
    that occurs, with its number of rows (the columns hold strings, no
    missing values).  pandas lists the keys by falling count, respectively
    by rising key; every scan ends in a set of labels, so the model lists
    them by first occurrence. *)
Definition sizes (key : A -> K) (df : list A) : list (K * nat) :=
  map (fun k => (k, count_key key k df)) (remove_dups (map key df)).

End Frame.

End Frame.

(** [list(set(flagged))]: the labels without repetition.  Python fixes no
    order for a set; nothing below depends on the one taken here. *)
Definition list_of_set (flagged : list nat) : list nat :=
  elements (list_to_set flagged : gset nat).

(** The frame [voters_df] of the three fraud pages. *)
Module VoterRow.

Record t := mk {
  Voter_ID : string;
  Name : string;
  Email : string;
  Domain : string
}.

End VoterRow.

(** The loop of both receipt checks over the sealed transactions,
    [for tx in blockchain.get_all_transactions(): if tx['receipt_id'] == r:
    ...; break]: the first transaction with the receipt, if any. *)
Fixpoint first_with_receipt (check_receipt : string) (txs : list Tx.t)
  : option Tx.t :=
  match txs with
  | [] => None
  | tx :: rest =>
      if decide (Tx.receipt_id tx = check_receipt) then Some tx
      else first_with_receipt check_receipt rest
  end.

(** ** [app.py]: the Flask pages *)

Module App.

(** A value of [registered_voters]. *)
Record voter := mk_voter {
  name : string;
  email : string;
  domain : string
}.

(** A dict of [votes_table]. *)
Module Vote.
Record t := mk {
  Voter_ID : string;
  Name : string;
  Email : string;
  Domain : string;
  Candidate : string;
  Receipt : string;
  Timestamp : string
}.
End Vote.

(** The globals the modelled handlers read and write. *)
Record t := mk {
  blockchain : Blockchain.t;
  registered_voters : list (string * voter);
  votes_table : list Vote.t
}.

(** [hashlib.sha256(f"{voter}{candidate}{time.time()}".encode()).hexdigest()[:10]] *)
Definition receipt_of (voter_id candidate now : string) : string :=
  String.substring 0 10
    (Hashlib.sha256_hexdigest
       (PyStr.encode (voter_id +:+ candidate +:+ now))).

Inductive vote_message :=
| MustRegister
| AlreadyVoted
| VoteCast (receipt_id : string)
| AlreadyVotedLate.

(** The vote-casting branch of [voter_panel].  [now] is the clock reading
    that goes into the receipt, [now_tx] the one [add_transaction] takes,
    [stamp] the [time.strftime] text of the table row. *)
Definition cast_vote (voter_id_vote candidate_vote now now_tx stamp : string)
    (st : t) : vote_message * t :=
  match Dict.get voter_id_vote (registered_voters st) with
  | None => (MustRegister, st)
  | Some voter_info =>
      if decide (voter_id_vote ∈ Blockchain.voters (blockchain st))
      then (AlreadyVoted, st)
      else
        let receipt_id := receipt_of voter_id_vote candidate_vote now in
        let (success, bc) :=
          Blockchain.add_transaction voter_id_vote candidate_vote receipt_id
                                     now_tx (blockchain st) in
        if success then
          (VoteCast receipt_id,
           {| blockchain := bc;
              registered_voters := registered_voters st;
              votes_table :=
                votes_table st ++
                [ {| Vote.Voter_ID := voter_id_vote;
                     Vote.Name := name voter_info;
                     Vote.Email := email voter_info;
                     Vote.Domain := domain voter_info;
                     Vote.Candidate := candidate_vote;
                     Vote.Receipt := receipt_id;
                     Vote.Timestamp := stamp |} ] |})
        else
          (AlreadyVotedLate,
           {| blockchain := bc;
              registered_voters := registered_voters st;
              votes_table := votes_table st |})
  end.

(** The mine action of [admin_panel]. *)
Definition mine_block (now : string) (st : t) : option (bool * t) :=
  match Blockchain.mine now (blockchain st) with
  | None => None
  | Some (ok, bc) =>
      Some (ok, {| blockchain := bc;
                   registered_voters := registered_voters st;
                   votes_table := votes_table st |})
  end.

(** The vote validator; [None] is the answer "Receipt not found." *)
Definition validator (check_receipt : string) (st : t) : option Tx.t :=
  first_with_receipt check_receipt
    (Blockchain.get_all_transactions (blockchain st)).

(** The fraud tab of [admin_panel]. *)
Definition voters_df (registered_voters : list (string * voter))
  : list VoterRow.t :=
  map (fun kv => {| VoterRow.Voter_ID := kv.1;
                    VoterRow.Name := name kv.2;
                    VoterRow.Email := email kv.2;
                    VoterRow.Domain := domain kv.2 |})
      registered_voters.

Definition suspicious_domains : list string :=
  ["spam.com"; "fake.com"; "test.com"].

(** Rule 1: the loop over [voters_df.iterrows()]. *)
Definition flag_suspicious_email (flagged : gset nat)
    (ir : nat * VoterRow.t) : gset nat :=
  let email := PyStr.lower (VoterRow.Email ir.2) in
  if existsb (fun s => PyStr.endswith email ("@" +:+ s)) suspicious_domains
  then {[ir.1]} ∪ flagged
  else flagged.

Definition group_key (row : Vote.t) : string * string :=
  (Vote.Domain row, Vote.Candidate row).

(** [group[group['Count'] > 3]] *)
Definition suspicious_groups (votes_table_df : list Vote.t)
  : list (string * string * nat) :=
  filter (fun g => 3 < g.2) (Frame.sizes group_key votes_table_df).

(** Rule 2: the loop over [suspicious_groups.iterrows()]. *)
Definition flag_group (votes_table_df : list Vote.t) (flagged : gset nat)
    (g : string * string * nat) : gset nat :=
  let mask row :=
    bool_decide (Vote.Domain row = g.1.1) &&
    bool_decide (Vote.Candidate row = g.1.2) in
  flagged ∪ list_to_set (Frame.index_where mask votes_table_df).

(** The set [flagged] when the tab has run both rules. *)
Definition flagged (st : t) : gset nat :=
  let votes_table_df := votes_table st in
  let flagged1 :=
    fold_left flag_suspicious_email
              (Frame.iterrows (voters_df (registered_voters st))) ∅ in
  match votes_table_df with
  | [] => flagged1
  | _ :: _ =>
      fold_left (flag_group votes_table_df)
                (suspicious_groups votes_table_df) flagged1
  end.

(** [flagged = list(flagged)] and
    [flagged_df = voters_df.loc[flagged] if not voters_df.empty and flagged
    else pd.DataFrame()]: the labels are looked up in the voter frame;
    [None] stands for the [KeyError] of a label it does not have.  Python
    fixes no order for the list of a set. *)
Definition flagged_df (st : t) : option (list VoterRow.t) :=
  match voters_df (registered_voters st), elements (flagged st) with
  | row :: rows, label :: labels =>
      Frame.loc (row :: rows) (label :: labels)
  | _, _ => Some []
  end.

End App.

(** ** The registration scan of [app2.py] and [prototype.py] *)

Module Scan.

(** Multiple registrations with the same email: the loop over
    [email_counts.items()]. *)
Definition flag_email (df : list VoterRow.t) (flagged : list nat)
    (ec : string * nat) : list nat :=
  if decide (1 < ec.2)
  then flagged ++
       Frame.index_where (fun row => bool_decide (VoterRow.Email row = ec.1)) df
  else flagged.

Definition flag_duplicate_emails (df : list VoterRow.t) (flagged : list nat)
  : list nat :=
  let email_counts := Frame.sizes VoterRow.Email df in
  fold_left (flag_email df) email_counts flagged.

(** Suspicious domains: [any(s in domain for s in suspicious_domains)]. *)
Definition flag_domain (suspicious_domains : list string)
    (flagged : list nat) (ir : nat * VoterRow.t) : list nat :=
  let domain := PyStr.lower (VoterRow.Domain ir.2) in
  if existsb (fun s => PyStr.contains s domain) suspicious_domains
  then flagged ++ [ir.1]
  else flagged.

Definition flag_suspicious_domains (suspicious_domains : list string)
    (df : list VoterRow.t) (flagged : list nat) : list nat :=
  fold_left (flag_domain suspicious_domains) (Frame.iterrows df) flagged.

(** Names that are too short:
    [len(row['Name'].split()) < 2 or len(row['Name']) < 5]. *)
Definition flag_name (flagged : list nat) (ir : nat * VoterRow.t)
  : list nat :=
  if (PyStr.split_len (VoterRow.Name ir.2) <? 2) ||
     (String.length (VoterRow.Name ir.2) <? 5)
  then flagged ++ [ir.1]
  else flagged.

Definition flag_short_names (df : list VoterRow.t) (flagged : list nat)
  : list nat :=
  fold_left flag_name (Frame.iterrows df) flagged.

(** What a fraud page shows. *)
Inductive view :=
| NoVoters
| NoSuspicious
| Suspicious (flagged_df : list VoterRow.t).

(** The page around a scan: nothing to analyse without voters, else the
    frame [voters_df.loc[flagged]], a warning when it has rows. *)
Definition page (df : list VoterRow.t) (flagged : list nat) : option view :=
  match df with
  | [] => Some NoVoters
  | _ :: _ =>
      match Frame.loc df flagged with
      | None => None
      | Some [] => Some NoSuspicious
      | Some (row :: rows) => Some (Suspicious (row :: rows))
      end
  end.

End Scan.

(** ** [app2.py]: the Streamlit pages *)

Module App2.

(** A value of [registered_voters]. *)
Record voter := mk_voter {
  name : string;
  email : string;
  domain : string;
  registered_at : string
}.

(** A row of the frame [votes_table]. *)
Module VoteRow.
Record t := mk {
  Voter_ID : string;
  Name : string;
  Email : string;
  Domain : string;
  Candidate : string;
  Receipt_ID : string;
  Vote_Method : string;
  Timestamp : string
}.
End VoteRow.

(** The session state. *)
Record t := mk {
  blockchain : Blockchain.t;
  candidate_list : list string;
  registered_voters : list (string * voter);
  qr_vote_counts : gmap string nat;
  votes_table : list VoteRow.t;
  qr_voters : gset string
}.

Definition generate_receipt_id (voter_id candidate timestamp : string)
  : string :=
  String.substring 0 16
    (Hashlib.sha256_hexdigest
       (PyStr.encode (voter_id +:+ candidate +:+ timestamp))).

Inductive vote_message :=
| AlreadyVoted
| VoteCast (receipt_id : string)
| NoMessage.

(** The button "Submit Vote".  [timestamp] is the clock reading of the
    page, [now_tx] the one [add_transaction] takes, [stamp] the
    [time.strftime] text of [timestamp]; [None] stands for the [KeyError]
    of [registered_voters[voter_id]]. *)
Definition submit_vote (voter_id candidate timestamp now_tx stamp : string)
    (st : t) : option (vote_message * t) :=
  if decide (voter_id ∈ Blockchain.voters (blockchain st))
  then Some (AlreadyVoted, st)
  else
    let receipt_id := generate_receipt_id voter_id candidate timestamp in
    let (success, bc) :=
      Blockchain.add_transaction voter_id candidate receipt_id now_tx
                                 (blockchain st) in
    if success then
      match Dict.get voter_id (registered_voters st) with
      | None => None
      | Some info =>
          Some (VoteCast receipt_id,
                {| blockchain := bc;
                   candidate_list := candidate_list st;
                   registered_voters := registered_voters st;
                   qr_vote_counts := qr_vote_counts st;
                   votes_table :=
                     votes_table st ++
                     [ {| VoteRow.Voter_ID := voter_id;
                          VoteRow.Name := name info;
                          VoteRow.Email := email info;
                          VoteRow.Domain := domain info;
                          VoteRow.Candidate := candidate;
                          VoteRow.Receipt_ID := receipt_id;
                          VoteRow.Vote_Method := "Manual";
                          VoteRow.Timestamp := stamp |} ];
                   qr_voters := qr_voters st |})
      end
    else
      Some (NoMessage,
            {| blockchain := bc;
               candidate_list := candidate_list st;
               registered_voters := registered_voters st;
               qr_vote_counts := qr_vote_counts st;
               votes_table := votes_table st;
               qr_voters := qr_voters st |}).

Inductive qr_message :=
| QRVoteRecorded (receipt_id : string)
| QRAlreadyVoted
| InvalidCandidate.

(** A decoded QR upload: [candidate] is the decoded text, [image_md5] the
    hex MD5 of the uploaded bytes.  The vote goes to the counters and the
    table, not to the ledger. *)
Definition qr_vote (candidate image_md5 timestamp stamp : string) (st : t)
  : qr_message * t :=
  if decide (candidate ∈ candidate_list st) then
    let voter_id := "qr_voter_" +:+ image_md5 in
    if decide (voter_id ∈ qr_voters st) then (QRAlreadyVoted, st)
    else
      let receipt_id := generate_receipt_id voter_id candidate timestamp in
      (QRVoteRecorded receipt_id,
       {| blockchain := blockchain st;
          candidate_list := candidate_list st;
          registered_voters := registered_voters st;
          qr_vote_counts :=
            <[candidate := qr_vote_counts st !!! candidate + 1]>
              (qr_vote_counts st);
          votes_table :=
            votes_table st ++
            [ {| VoteRow.Voter_ID := voter_id;
                 VoteRow.Name := "QR Voter";
                 VoteRow.Email := "qr@voter.com";
                 VoteRow.Domain := "Mobile";
                 VoteRow.Candidate := candidate;
                 VoteRow.Receipt_ID := receipt_id;
                 VoteRow.Vote_Method := "QR";
                 VoteRow.Timestamp := stamp |} ];
          qr_voters := {[voter_id]} ∪ qr_voters st |})
  else (InvalidCandidate, st).

(** The button "Mine Pending Votes" acts on the ledger alone. *)
Definition mine_block (now : string) (st : t) : option (bool * t) :=
  match Blockchain.mine now (blockchain st) with
  | None => None
  | Some (ok, bc) =>
      Some (ok, {| blockchain := bc;
                   candidate_list := candidate_list st;
                   registered_voters := registered_voters st;
                   qr_vote_counts := qr_vote_counts st;
                   votes_table := votes_table st;
                   qr_voters := qr_voters st |})
  end.

Inductive verification :=
| PleaseEnterReceipt
| BlockchainVoteVerified (tx : Tx.t)
| QRVoteVerified (row : VoteRow.t)
| ReceiptNotFound.

(** The loop over [votes_table.iterrows()]: the first QR row with the
    receipt. *)
Fixpoint first_qr_row (receipt_id : string) (rows : list VoteRow.t)
  : option VoteRow.t :=
  match rows with
  | [] => None
  | row :: rest =>
      if bool_decide (VoteRow.Receipt_ID row = receipt_id) &&
         bool_decide (VoteRow.Vote_Method row = "QR")
      then Some row
      else first_qr_row receipt_id rest
  end.

(** The button "Verify Vote": [if not receipt_id] answers an empty text
    input with "Please enter a receipt ID" and searches nothing; otherwise
    the sealed transactions are searched and, when none carries the id,
    the QR rows of the vote table. *)
Definition verify_vote (receipt_id : string) (st : t) : verification :=
  if decide (receipt_id = EmptyString) then PleaseEnterReceipt
  else
    match first_with_receipt receipt_id
            (Blockchain.get_all_transactions (blockchain st)) with
    | Some tx => BlockchainVoteVerified tx
    | None =>
        match first_qr_row receipt_id (votes_table st) with
        | Some row => QRVoteVerified row
        | None => ReceiptNotFound
        end
    end.

(** The fraud detection tab.  Every registered voter has the key
    [domain], so [v.get('domain', 'N/A')] is its value. *)
Definition voters_df (registered_voters : list (string * voter))
  : list VoterRow.t :=
  map (fun kv => {| VoterRow.Voter_ID := kv.1;
                    VoterRow.Name := name kv.2;
                    VoterRow.Email := email kv.2;
                    VoterRow.Domain := domain kv.2 |})
      registered_voters.

Definition suspicious_domains : list string :=
  ["spam.com"; "fake.com"; "test.com"; "example.com"; "mailinator.com"].

(** [flagged] after the three rules and [list(set(flagged))]. *)
Definition flagged (registered_voters : list (string * voter)) : list nat :=
  let df := voters_df registered_voters in
  list_of_set
    (Scan.flag_short_names df
       (Scan.flag_suspicious_domains suspicious_domains df
          (Scan.flag_duplicate_emails df []))).

Definition fraud_detection (registered_voters : list (string * voter))
  : option Scan.view :=
  Scan.page (voters_df registered_voters) (flagged registered_voters).

(** The button "Remove Flagged Registrations":
    [for voter_id in flagged_df['Voter ID']: registered_voters.pop(voter_id, None)] *)
Definition remove_flagged (flagged_df : list VoterRow.t) (st : t) : t :=
  {| blockchain := blockchain st;
     candidate_list := candidate_list st;
     registered_voters :=
       fold_left (fun reg voter_id => Dict.pop voter_id reg)
                 (map VoterRow.Voter_ID flagged_df) (registered_voters st);
     qr_vote_counts := qr_vote_counts st;
     votes_table := votes_table st;
     qr_voters := qr_voters st |}.

End App2.

(** ** [prototype.py]: the fraud detection tab *)

Module Prototype.

Record voter := mk_voter {
  name : string;
  email : string;
  domain : string
}.

Definition voters_df (registered_voters : list (string * voter))
  : list VoterRow.t :=
  map (fun kv => {| VoterRow.Voter_ID := kv.1;
                    VoterRow.Name := name kv.2;
                    VoterRow.Email := email kv.2;
                    VoterRow.Domain := domain kv.2 |})
      registered_voters.

Definition suspicious_domains : list string :=
  ["spam.com"; "fake.com"; "test.com"].

Definition flagged (registered_voters : list (string * voter)) : list nat :=
  let df := voters_df registered_voters in
  list_of_set
    (Scan.flag_suspicious_domains suspicious_domains df
       (Scan.flag_duplicate_emails df [])).

Definition fraud_detection (registered_voters : list (string * voter))
  : option Scan.view :=
  Scan.page (voters_df registered_voters) (flagged registered_voters).

End Prototype.

(** ** Digests as text *)

(** The text of a [hexdigest()] or of a slice of one: lowercase hex digits
    only. *)
Definition lower_hex (s : string) : bool :=
  forallb (fun c => existsb (Ascii.eqb c) (PyStr.chars "0123456789abcdef"))
          (PyStr.chars s).

(** ** The rest of the ledger class and of the pages *)

Module PyDict.

Section PyDict.

Context {V : Type}.

(** [d[k] = x]: the value of a key that is there is replaced in place, a
    new key goes to the end. *)
Fixpoint set (k : string) (x : V) (d : list (string * V))
  : list (string * V) :=
  match d with
  | [] => [(k, x)]
  | (k', x') :: rest =>
      if decide (k' = k) then (k, x) :: rest else (k', x') :: set k x rest
  end.

(** [k in d] *)
Definition contains (k : string) (d : list (string * V)) : bool :=
  bool_decide (is_Some (Dict.get k d)).

End PyDict.

(** [l.remove(x)]: the first occurrence goes; [None] stands for the
    [ValueError] of an absent element. *)
Fixpoint remove (x : string) (l : list string) : option (list string) :=
  match l with
  | [] => None
  | y :: rest =>
      if decide (y = x) then Some rest
      else match remove x rest with
           | None => None
           | Some rest' => Some (y :: rest')
           end
  end.

End PyDict.

Module BlockInfo.

(** An entry of [get_block_info]. *)
Record t := mk {
  index : nat;
  timestamp : string;
  transactions : list Tx.t;
  hash : string;
  previous_hash : string
}.

End BlockInfo.

Module Ledger.

(** [get_block_info].  [strftime] stands for
    [time.strftime("%Y-%m-%d %H:%M:%S", time.localtime(t))], which depends
    on the time zone of the host. *)
Definition get_block_info (strftime : string -> string)
    (self : Blockchain.t) : list BlockInfo.t :=
  fold_left
    (fun info block =>
       info ++
       [ {| BlockInfo.index := Block.index block;
            BlockInfo.timestamp := strftime (Block.timestamp block);
            BlockInfo.transactions := Block.transactions block;
            BlockInfo.hash := Block.hash block;
            BlockInfo.previous_hash := Block.previous_hash block |} ])
    (Blockchain.chain self) [].



(** Every transaction a ledger holds: the sealed ones, then the pending
    ones. *)
Definition all_transactions (self : Blockchain.t) : list Tx.t :=
  Blockchain.get_all_transactions self ++ Blockchain.pending_transactions self.

(** The transactions that the successful admits of a run build, in call
    order. *)
Fixpoint admitted (calls : list Blockchain.call) (oks : list bool)
  : list Tx.t :=
  match calls, oks with
  | Blockchain.AddTransaction v c r now :: cs, true :: os =>
      Tx.mk v c r now :: admitted cs os
  | _ :: cs, _ :: os => admitted cs os
  | _, _ => []
  end.

End Ledger.

(** *** The voter registration forms *)

Module Registry.

Inductive message :=
| AllFieldsRequired
| VoterIdTaken
| EmailTaken
| RegistrationSuccessful.

Section Registry.

Context {V : Type} (email_of : V -> string).

(** The two [elif] tests and the [else] branch that the four registration
    forms share: [voter_id in registered_voters],
    [any(email == v['email'] for v in registered_voters.values())],
    [registered_voters[voter_id] = {...}]. *)
Definition insert (voter_id email : string) (v : V)
    (registered_voters : list (string * V)) : message * list (string * V) :=
  if PyDict.contains voter_id registered_voters
  then (VoterIdTaken, registered_voters)
  else if existsb (fun kv => bool_decide (email = email_of kv.2))
                  registered_voters
  then (EmailTaken, registered_voters)
  else (RegistrationSuccessful, PyDict.set voter_id v registered_voters).

(** Voter ids and emails are not shared. *)
Definition unique (registered_voters : list (string * V)) : Prop :=
  NoDup (map fst registered_voters) /\
  NoDup (map (fun kv => email_of kv.2) registered_voters).

End Registry.

End Registry.

(** ** [app.py]: accounts, candidates, registration *)

Module Flask.

(** A value of [users.json]. *)
Module User.
Record t := mk {
  username : string;
  mobile : string;
  password : string
}.
End User.

(** The file [users.json]: [None] while it does not exist, else the dict
    that [save_users] dumped. *)
Definition load_users (file : option (list (string * User.t)))
  : list (string * User.t) :=
  match file with
  | None => []
  | Some users => users
  end.

Definition save_users (users : list (string * User.t))
  : option (list (string * User.t)) :=
  Some users.

(** [register] on a POST: [false] is the error "Email or mobile already
    registered.", [true] the redirect to the login page. *)
Definition register (username mobile email password : string)
    (file : option (list (string * User.t)))
  : bool * option (list (string * User.t)) :=
  let users := load_users file in
  if PyDict.contains email users ||
     existsb (fun u => bool_decide (User.mobile u.2 = mobile)) users
  then (false, file)
  else
    (true,
     save_users
       (PyDict.set email
          {| User.username := username;
             User.mobile := mobile;
             User.password := password |}
          users)).

(** The keys [user] and [username] of the Flask session. *)
Module Session.
Record t := mk {
  user : option string;
  username : option string
}.
End Session.

(** [login] on a POST: [true] is the redirect to the dashboard, [false]
    the error "Invalid credentials.". *)
Definition login (email password : string)
    (file : option (list (string * User.t))) (session : Session.t)
  : bool * Session.t :=
  let users := load_users file in
  match Dict.get email users with
  | Some user =>
      if bool_decide (User.password user = password)
      then (true,
            {| Session.user := Some email;
               Session.username := Some (User.username user) |})
      else (false, session)
  | None => (false, session)
  end.

Definition logout (session : Session.t) : Session.t :=
  {| Session.user := None; Session.username := None |}.

(** [login_required]: the page is served when ['user' in session]. *)
Definition login_required (session : Session.t) : bool :=
  bool_decide (is_Some (Session.user session)).

(** The globals [candidate_list] and [qr_vote_counts]. *)
Module Candidates.
Record t := mk {
  candidate_list : list string;
  qr_vote_counts : gmap string nat
}.
End Candidates.

(** [not x] on a form field: [request.form.get] gives [None] for a field
    that was not sent. *)
Definition falsy (x : option string) : bool :=
  match x with
  | None => true
  | Some s => bool_decide (s = EmptyString)
  end.

(** The action [add] of the candidate tab: [true] is the message "Added
    candidate", [false] "Candidate already exists or name is empty.". *)
Definition add_candidate (new_candidate : option string) (cs : Candidates.t)
  : bool * Candidates.t :=
  match new_candidate with
  | Some name =>
      if negb (falsy new_candidate) &&
         negb (bool_decide (name ∈ Candidates.candidate_list cs))
      then (true,
            {| Candidates.candidate_list :=
                 Candidates.candidate_list cs ++ [name];
               Candidates.qr_vote_counts :=
                 <[name := 0]> (Candidates.qr_vote_counts cs) |})
      else (false, cs)
  | None => (false, cs)
  end.

(** The action [remove]: [None] stands for the [ValueError] that the test
    [remove_candidate in candidate_list] keeps away. *)
Definition remove_candidate (remove_candidate : option string)
    (cs : Candidates.t) : option (bool * Candidates.t) :=
  match remove_candidate with
  | Some name =>
      if bool_decide (name ∈ Candidates.candidate_list cs) then
        match PyDict.remove name (Candidates.candidate_list cs) with
        | None => None
        | Some rest =>
            Some (true,
                  {| Candidates.candidate_list := rest;
                     Candidates.qr_vote_counts :=
                       delete name (Candidates.qr_vote_counts cs) |})
        end
      else Some (false, cs)
  | None => Some (false, cs)
  end.

(** The simulated QR scan: [true] is the message "Simulated QR vote",
    [false] "Invalid candidate selected.". *)
Definition simulate_qr_scan (selected_cand : option string)
    (cs : Candidates.t) : bool * Candidates.t :=
  match selected_cand with
  | Some name =>
      if bool_decide (name ∈ Candidates.candidate_list cs)
      then (true,
            {| Candidates.candidate_list := Candidates.candidate_list cs;
               Candidates.qr_vote_counts :=
                 <[name := default 0 (Candidates.qr_vote_counts cs !! name) + 1]>
                   (Candidates.qr_vote_counts cs) |})
      else (false, cs)
  | None => (false, cs)
  end.

(** The actions of the candidate tab and of the scanner. *)
Inductive candidate_request :=
| AddCandidate (new_candidate : option string)
| RemoveCandidate (remove_candidate : option string)
| SimulateScan (selected_cand : option string).

Definition handle_candidates (cs : Candidates.t) (rq : candidate_request)
  : option Candidates.t :=
  match rq with
  | AddCandidate c => Some (add_candidate c cs).2
  | RemoveCandidate c =>
      match remove_candidate c cs with
      | None => None
      | Some (_, cs') => Some cs'
      end
  | SimulateScan c => Some (simulate_qr_scan c cs).2
  end.

Inductive candidates_reachable : Candidates.t -> Prop :=
| candidates_start : candidates_reachable (Candidates.mk [] ∅)
| candidates_step cs rq cs' :
    candidates_reachable cs -> handle_candidates cs rq = Some cs' ->
    candidates_reachable cs'.

(** The registration form of [voter_panel]. *)
Definition register_voter (voter_id name email domain : option string)
    (st : App.t) : Registry.message * App.t :=
  match voter_id, name, email, domain with
  | Some voter_id', Some name', Some email', Some domain' =>
      if falsy voter_id || falsy name || falsy email || falsy domain
      then (Registry.AllFieldsRequired, st)
      else
        let (message, registered_voters) :=
          Registry.insert App.email voter_id' email'
            {| App.name := name'; App.email := email'; App.domain := domain' |}
            (App.registered_voters st) in
        (message,
         {| App.blockchain := App.blockchain st;
            App.registered_voters := registered_voters;
            App.votes_table := App.votes_table st |})
  | _, _, _, _ => (Registry.AllFieldsRequired, st)
  end.

(** The requests that change the ledger, the registry or the vote table. *)
Inductive request :=
| Register (voter_id name email domain : option string)
| CastVote (voter_id_vote candidate_vote now now_tx stamp : string)
| MineBlock (now : string).

Definition handle (st : App.t) (rq : request) : option App.t :=
  match rq with
  | Register voter_id name email domain =>
      Some (register_voter voter_id name email domain st).2
  | CastVote voter_id candidate now now_tx stamp =>
      Some (App.cast_vote voter_id candidate now now_tx stamp st).2
  | MineBlock now =>
      match App.mine_block now st with
      | None => None
      | Some (_, st') => Some st'
      end
  end.

(** A vote row and the transaction of the same admission: the same voter
    id, candidate and receipt, and the name, email and domain under which
    the voter is registered. *)
Definition row_of_tx (registered_voters : list (string * App.voter))
    (row : App.Vote.t) (tx : Tx.t) : Prop :=
  App.Vote.Voter_ID row = Tx.voter_id tx /\
  App.Vote.Candidate row = Tx.candidate tx /\
  App.Vote.Receipt row = Tx.receipt_id tx /\
  Dict.get (App.Vote.Voter_ID row) registered_voters
  = Some (App.mk_voter (App.Vote.Name row) (App.Vote.Email row)
                       (App.Vote.Domain row)).

(** The states of a process that started at clock reading [now]. *)
Inductive reachable : App.t -> Prop :=
| reachable_start now : reachable (App.mk (Blockchain.new now) [] [])
| reachable_handle st rq st' :
    reachable st -> handle st rq = Some st' -> reachable st'.

End Flask.

(** ** [app2.py]: registration and the QR rows *)

Module Streamlit.

(** Both registration forms (admin tab and voter tab); [stamp] is the
    [time.strftime] text of the moment.  The domain may be empty. *)
Definition register_voter (voter_id name email domain stamp : string)
    (st : App2.t) : Registry.message * App2.t :=
  if bool_decide (voter_id = EmptyString) ||
     bool_decide (name = EmptyString) ||
     bool_decide (email = EmptyString)
  then (Registry.AllFieldsRequired, st)
  else
    let (message, registered_voters) :=
      Registry.insert App2.email voter_id email
        {| App2.name := name;
           App2.email := email;
           App2.domain := domain;
           App2.registered_at := stamp |}
        (App2.registered_voters st) in
    (message,
     {| App2.blockchain := App2.blockchain st;
        App2.candidate_list := App2.candidate_list st;
        App2.registered_voters := registered_voters;
        App2.qr_vote_counts := App2.qr_vote_counts st;
        App2.votes_table := App2.votes_table st;
        App2.qr_voters := App2.qr_voters st |}).

(** The QR rows of the vote table for one candidate. *)
Definition qr_rows (candidate : string) (rows : list App2.VoteRow.t)
  : list App2.VoteRow.t :=
  filter (fun row => App2.VoteRow.Vote_Method row = "QR" /\
                     App2.VoteRow.Candidate row = candidate) rows.

End Streamlit.

(** ** [prototype.py]: the registration form *)

Module Proto.

Definition register_voter (voter_id name email domain : string)
    (registered_voters : list (string * Prototype.voter))
  : Registry.message * list (string * Prototype.voter) :=
  if bool_decide (voter_id = EmptyString) ||
     bool_decide (name = EmptyString) ||
     bool_decide (email = EmptyString) ||
     bool_decide (domain = EmptyString)
  then (Registry.AllFieldsRequired, registered_voters)
  else
    Registry.insert Prototype.email voter_id email
      {| Prototype.name := name;
         Prototype.email := email;
         Prototype.domain := domain |}
      registered_voters.

End Proto.

(** ** Ledgers and pages for the examples *)

(** A ledger with one sealed vote and one pending vote, for the examples. *)
Definition demo_ledger : Blockchain.t :=
  Eval vm_compute in
    match Blockchain.run
            [ Blockchain.AddTransaction "V1" "Alice" "r1" "2.5";
              Blockchain.Mine "3.5";
              Blockchain.AddTransaction "V2" "Bob" "r2" "4.5" ]
            (Blockchain.new "1.5") with
    | Some (_, s) => s
    | None => Blockchain.new "1.5"
    end.

(** The calls that follow the admission of V3 on that ledger, and the ledger
    they lead to. *)
Definition demo_calls : list Blockchain.call :=
  [ Blockchain.Mine "6.5";
    Blockchain.AddTransaction "V3" "Bob" "r4" "7.5" ].

Definition demo_sealed : Blockchain.t :=
  Eval vm_compute in
    match Blockchain.run demo_calls
            (Blockchain.add_transaction "V3" "Alice" "r3" "5.5" demo_ledger).2
    with
    | Some (_, s) => s
    | None => demo_ledger
    end.

Definition demo_mined : Blockchain.t :=
  Eval vm_compute in
    match Blockchain.mine "5.5" demo_ledger with
    | Some (_, s) => s
    | None => demo_ledger
    end.

(** Five registered voters of one domain vote for Alice, a sixth voter of
    another domain votes for Bob. *)
Definition demo_registry : list (string * App.voter) :=
  [ ("V1", App.mk_voter "Ann Lee" "ann@acme.org" "acme.org");
    ("V2", App.mk_voter "Bob Ray" "bob@acme.org" "acme.org");
    ("V3", App.mk_voter "Cy Dunn" "cy@acme.org" "acme.org");
    ("V4", App.mk_voter "Di Fox" "di@acme.org" "acme.org");
    ("V5", App.mk_voter "Ed Gray" "ed@acme.org" "acme.org");
    ("V6", App.mk_voter "Flo Hill" "flo@else.net" "else.net") ].

Definition demo_block_votes : App.t :=
  Eval vm_compute in
    fold_left
      (fun st vc =>
         (App.cast_vote vc.1 vc.2 "1700000000.5" "1700000000.5"
                        "2023-11-14 22:13:20" st).2)
      [ ("V1", "Alice"); ("V2", "Alice"); ("V6", "Bob");
        ("V3", "Alice"); ("V4", "Alice"); ("V5", "Alice") ]
      (App.mk (Blockchain.new "1699999999.5") demo_registry []).

(** Two registrations with one email, as the scans of [app2.py] and
    [prototype.py] may be handed them. *)
Definition demo_shared_email : list (string * App2.voter) :=
  [ ("V1", App2.mk_voter "Jane Doe" "jane@acme.org" "acme.org"
                         "2023-11-14 22:13:20");
    ("V2", App2.mk_voter "Mark Moe" "mark@acme.org" "acme.org"
                         "2023-11-14 22:14:20");
    ("V3", App2.mk_voter "Jane Doe Jr" "jane@acme.org" "acme.org"
                         "2023-11-14 22:15:20") ].

(** A voter with a short name votes, the vote is sealed, the scan flags the
    registration and the button removes it: the registry forgets the voter,
    the tally keeps the vote. *)
Definition demo_remediation : App2.t :=
  Eval vm_compute in
    let st0 :=
      App2.mk (Blockchain.new "1699999999.5") ["Alice"; "Bob"]
        [ ("V1", App2.mk_voter "Al" "al@acme.org" "acme.org"
                               "2023-11-14 22:13:20");
          ("V2", App2.mk_voter "Jane Doe" "jane@acme.org" "acme.org"
                               "2023-11-14 22:14:20") ]
        ∅ [] ∅ in
    match App2.submit_vote "V1" "Alice" "1700000000.5" "1700000000.5"
                           "2023-11-14 22:15:20" st0 with
    | Some (_, st1) =>
        match App2.mine_block "1700000001.5" st1 with
        | Some (_, st2) => st2
        | None => st1
        end
    | None => st0
    end.

(** A QR vote for Alice and, after it, a manual vote of V1 for Bob that is
    still pending; then the same with the manual vote sealed. *)
Definition demo_channels : App2.t :=
  Eval vm_compute in
    let st0 :=
      App2.mk (Blockchain.new "1699999999.5") ["Alice"; "Bob"]
        [ ("V1", App2.mk_voter "Jane Doe" "jane@acme.org" "acme.org"
                               "2023-11-14 22:13:20") ]
        ∅ [] ∅ in
    let st1 :=
      (App2.qr_vote "Alice" "9e107d9d372bb6826bd81d3542a419d6" "1700000000.5"
                    "2023-11-14 22:13:20" st0).2 in
    match App2.submit_vote "V1" "Bob" "1700000002.5" "1700000002.5"
                           "2023-11-14 22:13:22" st1 with
    | Some (_, st2) => st2
    | None => st1
    end.

Definition demo_channels_sealed : App2.t :=
  Eval vm_compute in
    match App2.mine_block "1700000003.5" demo_channels with
    | Some (_, st) => st
    | None => demo_channels
    end.

(** The scenario of the specification on [app.py]: V1 is registered, votes
    for Alice and gets a receipt of 10 characters, cannot vote for Bob, the
    vote is sealed into block 1, the tally is Alice: 1 and the receipt
    finds the transaction. *)
Definition scenario_start : App.t :=
  App.mk (Blockchain.new "1699999999.5")
         [("V1", App.mk_voter "Jane Doe" "jane@acme.org" "acme.org")] [].

Definition scenario_voted : App.t :=
  Eval vm_compute in
    (App.cast_vote "V1" "Alice" "1700000000.5" "1700000000.5"
                   "2023-11-14 22:13:20" scenario_start).2.

Definition scenario_sealed : App.t :=
  Eval vm_compute in
    match App.mine_block "1700000001.5" scenario_voted with
    | Some (_, st) => st
    | None => scenario_voted
    end.









(** The same on [app2.py], with a QR vote between the two manual votes:
    the vote table holds the row of V1, the QR row and the row of V2, the
    ledger the transactions of V1 and V2. *)
Definition mixed_start : App2.t :=
  App2.mk (Blockchain.new "1699999999.5") ["Alice"; "Bob"]
    [ ("V1", App2.mk_voter "Jane Doe" "jane@acme.org" "acme.org"
                           "2023-11-14 22:13:19");
      ("V2", App2.mk_voter "John Roe" "john@else.net" "else.net"
                           "2023-11-14 22:13:19") ]
    ∅ [] ∅.

Definition mixed_first : App2.t :=
  Eval vm_compute in
    match App2.submit_vote "V1" "Alice" "1700000000.5" "1700000000.5"
                           "2023-11-14 22:13:20" mixed_start with
    | Some (_, st) => st
    | None => mixed_start
    end.




(** Ten voters are registered on [app.py]; the last five, all of the
    domain acme.org, vote for Alice, the first five do not vote. *)
Definition shifted_registry : list (string * App.voter) :=
  [ ("V1", App.mk_voter "Ann Lee" "ann@uni.edu" "uni.edu");
    ("V2", App.mk_voter "Bob Ray" "bob@uni.edu" "uni.edu");
    ("V3", App.mk_voter "Cy Dunn" "cy@else.net" "else.net");
    ("V4", App.mk_voter "Di Fox" "di@else.net" "else.net");
    ("V5", App.mk_voter "Ed Gray" "ed@home.org" "home.org");
    ("V6", App.mk_voter "Flo Hill" "flo@acme.org" "acme.org");
    ("V7", App.mk_voter "Gus Ives" "gus@acme.org" "acme.org");
    ("V8", App.mk_voter "Hal Jay" "hal@acme.org" "acme.org");
    ("V9", App.mk_voter "Ida Kay" "ida@acme.org" "acme.org");
    ("V10", App.mk_voter "Jo Low" "jo@acme.org" "acme.org") ].

Definition shifted_block_votes : App.t :=
  Eval vm_compute in
    fold_left
      (fun st vc =>
         (App.cast_vote vc.1 vc.2 "1700000000.5" "1700000000.5"
                        "2023-11-14 22:13:20" st).2)
      [ ("V6", "Alice"); ("V7", "Alice"); ("V8", "Alice");
        ("V9", "Alice"); ("V10", "Alice") ]
      (App.mk (Blockchain.new "1699999999.5") shifted_registry []).

(** On [app2.py] the manual vote of V1 is sealed before a QR vote comes
    in. *)
Definition mixed_first_sealed : App2.t :=
  Eval vm_compute in
    match App2.mine_block "1700000001.25" mixed_first with
    | Some (_, st) => st
    | None => mixed_first
    end.

(** * Properties of the ledger *)

Section LedgerFacts.

Import Blockchain.

Implicit Types (s : Blockchain.t) (v c r now : string).

Lemma add_transaction_fresh s v c r now :
  v ∉ voters s ->
  add_transaction v c r now s =
    (true,
     {| chain := chain s;
        pending_transactions :=
          pending_transactions s ++ [Tx.mk v c r now];
        voters := {[v]} ∪ voters s |}).
Proof. intros Hv. unfold add_transaction. by destruct (decide _). Qed.

Lemma add_transaction_seen s v c r now :
  v ∈ voters s -> add_transaction v c r now s = (false, s).
Proof. intros Hv. unfold add_transaction. by destruct (decide _). Qed.

Lemma add_transaction_chain s v c r now :
  chain (add_transaction v c r now s).2 = chain s.
Proof. unfold add_transaction. by case_decide. Qed.

Lemma add_transaction_voters s v c r now :
  voters (add_transaction v c r now s).2 = {[v]} ∪ voters s.
Proof.
  unfold add_transaction. destruct (decide _) as [Hin|Hout]; simpl; [|done].
  apply leibniz_equiv. symmetry. apply subseteq_union_1.
  by apply singleton_subseteq_l.
Qed.

Lemma mine_inv s now ok s' :
  mine now s = Some (ok, s') ->
  (ok = false /\ s' = s /\ pending_transactions s = []) \/
  (exists last_block,
      ok = true /\ last (chain s) = Some last_block /\
      pending_transactions s <> [] /\
      s' = {| chain :=
                chain s ++
                [Block.new (length (chain s)) (pending_transactions s) now
                           (Block.hash last_block)];
              pending_transactions := [];
              voters := voters s |}).
Proof.
  unfold mine. destruct (pending_transactions s) as [|tx txs] eqn:Hp.
  - intros [= <- <-]. by left.
  - destruct (last (chain s)) as [b|] eqn:Hl; [|done].
    intros [= <- <-]. right. by exists b.
Qed.

Lemma mine_voters s now ok s' :
  mine now s = Some (ok, s') -> voters s' = voters s.
Proof.
  intros H. apply mine_inv in H as [(_ & -> & _)|(b & _ & _ & _ & ->)]; done.
Qed.

Lemma step_voters_mono s call ok s' :
  step s call = Some (ok, s') -> voters s ⊆ voters s'.
Proof.
  destruct call as [v c r now|now]; simpl.
  - intros [= H]. apply (f_equal snd) in H. simpl in H. subst s'.
    rewrite add_transaction_voters. apply union_subseteq_r.
  - intros H. by rewrite (mine_voters _ _ _ _ H).
Qed.

Lemma run_cons_inv call calls s oks s' :
  run (call :: calls) s = Some (oks, s') ->
  exists ok s1 oks',
    step s call = Some (ok, s1) /\ run calls s1 = Some (oks', s') /\
    oks = ok :: oks'.
Proof.
  simpl. destruct (step s call) as [[ok s1]|]; [|done].
  destruct (run calls s1) as [[oks' s2]|] eqn:Hr; [|done].
  intros [= <- <-]. by exists ok, s1, oks'.
Qed.

Lemma run_voters_mono calls s oks s' :
  run calls s = Some (oks, s') -> voters s ⊆ voters s'.
Proof.
  revert s oks. induction calls as [|call calls IH]; intros s oks.
  - by intros [= _ <-].
  - intros H. apply run_cons_inv in H as (ok & s1 & oks' & Hs & Hr & _).
    etrans; [by eapply step_voters_mono | by eapply IH].
Qed.

Lemma successes_seen calls s oks s' v :
  run calls s = Some (oks, s') -> v ∈ voters s -> successes v calls oks = 0.
Proof.
  revert s oks. induction calls as [|call calls IH]; intros s oks.
  - by intros [= <- _].
  - intros H Hv.
    apply run_cons_inv in H as (ok & s1 & oks' & Hs & Hr & ->).
    assert (v ∈ voters s1) as Hv1
      by (by eapply step_voters_mono).
    specialize (IH _ _ Hr Hv1).
    destruct call as [v' c r now|now]; simpl in *; [|by destruct ok].
    destruct ok; [|done]. rewrite IH.
    case_decide as Heq; [|done]. subst v'.
    rewrite add_transaction_seen in Hs by done. by inversion Hs.
Qed.

Lemma successes_le_1 calls s oks s' v :
  run calls s = Some (oks, s') -> successes v calls oks <= 1.
Proof.
  revert s oks. induction calls as [|call calls IH]; intros s oks.
  - intros [= <- _]. simpl. lia.
  - intros H.
    apply run_cons_inv in H as (ok & s1 & oks' & Hs & Hr & ->).
    pose proof (IH _ _ Hr) as Hle.
    destruct call as [v' c r now|now]; simpl in *; [|by destruct ok].
    destruct ok; [|done]. case_decide as Heq; [|done]. subst v'.
    inversion Hs as [Hadd].
    assert (v ∈ voters s1) as Hv1.
    { replace s1 with (add_transaction v c r now s).2 by by rewrite Hadd.
      rewrite add_transaction_voters. apply elem_of_union_l.
      by apply elem_of_singleton. }
    rewrite (successes_seen _ _ _ _ _ Hr Hv1). lia.
Qed.

Lemma extend_loop (blocks : list Block.t) (txs : list Tx.t) :
  fold_left (fun txs block => txs ++ Block.transactions block) blocks txs
  = txs ++ concat (map Block.transactions blocks).
Proof.
  revert txs. induction blocks as [|b blocks IH]; intros txs; simpl.
  - by rewrite app_nil_r.
  - by rewrite IH, <- app_assoc.
Qed.

Lemma get_all_transactions_concat s :
  get_all_transactions s
  = concat (map Block.transactions (drop 1 (chain s))).
Proof. unfold get_all_transactions. by rewrite extend_loop. Qed.

Lemma add_transaction_all_transactions s v c r now :
  get_all_transactions (add_transaction v c r now s).2
  = get_all_transactions s.
Proof.
  by rewrite !get_all_transactions_concat, add_transaction_chain.
Qed.

Lemma mine_all_transactions s now ok s' :
  mine now s = Some (ok, s') ->
  get_all_transactions s'
  = get_all_transactions s ++ pending_transactions s.
Proof.
  intros H.
  apply mine_inv in H as [(_ & -> & ->)|(b & _ & Hl & _ & ->)].
  - by rewrite app_nil_r.
  - rewrite !get_all_transactions_concat. simpl.
    destruct (chain s) as [|g rest]; [done|]. simpl. rewrite !drop_0.
    rewrite map_app, concat_app. simpl. by rewrite app_nil_r.
Qed.

Lemma admits_all_transactions calls s oks s' :
  forallb is_add calls = true ->
  run calls s = Some (oks, s') ->
  get_all_transactions s' = get_all_transactions s.
Proof.
  revert s oks. induction calls as [|call calls IH]; intros s oks Hadd.
  - by intros [= _ <-].
  - intros H. apply run_cons_inv in H as (ok & s1 & oks' & Hs & Hr & _).
    simpl in Hadd. apply andb_true_iff in Hadd as [Hcall Hcalls].
    rewrite (IH _ _ Hcalls Hr).
    destruct call as [v c r now|now]; [|done]. simpl in Hs.
    injection Hs as Hs. apply (f_equal snd) in Hs. simpl in Hs. subst s1.
    apply add_transaction_all_transactions.
Qed.

Lemma mine_pending s now ok s' :
  mine now s = Some (ok, s') -> pending_transactions s' = [].
Proof.
  intros H. by apply mine_inv in H as [(_ & -> & ->)|(b & _ & _ & _ & ->)].
Qed.

(** The chain never loses its first block and only grows by linked blocks. *)
Lemma linked_snoc (c : list Block.t) (p b : Block.t) :
  linked c -> last c = Some p ->
  Block.previous_hash b = Block.hash p -> linked (c ++ [b]).
Proof.
  intros Hc Hl Hb i b' p' Hb' Hp'.
  destruct (decide (S i < length c)) as [Hlt|Hge].
  - rewrite lookup_app_l in Hb' by done.
    rewrite lookup_app_l in Hp' by lia. by eapply Hc.
  - assert (S i = length c) as Hi.
    { apply lookup_lt_Some in Hb'. rewrite length_app in Hb'. simpl in *. lia. }
    rewrite lookup_app_r in Hb' by lia.
    rewrite Hi, Nat.sub_diag in Hb'. injection Hb' as <-.
    rewrite lookup_app_l in Hp' by lia.
    rewrite last_lookup in Hl. rewrite <- Hi in Hl. simpl in Hl.
    rewrite Hl in Hp'. injection Hp' as <-. done.
Qed.

Lemma reachable_chain s :
  reachable s -> starts_with_genesis (chain s) /\ linked (chain s).
Proof.
  induction 1 as [now|s call ok s' Hr [Hg Hl] Hs].
  - split.
    + by exists (Block.new 0 [] now "0").
    + intros i b p Hb _. by destruct i.
  - destruct call as [v c r now|now]; simpl in Hs.
    + injection Hs as Hs. apply (f_equal snd) in Hs. simpl in Hs. subst s'.
      by rewrite add_transaction_chain.
    + apply mine_inv in Hs as [(_ & -> & _)|(p & _ & Hlast & _ & ->)];
        [done|]. simpl. split.
      * destruct Hg as (g & Hg0 & Hg). exists g. split; [|done].
        by apply lookup_app_l_Some.
      * by eapply linked_snoc.
Qed.

Lemma reachable_chain_nonempty s : reachable s -> chain s <> [].
Proof.
  intros Hr. destruct (reachable_chain s Hr) as [(g & Hg & _) _].
  intros Hnil. by rewrite Hnil in Hg.
Qed.

Lemma reachable_last s : reachable s -> is_Some (last (chain s)).
Proof.
  intros Hr. apply reachable_chain_nonempty in Hr.
  destruct (chain s) as [|g rest] using rev_ind; [done|].
  rewrite last_snoc. by eexists.
Qed.

Lemma count_vote_lookup (results : gmap string nat) tx cand :
  count_vote results tx !!! cand
  = results !!! cand + (if decide (Tx.candidate tx = cand) then 1 else 0).
Proof.
  unfold count_vote. destruct (decide (Tx.candidate tx = cand)) as [->|Hne].
  - by rewrite lookup_total_insert_eq.
  - rewrite lookup_total_insert_ne by done. lia.
Qed.

Lemma votes_for_cons cand tx txs :
  votes_for cand (tx :: txs)
  = (if decide (Tx.candidate tx = cand) then 1 else 0) + votes_for cand txs.
Proof.
  unfold votes_for. rewrite filter_cons. by destruct (decide _).
Qed.

Lemma votes_for_app cand txs1 txs2 :
  votes_for cand (txs1 ++ txs2) = votes_for cand txs1 + votes_for cand txs2.
Proof. unfold votes_for. by rewrite filter_app, length_app. Qed.

Lemma tally_loop txs (results : gmap string nat) cand :
  fold_left count_vote txs results !!! cand
  = results !!! cand + votes_for cand txs.
Proof.
  revert results. induction txs as [|tx txs IH]; intros results; simpl.
  - unfold votes_for. simpl. lia.
  - rewrite IH, count_vote_lookup, votes_for_cons. lia.
Qed.

Lemma get_results_lookup s cand :
  get_results s !!! cand = votes_for cand (get_all_transactions s).
Proof.
  unfold get_results. rewrite tally_loop. by rewrite lookup_total_empty.
Qed.

Lemma voter_ids_app txs1 txs2 :
  voter_ids (txs1 ++ txs2) = voter_ids txs1 ∪ voter_ids txs2.
Proof. unfold voter_ids. by rewrite map_app, list_to_set_app_L. Qed.

Lemma reachable_voters s :
  reachable s ->
  voters s
  = voter_ids (pending_transactions s) ∪ voter_ids (get_all_transactions s).
Proof.
  induction 1 as [now|s call ok s' Hr IH Hs].
  - unfold voter_ids. simpl. by rewrite union_empty_l_L.
  - destruct call as [v c r now|now]; simpl in Hs.
    + injection Hs as Hs. apply (f_equal snd) in Hs. simpl in Hs. subst s'.
      rewrite add_transaction_all_transactions.
      unfold add_transaction. destruct (decide _) as [Hin|Hout]; [done|].
      simpl. rewrite voter_ids_app, IH.
      change (voter_ids [Tx.mk v c r now]) with ({[v]} ∪ ∅ : gset string).
      generalize (voter_ids (pending_transactions s))
                 (voter_ids (get_all_transactions s)).
      intros X Y. clear. set_solver.
    + rewrite (mine_voters _ _ _ _ Hs), (mine_all_transactions _ _ _ _ Hs),
        (mine_pending _ _ _ _ Hs), voter_ids_app, IH.
      change (voter_ids []) with (∅ : gset string).
      generalize (voter_ids (pending_transactions s))
                 (voter_ids (get_all_transactions s)).
      intros X Y. clear. set_solver.
Qed.

End LedgerFacts.

(** ** The ledger claims *)

Lemma demo_ledger_reachable : Blockchain.reachable demo_ledger.
Proof.
  eapply Blockchain.reachable_step with
    (c := Blockchain.AddTransaction "V2" "Bob" "r2" "4.5") (ok := true).
  - eapply Blockchain.reachable_step with (c := Blockchain.Mine "3.5").
    + eapply Blockchain.reachable_step with
        (c := Blockchain.AddTransaction "V1" "Alice" "r1" "2.5").
      * apply (Blockchain.reachable_new "1.5").
      * reflexivity.
    + reflexivity.
  - vm_compute. reflexivity.
Qed.

(** C1.  The first admit of a voter id that is not in the admitted set
    succeeds: it appends the transaction to the pending list and adds the
    voter id to the admitted set at once.  Whatever calls follow (admits and
    mines, so the transaction may be pending or sealed), none of them admits
    the same voter id again and one more admit of it returns [False].  In
    every run, from any ledger, a voter id is admitted at most once. *)
Theorem admit_at_most_once
    (s : Blockchain.t) (v c r now : string)
    (calls : list Blockchain.call) (oks : list bool) (s' : Blockchain.t) :
  (v ∉ Blockchain.voters s) ->
  Blockchain.run calls (Blockchain.add_transaction v c r now s).2
    = Some (oks, s') ->
  Blockchain.add_transaction v c r now s
    = (true,
       {| Blockchain.chain := Blockchain.chain s;
          Blockchain.pending_transactions :=
            Blockchain.pending_transactions s ++ [Tx.mk v c r now];
          Blockchain.voters := {[v]} ∪ Blockchain.voters s |}) /\
  Blockchain.successes v calls oks = 0 /\
  (forall c' r' now',
      Blockchain.add_transaction v c' r' now' s' = (false, s')) /\
  (forall s0 calls0 oks0 s0',
      Blockchain.run calls0 s0 = Some (oks0, s0') ->
      Blockchain.successes v calls0 oks0 <= 1).
Proof.
  intros Hfresh Hrun.
  assert (v ∈ Blockchain.voters (Blockchain.add_transaction v c r now s).2)
    as Hin.
  { rewrite add_transaction_voters. apply elem_of_union_l.
    by apply elem_of_singleton. }
  repeat split.
  - by apply add_transaction_fresh.
  - by eapply successes_seen.
  - intros c' r' now'. apply add_transaction_seen.
    by eapply run_voters_mono.
  - intros s0 calls0 oks0 s0'. apply successes_le_1.
Qed.

Lemma admit_at_most_once_witness :
  Blockchain.successes "V3" demo_calls [true; false] = 0 /\
  (forall c' r' now',
      Blockchain.add_transaction "V3" c' r' now' demo_sealed
      = (false, demo_sealed)).
Proof.
  destruct (admit_at_most_once demo_ledger "V3" "Alice" "r3" "5.5"
              demo_calls [true; false] demo_sealed) as (_ & H0 & Hfail & _).
  - apply (bool_decide_unpack _). vm_compute. exact I.
  - vm_compute. reflexivity.
  - split; assumption.
Defined.

(** C2.  On a ledger with pending transactions [mine] returns [True],
    appends exactly one block, which holds every pending transaction in
    admission order, and leaves the pending list empty; on a ledger without
    pending transactions it returns [False] and the ledger (chain, pending
    list, admitted set) is the same. *)
Theorem mine_seals_pending (s : Blockchain.t) (now : string) :
  Blockchain.reachable s ->
  (Blockchain.pending_transactions s = [] ->
   Blockchain.mine now s = Some (false, s)) /\
  (Blockchain.pending_transactions s <> [] ->
   exists new_block,
     Blockchain.mine now s
     = Some (true,
             {| Blockchain.chain := Blockchain.chain s ++ [new_block];
                Blockchain.pending_transactions := [];
                Blockchain.voters := Blockchain.voters s |}) /\
     Block.transactions new_block = Blockchain.pending_transactions s /\
     Block.index new_block = length (Blockchain.chain s)).
Proof.
  intros Hr. split.
  - intros Hp. unfold Blockchain.mine. by rewrite Hp.
  - intros Hp. destruct (reachable_last s Hr) as [p Hl].
    exists (Block.new (length (Blockchain.chain s))
                      (Blockchain.pending_transactions s) now (Block.hash p)).
    split; [|done]. unfold Blockchain.mine. rewrite Hl.
    by destruct (Blockchain.pending_transactions s).
Qed.

Lemma mine_seals_pending_witness :
  exists new_block,
    Blockchain.mine "5.5" demo_ledger
    = Some (true,
            {| Blockchain.chain := Blockchain.chain demo_ledger ++ [new_block];
               Blockchain.pending_transactions := [];
               Blockchain.voters := Blockchain.voters demo_ledger |}) /\
    Block.transactions new_block = [Tx.mk "V2" "Bob" "r2" "4.5"] /\
    Block.index new_block = 2.
Proof.
  destruct (mine_seals_pending demo_ledger "5.5" demo_ledger_reachable)
    as [_ H].
  apply H. discriminate.
Defined.

(** C3.  In every ledger reachable from a fresh one by admits and mines the
    chain is not empty, its first block is a genesis block (index 0, no
    transactions, previous hash "0"), and every later block names the hash
    of the block before it. *)
Theorem chain_integrity (s : Blockchain.t) :
  Blockchain.reachable s ->
  Blockchain.chain s <> [] /\
  Blockchain.starts_with_genesis (Blockchain.chain s) /\
  Blockchain.linked (Blockchain.chain s).
Proof.
  intros Hr. split; [by apply reachable_chain_nonempty|].
  by apply reachable_chain.
Qed.

Lemma chain_integrity_witness :
  Blockchain.chain demo_ledger <> [] /\
  Blockchain.starts_with_genesis (Blockchain.chain demo_ledger) /\
  Blockchain.linked (Blockchain.chain demo_ledger).
Proof. exact (chain_integrity demo_ledger demo_ledger_reachable). Defined.

(** C4.  The tally of a candidate is the number of transactions for it in
    the sealed blocks after the genesis block.  An admit, and any run of
    admits, leaves the tally as it was; a mine adds to every candidate's
    count the number of pending transactions for that candidate (none for a
    candidate without pending transactions). *)
Theorem tally_counts_sealed_only
    (s : Blockchain.t) (v c r now_admit now_mine : string)
    (ok : bool) (s' : Blockchain.t) :
  Blockchain.mine now_mine s = Some (ok, s') ->
  (forall cand,
      Blockchain.get_results s !!! cand
      = Blockchain.votes_for cand
          (concat (map Block.transactions (drop 1 (Blockchain.chain s))))) /\
  Blockchain.get_results (Blockchain.add_transaction v c r now_admit s).2
  = Blockchain.get_results s /\
  (forall calls oks s2,
      forallb Blockchain.is_add calls = true ->
      Blockchain.run calls s = Some (oks, s2) ->
      Blockchain.get_results s2 = Blockchain.get_results s) /\
  (forall cand,
      Blockchain.get_results s' !!! cand
      = Blockchain.get_results s !!! cand
        + Blockchain.votes_for cand (Blockchain.pending_transactions s)).
Proof.
  intros Hm. split; [|split; [|split]].
  - intros cand. by rewrite get_results_lookup, get_all_transactions_concat.
  - unfold Blockchain.get_results.
    by rewrite add_transaction_all_transactions.
  - intros calls oks s2 Hadd Hrun. unfold Blockchain.get_results.
    by rewrite (admits_all_transactions _ _ _ _ Hadd Hrun).
  - intros cand.
    by rewrite !get_results_lookup, (mine_all_transactions _ _ _ _ Hm),
         votes_for_app.
Qed.

Lemma tally_counts_sealed_only_witness :
  Blockchain.get_results
    (Blockchain.add_transaction "V3" "Bob" "r3" "5.0" demo_ledger).2
  = Blockchain.get_results demo_ledger /\
  Blockchain.get_results demo_mined !!! "Bob"
  = Blockchain.get_results demo_ledger !!! "Bob" + 1.
Proof.
  destruct (tally_counts_sealed_only demo_ledger "V3" "Bob" "r3" "5.0" "5.5"
              true demo_mined) as (_ & Hadmit & _ & Hmine).
  - vm_compute. reflexivity.
  - split; [exact Hadmit | exact (Hmine "Bob")].
Defined.

(** The sealed vote counts, the pending one does not. *)
Example demo_tally :
  map_to_list (Blockchain.get_results demo_ledger) = [("Alice", 1)] /\
  map_to_list (Blockchain.get_results demo_mined)
  ≡ₚ [("Alice", 1); ("Bob", 1)].
Proof.
  split; [vm_compute; reflexivity|].
  apply (bool_decide_unpack _). vm_compute. exact I.
Qed.

(** C10.  In every ledger reachable from a fresh one by admits and mines the
    admitted set is the set of the voter ids of the pending transactions
    together with those of the transactions in the blocks after the genesis
    block.  An admit adds the admitted voter id and nothing else (nothing at
    all when it fails); a mine keeps the admitted set and moves the pending
    transactions behind the sealed ones. *)
Theorem admitted_set_exact
    (s : Blockchain.t) (v c r now_admit now_mine : string)
    (ok : bool) (s' : Blockchain.t) :
  Blockchain.reachable s ->
  Blockchain.mine now_mine s = Some (ok, s') ->
  Blockchain.voters s
  = Blockchain.voter_ids (Blockchain.pending_transactions s)
    ∪ Blockchain.voter_ids (Blockchain.get_all_transactions s) /\
  Blockchain.voters (Blockchain.add_transaction v c r now_admit s).2
  = (if (Blockchain.add_transaction v c r now_admit s).1
     then {[v]} ∪ Blockchain.voters s
     else Blockchain.voters s) /\
  Blockchain.voters s' = Blockchain.voters s /\
  Blockchain.pending_transactions s' = [] /\
  Blockchain.get_all_transactions s'
  = Blockchain.get_all_transactions s ++ Blockchain.pending_transactions s.
Proof.
  intros Hr Hm. split; [by apply reachable_voters|]. split.
  - unfold Blockchain.add_transaction. by destruct (decide _).
  - split; [by eapply mine_voters|].
    split; [by eapply mine_pending | by eapply mine_all_transactions].
Qed.

Lemma admitted_set_exact_witness :
  Blockchain.voters demo_ledger
  = Blockchain.voter_ids (Blockchain.pending_transactions demo_ledger)
    ∪ Blockchain.voter_ids (Blockchain.get_all_transactions demo_ledger) /\
  Blockchain.voters demo_mined = Blockchain.voters demo_ledger.
Proof.
  destruct (admitted_set_exact demo_ledger "V3" "Bob" "r3" "5.0" "5.5"
              true demo_mined demo_ledger_reachable)
    as (Hinv & _ & Hkeep & _).
  - vm_compute. reflexivity.
  - split; [exact Hinv | exact Hkeep].
Defined.

(** ** The block hash *)

(** The hash a block stores is the digest of the five attributes set
    before it: [index], [transactions], [timestamp], [previous_hash] and
    [nonce]. *)
Lemma stored_hash_excludes_hash index transactions timestamp previous_hash :
  Block.hash (Block.new index transactions timestamp previous_hash)
  = Hashlib.sha256_hexdigest
      (PyStr.encode
         (Json.dumps
            (Json.Obj
               [ ("index", Json.Int index);
                 ("transactions", Json.Arr (map Tx.to_json transactions));
                 ("timestamp", Json.Float timestamp);
                 ("previous_hash", Json.Str previous_hash);
                 ("nonce", Json.Int 0) ]))).
Proof. reflexivity. Qed.

(** On a constructed block [compute_hash] serialises six attributes: the
    text that is hashed now starts with the stored hash, so it is never the
    text the stored hash was taken from. *)
Lemma block_string_changes_once_sealed (b : Block.t) :
  Block.block_string (Block.__dict__ b)
  <> Block.block_string
       (Block.dict_in_init (Block.index b) (Block.transactions b)
          (Block.timestamp b) (Block.previous_hash b) (Block.nonce b)).
Proof.
  unfold Block.block_string, Block.__dict__, Block.dict_in_init.
  cbn. intros H. discriminate H.
Qed.

(** C5 (the code against the claim).  The genesis block made at clock
    reading 1700000000.5 stores one digest, and [compute_hash] on that same,
    unmutated block returns another one. *)
Theorem recomputed_hash_differs :
  let b := Block.new 0 [] "1700000000.5" "0" in
  Block.hash b
  = "ef4b021fd66966ebd36f4284b9a83b9886c7ec2529992d246c160380e8c04d1e" /\
  Block.compute_hash b
  = "d8ff5ed48b6192f5930c316269b74625bd1261a947849bb2d5e98dfe73078194" /\
  Block.compute_hash b <> Block.hash b.
Proof.
  vm_compute. repeat split. discriminate.
Qed.

(** ** Receipt lookup *)

(** ** The digests *)

Section DigestFacts.

Lemma chars_append (s1 s2 : string) :
  PyStr.chars (s1 +:+ s2) = PyStr.chars s1 ++ PyStr.chars s2.
Proof.
  unfold PyStr.chars. induction s1 as [|c s1 IH]; simpl; [done|].
  by rewrite IH.
Qed.

Lemma chars_length (s : string) : String.length s = length (PyStr.chars s).
Proof.
  unfold PyStr.chars. induction s as [|c s IH]; simpl; [done|]. by rewrite IH.
Qed.

Lemma chars_substring (n : nat) (s : string) :
  PyStr.chars (String.substring 0 n s) = take n (PyStr.chars s).
Proof.
  unfold PyStr.chars. revert n. induction s as [|c s IH]; intros [|n]; simpl;
    try done.
  by rewrite IH.
Qed.

Lemma chars_join_empty (parts : list string) :
  PyStr.chars (PyStr.join EmptyString parts)
  = concat (map PyStr.chars parts).
Proof.
  induction parts as [|p parts IH]; [done|].
  destruct parts as [|q parts].
  - simpl. by rewrite app_nil_r.
  - change (PyStr.join EmptyString (p :: q :: parts))
      with (p +:+ EmptyString +:+ PyStr.join EmptyString (q :: parts)).
    rewrite !chars_append, IH. done.
Qed.

Lemma round_length (st : list Z) (kw : Z * Z) :
  length st = 8 -> length (Hashlib.round st kw) = 8.
Proof.
  intros H. do 9 (destruct st as [|? st]; try discriminate H). done.
Qed.

Lemma rounds_length (kws : list (Z * Z)) (st : list Z) :
  length st = 8 -> length (fold_left Hashlib.round kws st) = 8.
Proof.
  revert st. induction kws as [|kw kws IH]; intros st H; simpl; [done|].
  by apply IH, round_length.
Qed.

Lemma compress_length (st block : list Z) :
  length st = 8 -> length (Hashlib.compress st block) = 8.
Proof.
  intros H. unfold Hashlib.compress.
  rewrite length_map, length_combine, rounds_length by done. rewrite H. done.
Qed.

Lemma sha256_length (msg : list Z) : length (Hashlib.sha256 msg) = 8.
Proof.
  unfold Hashlib.sha256.
  generalize (Hashlib.chunks16
                (length (Hashlib.be_words (Hashlib.pad msg)) / 16)
                (Hashlib.be_words (Hashlib.pad msg))).
  assert (length Hashlib.initial_state = 8) as H by done.
  revert H. generalize Hashlib.initial_state.
  intros st H blocks. revert st H.
  induction blocks as [|b blocks IH]; intros st H; simpl; [done|].
  by apply IH, compress_length.
Qed.

Lemma hex_digit_lower (n : Z) :
  (0 <= n < 16)%Z ->
  existsb (Ascii.eqb (PyStr.hex_digit n)) (PyStr.chars "0123456789abcdef")
  = true.
Proof.
  intros H.
  assert (exists k, (k < 16)%nat /\ n = Z.of_nat k) as (k & Hk & ->).
  { exists (Z.to_nat n). lia. }
  do 16 (destruct k as [|k]; [reflexivity|]). lia.
Qed.

Lemma hex_of_word_chars (x : Z) :
  length (PyStr.chars (Hashlib.hex_of_word x)) = 8 /\
  forallb (fun c => existsb (Ascii.eqb c) (PyStr.chars "0123456789abcdef"))
          (PyStr.chars (Hashlib.hex_of_word x)) = true.
Proof.
  unfold Hashlib.hex_of_word, PyStr.chars.
  rewrite list_ascii_of_string_of_list_ascii. split; [done|].
  apply forallb_forall. intros c Hin. apply in_map_iff in Hin as (i & <- & _).
  apply hex_digit_lower.
  change 15%Z with (Z.ones 4). rewrite Z.land_ones by lia.
  apply Z.mod_pos_bound. lia.
Qed.

Lemma hex_words_chars (ws : list Z) :
  length (concat (map PyStr.chars (map Hashlib.hex_of_word ws)))
  = 8 * length ws /\
  forallb (fun c => existsb (Ascii.eqb c) (PyStr.chars "0123456789abcdef"))
          (concat (map PyStr.chars (map Hashlib.hex_of_word ws))) = true.
Proof.
  induction ws as [|w ws [IHlen IHhex]]; [done|].
  destruct (hex_of_word_chars w) as [Hlen Hhex].
  cbn [map concat length]. rewrite length_app, forallb_app, Hlen, Hhex, IHlen, IHhex.
  split; [lia|done].
Qed.

Lemma hexdigest_chars (data : list Z) :
  length (PyStr.chars (Hashlib.sha256_hexdigest data)) = 64 /\
  lower_hex (Hashlib.sha256_hexdigest data) = true.
Proof.
  unfold lower_hex, Hashlib.sha256_hexdigest. rewrite chars_join_empty.
  destruct (hex_words_chars (Hashlib.sha256 data)) as [Hlen Hhex].
  rewrite sha256_length in Hlen. done.
Qed.

Lemma lower_hex_slice (n : nat) (s : string) :
  lower_hex s = true -> lower_hex (String.substring 0 n s) = true.
Proof.
  unfold lower_hex. rewrite chars_substring, !forallb_forall.
  intros H c Hin. apply H. apply list_elem_of_In.
  apply list_elem_of_In in Hin. by eapply subseteq_take.
Qed.

Lemma receipt_of_length voter_id candidate now :
  String.length (App.receipt_of voter_id candidate now) = 10.
Proof.
  unfold App.receipt_of.
  destruct (hexdigest_chars
              (PyStr.encode (voter_id +:+ candidate +:+ now))) as [Hl _].
  rewrite chars_length, chars_substring, length_take, Hl. done.
Qed.

Lemma generate_receipt_id_length voter_id candidate timestamp :
  String.length (App2.generate_receipt_id voter_id candidate timestamp) = 16.
Proof.
  unfold App2.generate_receipt_id.
  destruct (hexdigest_chars
              (PyStr.encode (voter_id +:+ candidate +:+ timestamp)))
    as [Hl _].
  rewrite chars_length, chars_substring, length_take, Hl. done.
Qed.

End DigestFacts.

Section LookupFacts.


Lemma first_with_receipt_None r (txs : list Tx.t) :
  (forall tx, tx ∈ txs -> Tx.receipt_id tx <> r) ->
  first_with_receipt r txs = None.
Proof.
  induction txs as [|tx0 txs IH]; intros Hb; simpl; [done|].
  rewrite decide_False by (apply Hb; left).
  apply IH. intros tx' Hin. apply Hb. by right.
Qed.

Lemma first_with_receipt_Some r (txs : list Tx.t) tx :
  first_with_receipt r txs = Some tx ->
  exists before after,
    txs = before ++ tx :: after /\ Tx.receipt_id tx = r /\
    forall tx', tx' ∈ before -> Tx.receipt_id tx' <> r.
Proof.
  induction txs as [|tx0 txs IH]; simpl; [done|].
  destruct (decide (Tx.receipt_id tx0 = r)) as [Heq|Hne].
  - intros [= ->]. exists [], txs. split; [done|]. split; [done|].
    intros tx' Hin. by apply elem_of_nil in Hin.
  - intros H. destruct (IH H) as (before & after & -> & Hr & Hb).
    exists (tx0 :: before), after. split; [done|]. split; [done|].
    intros tx' Hin. apply elem_of_cons in Hin as [->|Hin]; [done|].
    by apply Hb.
Qed.


Lemma first_qr_row_first r (before after : list App2.VoteRow.t) row :
  App2.VoteRow.Receipt_ID row = r ->
  App2.VoteRow.Vote_Method row = "QR" ->
  (forall row', row' ∈ before ->
     App2.VoteRow.Receipt_ID row' = r ->
     App2.VoteRow.Vote_Method row' <> "QR") ->
  App2.first_qr_row r (before ++ row :: after) = Some row.
Proof.
  intros Hr Hm. induction before as [|row0 before IH]; intros Hb; simpl.
  - by rewrite !bool_decide_eq_true_2.
  - destruct (bool_decide (App2.VoteRow.Receipt_ID row0 = r)) eqn:Hr0; simpl.
    + apply bool_decide_eq_true in Hr0.
      rewrite bool_decide_eq_false_2 by (apply Hb; [left|done]).
      apply IH. intros row' Hin. apply Hb. by right.
    + apply IH. intros row' Hin. apply Hb. by right.
Qed.

Lemma first_qr_row_Some r (rows : list App2.VoteRow.t) row :
  App2.first_qr_row r rows = Some row ->
  row ∈ rows /\ App2.VoteRow.Receipt_ID row = r /\
  App2.VoteRow.Vote_Method row = "QR".
Proof.
  induction rows as [|row0 rows IH]; simpl; [done|].
  destruct (bool_decide (App2.VoteRow.Receipt_ID row0 = r)) eqn:Hr; simpl.
  - destruct (bool_decide (App2.VoteRow.Vote_Method row0 = "QR")) eqn:Hm.
    + intros [= <-]. apply bool_decide_eq_true in Hr, Hm.
      split; [left|done].
    + intros H. destruct (IH H) as (Hin & H1 & H2).
      split; [by right|done].
  - intros H. destruct (IH H) as (Hin & H1 & H2). split; [by right|done].
Qed.




End LookupFacts.


(** ** Frames, the fraud tab and the registration scan *)

Section FrameFacts.

Context {A : Type}.
Implicit Types (df : list A) (mask : A -> bool).

Lemma elem_of_iterrows df idx (row : A) :
  (idx, row) ∈ Frame.iterrows df <-> df !! idx = Some row.
Proof.
  unfold Frame.iterrows. rewrite elem_of_lookup_imap. split.
  - by intros (i & y & [= -> ->] & H).
  - intros H. by exists idx, row.
Qed.

Lemma elem_of_index_where mask df idx :
  idx ∈ Frame.index_where mask df
  <-> exists row, df !! idx = Some row /\ mask row = true.
Proof.
  unfold Frame.index_where. rewrite list_elem_of_fmap. split.
  - intros ([i row] & -> & Hin). apply list_elem_of_filter in Hin as [Hm Hin].
    apply elem_of_iterrows in Hin. by exists row.
  - intros (row & Hl & Hm). exists (idx, row). split; [done|].
    apply list_elem_of_filter. split; [done|]. by apply elem_of_iterrows.
Qed.

Lemma filter_imap_rows mask (f : nat -> nat) df :
  map snd (filter (fun ir : nat * A => mask ir.2 = true)
                  (imap (fun idx row => (f idx, row)) df))
  = filter (fun row => mask row = true) df.
Proof.
  revert f. induction df as [|row df IH]; intros f; [done|].
  rewrite imap_cons, !filter_cons. simpl.
  pose proof (IH (f ∘ S)) as IH'.
  destruct (decide (mask row = true)); simpl; by rewrite <- IH'.
Qed.

Lemma length_index_where mask df :
  length (Frame.index_where mask df)
  = length (filter (fun row => mask row = true) df).
Proof.
  unfold Frame.index_where, Frame.iterrows.
  rewrite <- (filter_imap_rows mask id df). by rewrite !length_map.
Qed.

Context {K : Type} `{EqDecision K}.
Implicit Types (key : A -> K).

Lemma count_key_index_where key k df :
  Frame.count_key key k df
  = length (Frame.index_where (fun row => bool_decide (key row = k)) df).
Proof.
  rewrite length_index_where. unfold Frame.count_key. f_equal.
  apply list_filter_iff. intros row. by rewrite bool_decide_eq_true.
Qed.

(** Distinct rows with the same key all count. *)
Lemma count_key_ge key k df (idxs : list nat) :
  NoDup idxs ->
  (forall idx, idx ∈ idxs -> exists row, df !! idx = Some row /\ key row = k) ->
  length idxs <= Frame.count_key key k df.
Proof.
  intros Hnd Hall. rewrite count_key_index_where.
  apply submseteq_length, NoDup_submseteq; [done|].
  intros idx Hin. apply elem_of_index_where.
  destruct (Hall idx Hin) as (row & Hl & Hk). exists row.
  by rewrite bool_decide_eq_true.
Qed.

Lemma elem_of_sizes key df k n :
  (k, n) ∈ Frame.sizes key df
  <-> (exists row, row ∈ df /\ key row = k) /\ n = Frame.count_key key k df.
Proof.
  unfold Frame.sizes. rewrite list_elem_of_fmap. split.
  - intros (k' & [= -> ->] & Hin). split; [|done].
    apply elem_of_remove_dups, list_elem_of_fmap in Hin as (row & -> & Hin).
    by exists row.
  - intros [(row & Hin & <-) ->]. exists (key row). split; [done|].
    apply elem_of_remove_dups, list_elem_of_fmap. by exists row.
Qed.

End FrameFacts.

Section FraudTabFacts.

Implicit Types (df : list App.Vote.t) (flagged : gset nat).

Lemma elem_of_flag_groups df gs flagged idx :
  idx ∈ fold_left (App.flag_group df) gs flagged
  <-> idx ∈ flagged \/
      exists g row, g ∈ gs /\ df !! idx = Some row /\ App.group_key row = g.1.
Proof.
  revert flagged. induction gs as [|g gs IH]; intros flagged; simpl.
  - split; [by left|]. intros [H|(g & row & Hg & _)]; [done|].
    by apply elem_of_nil in Hg.
  - rewrite IH. unfold App.flag_group.
    rewrite elem_of_union, elem_of_list_to_set, elem_of_index_where.
    split.
    + intros [[H|(row & Hl & Hm)]|(g' & row & Hg & Hl & Hk)].
      * by left.
      * right. exists g, row. split; [left|]. split; [done|].
        apply andb_true_iff in Hm as [Hd Hc].
        apply bool_decide_eq_true in Hd, Hc.
        unfold App.group_key. rewrite Hd, Hc. by destruct g as [[? ?] ?].
      * right. exists g', row. split; [by right|done].
    + intros [H|(g' & row & Hg & Hl & Hk)]; [by left; left|].
      apply elem_of_cons in Hg as [->|Hg].
      * left. right. exists row. split; [done|].
        unfold App.group_key in Hk. rewrite <- Hk. simpl.
        by rewrite !bool_decide_eq_true_2.
      * right. by exists g', row.
Qed.

Lemma flagged_block_votes (st : App.t) idx row :
  App.votes_table st !! idx = Some row ->
  3 < Frame.count_key App.group_key (App.group_key row) (App.votes_table st) ->
  idx ∈ App.flagged st.
Proof.
  intros Hl Hc. unfold App.flagged.
  destruct (App.votes_table st) as [|row0 rows] eqn:Hdf; [done|].
  rewrite <- Hdf in *. apply elem_of_flag_groups. right.
  exists (App.group_key row,
          Frame.count_key App.group_key (App.group_key row) (App.votes_table st)),
         row.
  split; [|done]. unfold App.suspicious_groups.
  apply list_elem_of_filter. split; [done|].
  apply elem_of_sizes. split; [|done]. exists row. split; [|done].
  by eapply list_elem_of_lookup_2.
Qed.

End FraudTabFacts.

Section ScanFacts.

Implicit Types (df : list VoterRow.t) (flagged : list nat).

Lemma elem_of_flag_emails df ecs flagged idx :
  idx ∈ fold_left (Scan.flag_email df) ecs flagged
  <-> idx ∈ flagged \/
      exists ec row, ec ∈ ecs /\ 1 < ec.2 /\
        df !! idx = Some row /\ VoterRow.Email row = ec.1.
Proof.
  revert flagged. induction ecs as [|ec ecs IH]; intros flagged; simpl.
  - split; [by left|]. intros [H|(ec & row & Hec & _)]; [done|].
    by apply elem_of_nil in Hec.
  - rewrite IH. unfold Scan.flag_email.
    destruct (decide (1 < ec.2)) as [Hgt|Hle].
    + rewrite elem_of_app, elem_of_index_where. split.
      * intros [[H|(row & Hl & Hm)]|(ec' & row & Hec & Hrest)].
        -- by left.
        -- right. exists ec, row. split; [left|].
           apply bool_decide_eq_true in Hm. done.
        -- right. exists ec', row. split; [by right|done].
      * intros [H|(ec' & row & Hec & Hgt' & Hl & He)]; [by left; left|].
        apply elem_of_cons in Hec as [->|Hec].
        -- left. right. exists row. split; [done|].
           by apply bool_decide_eq_true.
        -- right. by exists ec', row.
    + split.
      * intros [H|(ec' & row & Hec & Hrest)]; [by left|].
        right. exists ec', row. split; [by right|done].
      * intros [H|(ec' & row & Hec & Hgt' & Hrest)]; [by left|].
        apply elem_of_cons in Hec as [->|Hec]; [done|].
        right. by exists ec', row.
Qed.

(** Rule 1 flags exactly the rows whose email occurs more than once. *)
Lemma elem_of_flag_duplicate_emails df flagged idx :
  idx ∈ Scan.flag_duplicate_emails df flagged
  <-> idx ∈ flagged \/
      exists row, df !! idx = Some row /\
        1 < Frame.count_key VoterRow.Email (VoterRow.Email row) df.
Proof.
  unfold Scan.flag_duplicate_emails. rewrite elem_of_flag_emails. split.
  - intros [H|([email n] & row & Hec & Hgt & Hl & He)]; [by left|].
    right. exists row. split; [done|].
    apply elem_of_sizes in Hec as [_ ->]. simpl in *. by rewrite He.
  - intros [H|(row & Hl & Hgt)]; [by left|].
    right. exists (VoterRow.Email row,
                   Frame.count_key VoterRow.Email (VoterRow.Email row) df), row.
    split; [|done]. apply elem_of_sizes. split; [|done].
    exists row. split; [|done]. by eapply list_elem_of_lookup_2.
Qed.

(** The two loops over the rows: a rule adds the labels of the rows it
    dislikes. *)
Lemma elem_of_flag_rows (p : VoterRow.t -> bool)
    (step : list nat -> nat * VoterRow.t -> list nat) df flagged idx :
  (forall fl ir, step fl ir = if p ir.2 then fl ++ [ir.1] else fl) ->
  idx ∈ fold_left step (Frame.iterrows df) flagged
  <-> idx ∈ flagged \/ exists row, df !! idx = Some row /\ p row = true.
Proof.
  intros Hstep.
  assert (forall irs fl,
    idx ∈ fold_left step irs fl
    <-> idx ∈ fl \/ exists row, (idx, row) ∈ irs /\ p row = true) as Hgen.
  { induction irs as [|[i row] irs IH]; intros fl; simpl.
    - split; [by left|]. intros [H|(row & Hin & _)]; [done|].
      by apply elem_of_nil in Hin.
    - rewrite IH, Hstep. simpl. split.
      + intros [H|(row' & Hin & Hp)].
        * destruct (p row) eqn:Hp; [|by left].
          apply elem_of_app in H as [H|H]; [by left|].
          apply list_elem_of_singleton in H as ->.
          right. exists row. split; [left|done].
        * right. exists row'. split; [by right|done].
      + intros [H|(row' & Hin & Hp)].
        * left. destruct (p row); [|done]. apply elem_of_app. by left.
        * apply elem_of_cons in Hin as [[= -> ->]|Hin].
          -- left. rewrite Hp. apply elem_of_app. right. by left.
          -- right. by exists row'. }
  rewrite Hgen. by setoid_rewrite elem_of_iterrows.
Qed.

Lemma elem_of_flag_suspicious_domains domains df flagged idx :
  idx ∈ Scan.flag_suspicious_domains domains df flagged
  <-> idx ∈ flagged \/
      exists row, df !! idx = Some row /\
        existsb (fun s => PyStr.contains s (PyStr.lower (VoterRow.Domain row)))
                domains = true.
Proof.
  unfold Scan.flag_suspicious_domains.
  by apply (elem_of_flag_rows
              (fun row => existsb (fun s => PyStr.contains s
                                    (PyStr.lower (VoterRow.Domain row))) domains)).
Qed.

Lemma elem_of_flag_short_names df flagged idx :
  idx ∈ Scan.flag_short_names df flagged
  <-> idx ∈ flagged \/
      exists row, df !! idx = Some row /\
        (PyStr.split_len (VoterRow.Name row) <? 2) ||
        (String.length (VoterRow.Name row) <? 5) = true.
Proof.
  unfold Scan.flag_short_names.
  by apply (elem_of_flag_rows
              (fun row => (PyStr.split_len (VoterRow.Name row) <? 2) ||
                          (String.length (VoterRow.Name row) <? 5))).
Qed.

Lemma elem_of_list_of_set flagged idx :
  idx ∈ list_of_set flagged <-> idx ∈ flagged.
Proof. unfold list_of_set. by rewrite elem_of_elements, elem_of_list_to_set. Qed.

(** Labels that are in the index are found, each with its row. *)
Lemma loc_valid df (labels : list nat) :
  (forall idx, idx ∈ labels -> is_Some (df !! idx)) ->
  exists rows,
    Frame.loc df labels = Some rows /\
    forall idx row, idx ∈ labels -> df !! idx = Some row -> row ∈ rows.
Proof.
  intros Hv. unfold Frame.loc.
  destruct (mapM (fun idx => df !! idx) labels) as [rows|] eqn:Hm.
  - exists rows. split; [done|]. intros idx row Hin Hl.
    apply mapM_Some in Hm.
    apply list_elem_of_lookup in Hin as [i Hi].
    destruct (Forall2_lookup_l _ _ _ _ _ Hm Hi) as (row' & Hr & Hrow).
    simpl in Hrow. rewrite Hl in Hrow. injection Hrow as <-.
    by eapply list_elem_of_lookup_2.
  - apply mapM_None, Exists_exists in Hm as (idx & Hin & Hnone).
    destruct (Hv idx Hin) as [row Hrow]. congruence.
Qed.

Lemma loc_rows df (labels : list nat) rows row :
  Frame.loc df labels = Some rows -> row ∈ rows ->
  exists idx, idx ∈ labels /\ df !! idx = Some row.
Proof.
  unfold Frame.loc. intros Hm Hin. apply mapM_Some in Hm.
  apply list_elem_of_lookup in Hin as [i Hi].
  destruct (Forall2_lookup_r _ _ _ _ _ Hm Hi) as (idx & Hidx & Hrow).
  exists idx. split; [by eapply list_elem_of_lookup_2|done].
Qed.

Lemma page_suspicious df flagged idx row :
  (forall i, i ∈ flagged -> is_Some (df !! i)) ->
  idx ∈ flagged -> df !! idx = Some row ->
  exists rows, Scan.page df flagged = Some (Scan.Suspicious rows) /\ row ∈ rows.
Proof.
  intros Hv Hin Hl. destruct (loc_valid df flagged Hv) as (rows & Hloc & Hrows).
  exists rows. split; [|by eapply Hrows].
  unfold Scan.page. destruct df as [|row0 df]; [done|]. rewrite Hloc.
  destruct rows as [|r rows]; [|done].
  specialize (Hrows idx row Hin Hl). by apply elem_of_nil in Hrows.
Qed.

End ScanFacts.

Section ScanResults.

(** What the scan of [app2.py] flags: the rows under one of its three
    rules, and nothing else. *)
Lemma app2_flagged_spec (reg : list (string * App2.voter)) idx :
  idx ∈ App2.flagged reg
  <-> exists row,
        App2.voters_df reg !! idx = Some row /\
        (1 < Frame.count_key VoterRow.Email (VoterRow.Email row)
                             (App2.voters_df reg) \/
         existsb (fun s => PyStr.contains s (PyStr.lower (VoterRow.Domain row)))
                 App2.suspicious_domains = true \/
         (PyStr.split_len (VoterRow.Name row) <? 2) ||
         (String.length (VoterRow.Name row) <? 5) = true).
Proof.
  unfold App2.flagged.
  rewrite elem_of_list_of_set, elem_of_flag_short_names,
    elem_of_flag_suspicious_domains, elem_of_flag_duplicate_emails.
  split.
  - intros [[[H|(row & Hl & H)]|(row & Hl & H)]|(row & Hl & H)].
    + by apply elem_of_nil in H.
    + exists row. auto.
    + exists row. auto.
    + exists row. auto.
  - intros (row & Hl & [H|[H|H]]).
    + left. left. right. by exists row.
    + left. right. by exists row.
    + right. by exists row.
Qed.

(** What the scan of [prototype.py] flags. *)
Lemma prototype_flagged_spec (reg : list (string * Prototype.voter)) idx :
  idx ∈ Prototype.flagged reg
  <-> exists row,
        Prototype.voters_df reg !! idx = Some row /\
        (1 < Frame.count_key VoterRow.Email (VoterRow.Email row)
                             (Prototype.voters_df reg) \/
         existsb (fun s => PyStr.contains s (PyStr.lower (VoterRow.Domain row)))
                 Prototype.suspicious_domains = true).
Proof.
  unfold Prototype.flagged.
  rewrite elem_of_list_of_set, elem_of_flag_suspicious_domains,
    elem_of_flag_duplicate_emails.
  split.
  - intros [[H|(row & Hl & H)]|(row & Hl & H)].
    + by apply elem_of_nil in H.
    + exists row. auto.
    + exists row. auto.
  - intros (row & Hl & [H|H]).
    + left. right. by exists row.
    + right. by exists row.
Qed.

(** Two rows with one email make its count exceed 1. *)
Lemma shared_email_count (df : list VoterRow.t) i j ri rj :
  i <> j -> df !! i = Some ri -> df !! j = Some rj ->
  VoterRow.Email rj = VoterRow.Email ri ->
  1 < Frame.count_key VoterRow.Email (VoterRow.Email ri) df.
Proof.
  intros Hne Hi Hj He.
  apply (count_key_ge VoterRow.Email (VoterRow.Email ri) df [i; j]).
  - apply NoDup_cons. split; [by rewrite list_elem_of_singleton|].
    apply NoDup_singleton.
  - intros idx Hin. apply elem_of_cons in Hin as [->|Hin].
    + by exists ri.
    + apply list_elem_of_singleton in Hin as ->. by exists rj.
Qed.

End ScanResults.

Section DictFacts.

Context {V : Type}.
Implicit Types (d : list (string * V)) (ids : list string).

Lemma get_pop k k' d :
  Dict.get k' (Dict.pop k d)
  = if decide (k' = k) then None else Dict.get k' d.
Proof.
  unfold Dict.pop. induction d as [|[k0 x] d IH]; simpl.
  - by destruct (decide _).
  - rewrite filter_cons. simpl.
    destruct (decide (k0 <> k)) as [Hne|Heq]; simpl.
    + destruct (decide (k0 = k')) as [->|Hne']; [|done].
      by rewrite decide_False.
    + apply dec_stable in Heq. subst k0. rewrite IH.
      destruct (decide (k' = k)) as [->|Hne']; [done|].
      by rewrite (decide_False (P := k = k')).
Qed.

Lemma pop_all_filter ids d :
  fold_left (fun reg voter_id => Dict.pop voter_id reg) ids d
  = filter (fun kv => kv.1 ∉ ids) d.
Proof.
  revert d. induction ids as [|id ids IH]; intros d; simpl.
  - induction d as [|kv d IHd]; [done|].
    rewrite filter_cons_True by apply not_elem_of_nil. by rewrite <- IHd.
  - rewrite IH. unfold Dict.pop. rewrite list_filter_filter.
    apply list_filter_iff. intros kv. rewrite not_elem_of_cons. tauto.
Qed.

Lemma get_pop_all ids d k :
  Dict.get k (fold_left (fun reg voter_id => Dict.pop voter_id reg) ids d)
  = if decide (k ∈ ids) then None else Dict.get k d.
Proof.
  revert d. induction ids as [|id ids IH]; intros d.
  - destruct (decide (k ∈ [])) as [Hin|_]; [|done].
    by apply elem_of_nil in Hin.
  - cbn [fold_left]. rewrite IH, get_pop.
    destruct (decide (k ∈ id :: ids)) as [Hin|Hout].
    + apply elem_of_cons in Hin as [->|Hin].
      * destruct (decide (id ∈ ids)); [done|]. by rewrite decide_True.
      * by rewrite decide_True.
    + apply not_elem_of_cons in Hout as [Hne Hout].
      by rewrite decide_False, decide_False.
Qed.

End DictFacts.

(** ** The fraud claims *)

(** What rule 2 of the fraud tab of [app.py] collects: whenever the number
    of vote records with one (domain, candidate) pair exceeds 3, the row
    number of every vote record with that pair is in the local set
    [flagged]; so the row numbers of more than three, for instance five,
    votes from one domain for one candidate are all collected. *)
Lemma block_voting_flagged (st : App.t) :
  (forall idx row,
      App.votes_table st !! idx = Some row ->
      3 < Frame.count_key App.group_key (App.group_key row) (App.votes_table st) ->
      idx ∈ App.flagged st) /\
  (forall d c (idxs : list nat),
      NoDup idxs -> 3 < length idxs ->
      (forall idx, idx ∈ idxs ->
         exists row, App.votes_table st !! idx = Some row /\
                     App.Vote.Domain row = d /\ App.Vote.Candidate row = c) ->
      forall idx, idx ∈ idxs -> idx ∈ App.flagged st).
Proof.
  split; [apply flagged_block_votes|].
  intros d c idxs Hnd Hlen Hall idx Hin.
  destruct (Hall idx Hin) as (row & Hl & Hd & Hc).
  apply (flagged_block_votes st idx row Hl).
  eapply Nat.lt_le_trans; [exact Hlen|].
  apply count_key_ge; [done|].
  intros idx' Hin'. destruct (Hall idx' Hin') as (row' & Hl' & Hd' & Hc').
  exists row'. split; [done|]. unfold App.group_key. congruence.
Qed.

Lemma block_voting_flagged_witness :
  0 ∈ App.flagged demo_block_votes /\ 1 ∈ App.flagged demo_block_votes /\
  3 ∈ App.flagged demo_block_votes /\ 4 ∈ App.flagged demo_block_votes /\
  5 ∈ App.flagged demo_block_votes.
Proof.
  assert (forall idx, idx ∈ [0; 1; 3; 4; 5] -> idx ∈ App.flagged demo_block_votes)
    as Hall.
  { apply (proj2 (block_voting_flagged demo_block_votes) "acme.org" "Alice").
    - apply (bool_decide_unpack _). vm_compute. exact I.
    - simpl. lia.
    - intros idx Hin.
      repeat (apply elem_of_cons in Hin as [->|Hin];
              [eexists; by repeat split|]).
      by apply elem_of_nil in Hin. }
  repeat split; apply Hall; apply (bool_decide_unpack _); vm_compute; exact I.
Defined.

(** The labels of the five votes, and no other label, are in [flagged]. *)
Example demo_block_votes_flagged :
  elements (App.flagged demo_block_votes) ≡ₚ [0; 1; 3; 4; 5].
Proof. apply (bool_decide_unpack _). vm_compute. exact I. Qed.

(** The tab reads these vote labels in the voter frame: it shows the voters
    registered first, second, fourth, fifth and sixth, whoever cast the
    votes with those labels. *)
Example demo_block_votes_shown :
  exists rows,
    App.flagged_df demo_block_votes = Some rows /\
    map VoterRow.Voter_ID rows ≡ₚ ["V1"; "V2"; "V4"; "V5"; "V6"] /\
    map App.Vote.Voter_ID (App.votes_table demo_block_votes)
    = ["V1"; "V2"; "V6"; "V3"; "V4"; "V5"].
Proof.
  eexists. split; [vm_compute; reflexivity|].
  split; [|vm_compute; reflexivity].
  apply (bool_decide_unpack _). vm_compute. exact I.
Qed.

(** C7.  The fraud tab of [app.py] does not flag the vote records of a
    (domain, candidate) group of more than 3.  Rule 2 collects the row
    numbers of those records in the vote table, into the set in which
    rule 1 collects labels of the voter frame, and the tab then reads every
    collected number in the voter frame, [voters_df.loc[flagged]]: each
    row it shows is the registered voter at a collected position.  With
    ten registered voters of whom the last five, all of acme.org, vote for
    Alice, the five vote records have the row numbers 0 to 4, and the tab
    shows the five voters registered first, none of whom has voted, and
    none of the five who cast the votes. *)
Theorem block_votes_shown_as_other_voters :
  (forall (st : App.t) rows row,
      App.flagged_df st = Some rows -> row ∈ rows ->
      exists idx,
        idx ∈ App.flagged st /\
        App.voters_df (App.registered_voters st) !! idx = Some row) /\
  map App.Vote.Voter_ID (App.votes_table shifted_block_votes)
  = ["V6"; "V7"; "V8"; "V9"; "V10"] /\
  Forall (fun row => App.Vote.Domain row = "acme.org" /\
                     App.Vote.Candidate row = "Alice")
         (App.votes_table shifted_block_votes) /\
  elements (App.flagged shifted_block_votes) ≡ₚ [0; 1; 2; 3; 4] /\
  exists rows,
    App.flagged_df shifted_block_votes = Some rows /\
    map VoterRow.Voter_ID rows ≡ₚ ["V1"; "V2"; "V3"; "V4"; "V5"] /\
    forall row,
      row ∈ rows ->
      VoterRow.Voter_ID row
      ∉ map App.Vote.Voter_ID (App.votes_table shifted_block_votes).
Proof.
  split.
  { intros st rows row Hdf Hin. unfold App.flagged_df in Hdf.
    destruct (App.voters_df (App.registered_voters st)) as [|row0 df] eqn:Hv.
    - injection Hdf as <-. by apply elem_of_nil in Hin.
    - destruct (elements (App.flagged st)) as [|label labels] eqn:Hel.
      + injection Hdf as <-. by apply elem_of_nil in Hin.
      + destruct (loc_rows _ _ _ _ Hdf Hin) as (idx & Hidx & Hrow).
        exists idx. split; [|done].
        apply elem_of_elements. by rewrite Hel. }
  split; [vm_compute; reflexivity|].
  split; [vm_compute; by repeat constructor|].
  split; [apply (bool_decide_unpack _); vm_compute; exact I|].
  eexists. split; [vm_compute; reflexivity|].
  split; [apply (bool_decide_unpack _); vm_compute; exact I|].
  intros row Hin.
  repeat (apply elem_of_cons in Hin as [->|Hin];
          [apply (bool_decide_unpack _); vm_compute; exact I|]).
  by apply elem_of_nil in Hin.
Qed.

(** C8.  In the scans of [app2.py] and [prototype.py], when the number of
    registered voters with one email exceeds 1, the label of every voter row
    with that email is in [flagged] and the row is in the frame the page
    shows; so two registered voters who share an email are both flagged. *)
Theorem duplicate_email_flagged :
  (forall (reg : list (string * App2.voter)) idx row,
      App2.voters_df reg !! idx = Some row ->
      1 < Frame.count_key VoterRow.Email (VoterRow.Email row)
                          (App2.voters_df reg) ->
      idx ∈ App2.flagged reg /\
      exists rows,
        App2.fraud_detection reg = Some (Scan.Suspicious rows) /\ row ∈ rows) /\
  (forall (reg : list (string * Prototype.voter)) idx row,
      Prototype.voters_df reg !! idx = Some row ->
      1 < Frame.count_key VoterRow.Email (VoterRow.Email row)
                          (Prototype.voters_df reg) ->
      idx ∈ Prototype.flagged reg /\
      exists rows,
        Prototype.fraud_detection reg = Some (Scan.Suspicious rows) /\
        row ∈ rows) /\
  (forall (reg : list (string * App2.voter)) i j vi vj,
      i <> j -> reg !! i = Some vi -> reg !! j = Some vj ->
      App2.email vi.2 = App2.email vj.2 ->
      i ∈ App2.flagged reg /\ j ∈ App2.flagged reg) /\
  (forall (reg : list (string * Prototype.voter)) i j vi vj,
      i <> j -> reg !! i = Some vi -> reg !! j = Some vj ->
      Prototype.email vi.2 = Prototype.email vj.2 ->
      i ∈ Prototype.flagged reg /\ j ∈ Prototype.flagged reg).
Proof.
  assert (forall (reg : list (string * App2.voter)) idx row,
      App2.voters_df reg !! idx = Some row ->
      1 < Frame.count_key VoterRow.Email (VoterRow.Email row)
                          (App2.voters_df reg) ->
      idx ∈ App2.flagged reg) as Happ2.
  { intros reg idx row Hl Hc. apply app2_flagged_spec. exists row. auto. }
  assert (forall (reg : list (string * Prototype.voter)) idx row,
      Prototype.voters_df reg !! idx = Some row ->
      1 < Frame.count_key VoterRow.Email (VoterRow.Email row)
                          (Prototype.voters_df reg) ->
      idx ∈ Prototype.flagged reg) as Hproto.
  { intros reg idx row Hl Hc. apply prototype_flagged_spec. exists row. auto. }
  split; [|split; [|split]].
  - intros reg idx row Hl Hc. split; [by eapply Happ2|].
    apply (page_suspicious _ _ idx); [|by eapply Happ2|done].
    intros i Hi. apply app2_flagged_spec in Hi as (r & Hr & _). by exists r.
  - intros reg idx row Hl Hc. split; [by eapply Hproto|].
    apply (page_suspicious _ _ idx); [|by eapply Hproto|done].
    intros i Hi. apply prototype_flagged_spec in Hi as (r & Hr & _).
    by exists r.
  - intros reg i j vi vj Hne Hi Hj He.
    assert (App2.voters_df reg !! i
            = Some (VoterRow.mk vi.1 (App2.name vi.2) (App2.email vi.2)
                                (App2.domain vi.2))) as Hri
      by (unfold App2.voters_df; by rewrite list_lookup_fmap, Hi).
    assert (App2.voters_df reg !! j
            = Some (VoterRow.mk vj.1 (App2.name vj.2) (App2.email vj.2)
                                (App2.domain vj.2))) as Hrj
      by (unfold App2.voters_df; by rewrite list_lookup_fmap, Hj).
    split; (eapply Happ2; [eassumption|]).
    + by eapply (shared_email_count _ i j).
    + by eapply (shared_email_count _ j i).
  - intros reg i j vi vj Hne Hi Hj He.
    assert (Prototype.voters_df reg !! i
            = Some (VoterRow.mk vi.1 (Prototype.name vi.2)
                                (Prototype.email vi.2) (Prototype.domain vi.2)))
      as Hri
      by (unfold Prototype.voters_df; by rewrite list_lookup_fmap, Hi).
    assert (Prototype.voters_df reg !! j
            = Some (VoterRow.mk vj.1 (Prototype.name vj.2)
                                (Prototype.email vj.2) (Prototype.domain vj.2)))
      as Hrj
      by (unfold Prototype.voters_df; by rewrite list_lookup_fmap, Hj).
    split; (eapply Hproto; [eassumption|]).
    + by eapply (shared_email_count _ i j).
    + by eapply (shared_email_count _ j i).
Qed.

Lemma duplicate_email_flagged_witness :
  0 ∈ App2.flagged demo_shared_email /\ 2 ∈ App2.flagged demo_shared_email.
Proof.
  apply (proj1 (proj2 (proj2 duplicate_email_flagged)) demo_shared_email 0 2
           ("V1", App2.mk_voter "Jane Doe" "jane@acme.org" "acme.org"
                                "2023-11-14 22:13:20")
           ("V3", App2.mk_voter "Jane Doe Jr" "jane@acme.org" "acme.org"
                                "2023-11-14 22:15:20")).
  - lia.
  - reflexivity.
  - reflexivity.
  - reflexivity.
Defined.

(** The voter with an email of its own is not flagged. *)
Example demo_shared_email_page :
  exists rows,
    App2.fraud_detection demo_shared_email = Some (Scan.Suspicious rows) /\
    rows ≡ₚ [ VoterRow.mk "V1" "Jane Doe" "jane@acme.org" "acme.org";
              VoterRow.mk "V3" "Jane Doe Jr" "jane@acme.org" "acme.org" ].
Proof.
  eexists. split; [vm_compute; reflexivity|]. apply perm_swap.
Qed.

(** C9.  The button "Remove Flagged Registrations" takes the voter ids of
    the flagged rows out of the registry and leaves every other registration
    in place and in order; the ledger (chain, sealed transactions, pending
    list, admitted set), the vote table and the QR state are as before, so
    the votes the removed voters cast stay on the ledger. *)
Theorem remove_flagged_frame (flagged_df : list VoterRow.t) (st : App2.t) :
  let voter_ids := map VoterRow.Voter_ID flagged_df in
  let st' := App2.remove_flagged flagged_df st in
  (forall voter_id,
      Dict.get voter_id (App2.registered_voters st')
      = if decide (voter_id ∈ voter_ids) then None
        else Dict.get voter_id (App2.registered_voters st)) /\
  App2.registered_voters st'
  = filter (fun kv => kv.1 ∉ voter_ids) (App2.registered_voters st) /\
  App2.blockchain st' = App2.blockchain st /\
  Blockchain.get_all_transactions (App2.blockchain st')
  = Blockchain.get_all_transactions (App2.blockchain st) /\
  App2.votes_table st' = App2.votes_table st /\
  App2.candidate_list st' = App2.candidate_list st /\
  App2.qr_vote_counts st' = App2.qr_vote_counts st /\
  App2.qr_voters st' = App2.qr_voters st.
Proof.
  simpl. split; [|split]; [| |done].
  - intros voter_id. apply get_pop_all.
  - apply pop_all_filter.
Qed.

Example removal_keeps_votes :
  App2.fraud_detection (App2.registered_voters demo_remediation)
  = Some (Scan.Suspicious [VoterRow.mk "V1" "Al" "al@acme.org" "acme.org"]) /\
  let st' :=
    App2.remove_flagged [VoterRow.mk "V1" "Al" "al@acme.org" "acme.org"]
                        demo_remediation in
  map fst (App2.registered_voters st') = ["V2"] /\
  Blockchain.get_results (App2.blockchain st') !!! "Alice" = 1 /\
  "V1" ∈ Blockchain.voters (App2.blockchain st').
Proof.
  split; [vm_compute; reflexivity|]. split; [vm_compute; reflexivity|].
  split; [vm_compute; reflexivity|].
  apply (bool_decide_unpack _). vm_compute. exact I.
Qed.

(** ** The receipt claims *)

Example end_to_end_scenario :
  (App.cast_vote "V1" "Alice" "1700000000.5" "1700000000.5"
                 "2023-11-14 22:13:20" scenario_start).1
  = App.VoteCast "f99cbb1511" /\
  (App.cast_vote "V1" "Bob" "1700000000.75" "1700000000.75"
                 "2023-11-14 22:13:20" scenario_voted)
  = (App.AlreadyVoted, scenario_voted) /\
  App.mine_block "1700000001.5" scenario_voted = Some (true, scenario_sealed) /\
  map Block.index (Blockchain.chain (App.blockchain scenario_sealed)) = [0; 1] /\
  map_to_list (Blockchain.get_results (App.blockchain scenario_sealed))
  = [("Alice", 1)] /\
  App.validator "f99cbb1511" scenario_sealed
  = Some (Tx.mk "V1" "Alice" "f99cbb1511" "1700000000.5").
Proof. vm_compute. repeat split. Qed.

(** The two channels of [app2.py]: the QR receipt is found in the vote
    table, the receipt of the manual vote is unknown while the vote is
    pending and found on the ledger once it is sealed; the empty id is
    not looked up. *)
Example lookup_channels :
  (exists row,
      App2.verify_vote "6a96883d97eec289" demo_channels
      = App2.QRVoteVerified row /\
      App2.VoteRow.Candidate row = "Alice") /\
  App2.verify_vote "79c5ca5e1961fb15" demo_channels = App2.ReceiptNotFound /\
  App2.verify_vote "79c5ca5e1961fb15" demo_channels_sealed
  = App2.BlockchainVoteVerified
      (Tx.mk "V1" "Bob" "79c5ca5e1961fb15" "1700000002.5") /\
  App2.verify_vote "" demo_channels_sealed = App2.PleaseEnterReceipt.
Proof.
  split; [eexists; split; vm_compute; reflexivity|].
  repeat split; vm_compute; reflexivity.
Qed.



(** * Further properties of the ledger class *)

Section MoreLedgerFacts.

Import Blockchain.

Implicit Types (s : Blockchain.t) (v c r now : string).

(** What one call can do: nothing, admit one transaction, or seal the
    pending list. *)
Lemma step_inv s call ok s' :
  step s call = Some (ok, s') ->
  (ok = false /\ s' = s) \/
  (exists v c r now,
      call = AddTransaction v c r now /\ ok = true /\ (v ∉ voters s) /\
      s' = {| chain := chain s;
              pending_transactions :=
                pending_transactions s ++ [Tx.mk v c r now];
              voters := {[v]} ∪ voters s |}) \/
  (exists now p,
      call = Mine now /\ ok = true /\ last (chain s) = Some p /\
      pending_transactions s <> [] /\
      s' = {| chain :=
                chain s ++
                [Block.new (length (chain s)) (pending_transactions s) now
                           (Block.hash p)];
              pending_transactions := [];
              voters := voters s |}).
Proof.
  destruct call as [v c r now|now]; simpl.
  - intros [= H]. destruct (decide (v ∈ voters s)) as [Hin|Hout].
    + rewrite add_transaction_seen in H by done.
      injection H as <- <-. by left.
    + rewrite add_transaction_fresh in H by done.
      injection H as <- <-. right. left. by exists v, c, r, now.
  - intros H. apply mine_inv in H as [(-> & -> & _)|(p & -> & Hl & Hp & ->)].
    + by left.
    + right. right. by exists now, p.
Qed.

(** Induction over the reachable ledgers, by the calls that change one. *)
Lemma reachable_changes (P : Blockchain.t -> Prop) :
  (forall now, P (new now)) ->
  (forall s v c r now,
      reachable s -> P s -> (v ∉ voters s) ->
      P {| chain := chain s;
           pending_transactions :=
             pending_transactions s ++ [Tx.mk v c r now];
           voters := {[v]} ∪ voters s |}) ->
  (forall s now p,
      reachable s -> P s -> last (chain s) = Some p ->
      pending_transactions s <> [] ->
      P {| chain :=
             chain s ++
             [Block.new (length (chain s)) (pending_transactions s) now
                        (Block.hash p)];
           pending_transactions := [];
           voters := voters s |}) ->
  forall s, reachable s -> P s.
Proof.
  intros Hnew Hadd Hmine s Hr.
  induction Hr as [now|s call ok s' Hr IH Hs]; [done|].
  apply step_inv in Hs
    as [[_ ->]|[(v & c & r & now & _ & _ & Hout & ->)
               |(now & p & _ & _ & Hl & Hp & ->)]]; auto.
Qed.

Lemma all_transactions_new now : Ledger.all_transactions (new now) = [].
Proof. reflexivity. Qed.

Lemma all_transactions_step s call ok s' :
  step s call = Some (ok, s') ->
  Ledger.all_transactions s'
  = Ledger.all_transactions s ++ Ledger.admitted [call] [ok].
Proof.
  intros Hs. unfold Ledger.all_transactions.
  destruct call as [v c r now|now]; simpl in Hs.
  - injection Hs as Hs.
    destruct (decide (v ∈ voters s)) as [Hin|Hout].
    + rewrite add_transaction_seen in Hs by done. injection Hs as <- <-.
      simpl. by rewrite app_nil_r.
    + pose proof (add_transaction_all_transactions s v c r now) as Hall.
      rewrite add_transaction_fresh in Hs, Hall by done.
      injection Hs as <- <-. simpl in *. by rewrite Hall, app_assoc.
  - rewrite (mine_all_transactions _ _ _ _ Hs), (mine_pending _ _ _ _ Hs).
    simpl. destruct ok; by rewrite !app_nil_r.
Qed.

Lemma admitted_cons call calls ok oks :
  Ledger.admitted (call :: calls) (ok :: oks)
  = Ledger.admitted [call] [ok] ++ Ledger.admitted calls oks.
Proof. destruct call as [v c r now|now], ok; reflexivity. Qed.

Lemma all_transactions_run calls s oks s' :
  run calls s = Some (oks, s') ->
  Ledger.all_transactions s'
  = Ledger.all_transactions s ++ Ledger.admitted calls oks.
Proof.
  revert s oks. induction calls as [|call calls IH]; intros s oks.
  - intros [= <- <-]. simpl. by rewrite app_nil_r.
  - intros H. apply run_cons_inv in H as (ok & s1 & oks' & Hs & Hr & ->).
    rewrite (admitted_cons call calls ok oks').
    rewrite (IH _ _ Hr), (all_transactions_step _ _ _ _ Hs).
    by rewrite app_assoc.
Qed.

(** The admitted set is the set of the voter ids on the ledger, and no
    voter id is there twice. *)
Lemma reachable_one_each s :
  reachable s ->
  voters s = voter_ids (Ledger.all_transactions s) /\
  NoDup (map Tx.voter_id (Ledger.all_transactions s)).
Proof.
  intros Hr. assert (voters s = voter_ids (Ledger.all_transactions s)) as Hv.
  { rewrite (reachable_voters s Hr). unfold Ledger.all_transactions.
    rewrite voter_ids_app. apply (comm_L (∪)). }
  split; [done|]. clear Hv. revert s Hr.
  apply reachable_changes.
  - intros now. apply NoDup_nil_2.
  - intros s v c r now Hr IH Hout.
    assert (Ledger.all_transactions
              {| chain := chain s;
                 pending_transactions :=
                   pending_transactions s ++ [Tx.mk v c r now];
                 voters := {[v]} ∪ voters s |}
            = Ledger.all_transactions s ++ [Tx.mk v c r now]) as ->.
    { unfold Ledger.all_transactions, get_all_transactions. simpl.
      by rewrite app_assoc. }
    rewrite map_app. apply NoDup_app. split; [done|]. split.
    + intros x Hx Hin. apply list_elem_of_singleton in Hin. simpl in Hin.
      subst x. apply Hout.
      rewrite (reachable_voters s Hr). unfold Ledger.all_transactions in Hx.
      rewrite map_app, elem_of_app in Hx. unfold voter_ids.
      rewrite elem_of_union, !elem_of_list_to_set. tauto.
    + apply NoDup_singleton.
  - intros s now p Hr IH Hl Hp.
    assert (Ledger.all_transactions
              {| chain :=
                   chain s ++
                   [Block.new (length (chain s)) (pending_transactions s) now
                              (Block.hash p)];
                 pending_transactions := [];
                 voters := voters s |}
            = Ledger.all_transactions s) as ->; [|done].
    assert (mine now s
            = Some (true,
                    {| chain :=
                         chain s ++
                         [Block.new (length (chain s)) (pending_transactions s)
                                    now (Block.hash p)];
                       pending_transactions := [];
                       voters := voters s |})) as Hm.
    { unfold mine. rewrite Hl. by destruct (pending_transactions s). }
    unfold Ledger.all_transactions.
    rewrite (mine_all_transactions _ _ _ _ Hm). simpl. by rewrite app_nil_r.
Qed.

Lemma reachable_index s :
  reachable s ->
  forall i b, chain s !! i = Some b -> Block.index b = i.
Proof.
  revert s.
  apply (reachable_changes
           (fun s => forall i b, chain s !! i = Some b -> Block.index b = i)).
  - intros now [|i] b; [by intros [= <-]|done].
  - done.
  - intros s now p Hr IH Hl Hp i b. simpl.
    intros [Hb|[Hi Hb]]%lookup_app_Some; [by apply IH|].
    apply list_lookup_singleton_Some in Hb as [Hi0 <-]. simpl. lia.
Qed.

Lemma reachable_sealed_nonempty s :
  reachable s ->
  forall i b, chain s !! S i = Some b -> Block.transactions b <> [].
Proof.
  revert s.
  apply (reachable_changes
           (fun s => forall i b,
                chain s !! S i = Some b -> Block.transactions b <> [])).
  - intros now i b. by destruct i.
  - done.
  - intros s now p Hr IH Hl Hp i b. simpl.
    intros [Hb|[Hi Hb]]%lookup_app_Some; [by eapply IH|].
    by apply list_lookup_singleton_Some in Hb as [Hi0 <-].
Qed.

Lemma step_chain_prefix s call ok s' :
  step s call = Some (ok, s') ->
  chain s `prefix_of` chain s' /\
  length (chain s') <= S (length (chain s)).
Proof.
  intros Hs. apply step_inv in Hs
    as [[_ ->]|[(v & c & r & now & _ & _ & Hout & ->)
               |(now & p & _ & _ & Hl & Hp & ->)]]; simpl.
  - split; [done|lia].
  - split; [done|lia].
  - split; [by apply prefix_app_r|]. rewrite length_app. simpl. lia.
Qed.

Lemma run_chain_prefix calls s oks s' :
  run calls s = Some (oks, s') -> chain s `prefix_of` chain s'.
Proof.
  revert s oks. induction calls as [|call calls IH]; intros s oks.
  - by intros [= _ <-].
  - intros H. apply run_cons_inv in H as (ok & s1 & oks' & Hs & Hr & _).
    etrans; [by eapply step_chain_prefix | by eapply IH].
Qed.

Lemma step_reachable s call :
  reachable s -> exists ok s', step s call = Some (ok, s') /\ reachable s'.
Proof.
  intros Hr.
  assert (exists ok s', step s call = Some (ok, s')) as (ok & s' & Hs).
  { destruct call as [v c r now|now]; simpl.
    - destruct (add_transaction v c r now s) as [ok s'] eqn:H. eauto.
    - unfold mine. destruct (pending_transactions s); [eauto|].
      destruct (reachable_last s Hr) as [p ->]. eauto. }
  exists ok, s'. split; [done|]. by eapply reachable_step.
Qed.

Lemma run_reachable calls s :
  reachable s ->
  exists oks s', run calls s = Some (oks, s') /\ reachable s' /\
                 length oks = length calls.
Proof.
  revert s. induction calls as [|call calls IH]; intros s Hr.
  - by exists [], s.
  - destruct (step_reachable s call Hr) as (ok & s1 & Hs & Hr1).
    destruct (IH s1 Hr1) as (oks & s' & Hrun & Hr' & Hlen).
    exists (ok :: oks), s'. simpl. rewrite Hs, Hrun.
    split; [done|]. split; [done|]. simpl. by rewrite Hlen.
Qed.




Lemma get_block_info_map strftime s :
  Ledger.get_block_info strftime s
  = map (fun block =>
           {| BlockInfo.index := Block.index block;
              BlockInfo.timestamp := strftime (Block.timestamp block);
              BlockInfo.transactions := Block.transactions block;
              BlockInfo.hash := Block.hash block;
              BlockInfo.previous_hash := Block.previous_hash block |})
        (chain s).
Proof.
  unfold Ledger.get_block_info.
  assert (forall blocks info,
    fold_left
      (fun info block =>
         info ++
         [ {| BlockInfo.index := Block.index block;
              BlockInfo.timestamp := strftime (Block.timestamp block);
              BlockInfo.transactions := Block.transactions block;
              BlockInfo.hash := Block.hash block;
              BlockInfo.previous_hash := Block.previous_hash block |} ])
      blocks info
    = info ++
      map (fun block =>
             {| BlockInfo.index := Block.index block;
                BlockInfo.timestamp := strftime (Block.timestamp block);
                BlockInfo.transactions := Block.transactions block;
                BlockInfo.hash := Block.hash block;
                BlockInfo.previous_hash := Block.previous_hash block |})
          blocks) as Hgen.
  { induction blocks as [|b blocks IH]; intros info; simpl.
    - by rewrite app_nil_r.
    - by rewrite IH, <- app_assoc. }
  by rewrite Hgen.
Qed.


End MoreLedgerFacts.

(** X1.  On every ledger reachable from a fresh one, the block at position
    [i] of the chain carries the index [i]; so after a successful mine the
    new block is the last one and its index is [len(chain) - 1], the number
    that [app2.py] reports. *)
Theorem block_index_is_position (s : Blockchain.t) (now : string)
    (s' : Blockchain.t) :
  Blockchain.reachable s ->
  Blockchain.mine now s = Some (true, s') ->
  (forall i b, Blockchain.chain s !! i = Some b -> Block.index b = i) /\
  exists b,
    last (Blockchain.chain s') = Some b /\
    Block.index b = length (Blockchain.chain s') - 1 /\
    Block.index b = length (Blockchain.chain s).
Proof.
  intros Hr Hm. split; [by apply reachable_index|].
  apply mine_inv in Hm as [(Hf & _)|(p & _ & Hl & Hp & ->)]; [done|].
  eexists. simpl. rewrite last_snoc. split; [done|].
  rewrite length_app. simpl. split; lia.
Qed.

Lemma block_index_is_position_witness :
  (forall i b, Blockchain.chain demo_ledger !! i = Some b -> Block.index b = i) /\
  exists b,
    last (Blockchain.chain demo_mined) = Some b /\
    Block.index b = length (Blockchain.chain demo_mined) - 1 /\
    Block.index b = length (Blockchain.chain demo_ledger).
Proof.
  apply (block_index_is_position demo_ledger "5.5" demo_mined).
  - exact demo_ledger_reachable.
  - vm_compute. reflexivity.
Defined.

(** X2.  The ledger is append-only: whatever calls run, every block stays
    at its position unchanged, the sealed transactions of before are a
    prefix of the sealed transactions of after, no voter id leaves the
    admitted set and no candidate's tally goes down. *)
Theorem ledger_is_append_only
    (s : Blockchain.t) (calls : list Blockchain.call) (oks : list bool)
    (s' : Blockchain.t) :
  Blockchain.run calls s = Some (oks, s') ->
  (forall i b,
      Blockchain.chain s !! i = Some b -> Blockchain.chain s' !! i = Some b) /\
  Blockchain.get_all_transactions s
    `prefix_of` Blockchain.get_all_transactions s' /\
  Blockchain.voters s ⊆ Blockchain.voters s' /\
  (forall cand,
      Blockchain.get_results s !!! cand <= Blockchain.get_results s' !!! cand).
Proof.
  intros Hrun.
  assert (Blockchain.get_all_transactions s
            `prefix_of` Blockchain.get_all_transactions s') as Hsealed.
  { destruct (run_chain_prefix _ _ _ _ Hrun) as [rest Hc].
    rewrite !get_all_transactions_concat, Hc.
    destruct (Blockchain.chain s) as [|g blocks]; [apply prefix_nil|].
    simpl. rewrite !drop_0, map_app, concat_app. by apply prefix_app_r. }
  split; [|split; [done|split]].
  - intros i b Hb. destruct (run_chain_prefix _ _ _ _ Hrun) as [rest ->].
    by apply lookup_app_l_Some.
  - by eapply run_voters_mono.
  - intros cand. rewrite !get_results_lookup.
    destruct Hsealed as [rest ->]. rewrite votes_for_app. lia.
Qed.

Lemma ledger_is_append_only_witness :
  Blockchain.get_all_transactions demo_ledger
    `prefix_of` Blockchain.get_all_transactions demo_mined /\
  Blockchain.get_results demo_ledger !!! "Alice"
  <= Blockchain.get_results demo_mined !!! "Alice".
Proof.
  destruct (ledger_is_append_only demo_ledger [Blockchain.Mine "5.5"] [true]
              demo_mined) as (_ & Hp & _ & Ht).
  - vm_compute. reflexivity.
  - split; [exact Hp | exact (Ht "Alice")].
Defined.

(** X3.  [mine] never seals an empty block: on every reachable ledger each
    block after the genesis block holds at least one transaction, so the
    chain has at most one block more than there are sealed transactions. *)
Theorem sealed_blocks_are_not_empty (s : Blockchain.t) :
  Blockchain.reachable s ->
  (forall i b,
      Blockchain.chain s !! S i = Some b -> Block.transactions b <> []) /\
  length (Blockchain.chain s)
  <= S (length (Blockchain.get_all_transactions s)).
Proof.
  intros Hr. pose proof (reachable_sealed_nonempty s Hr) as Hne.
  split; [done|]. rewrite get_all_transactions_concat.
  destruct (Blockchain.chain s) as [|g blocks]; simpl; [lia|].
  rewrite drop_0. apply le_n_S.
  assert (forall i b, blocks !! i = Some b -> Block.transactions b <> [])
    as Hb by (intros i b; apply (Hne i b)).
  clear Hne Hr. induction blocks as [|b blocks IH]; simpl; [lia|].
  rewrite length_app.
  assert (Block.transactions b <> []) as Hbne by (by apply (Hb 0)).
  assert (length blocks
          <= length (concat (map Block.transactions blocks))) as Hle.
  { apply IH. intros i b'. apply (Hb (S i)). }
  destruct (Block.transactions b); [done|]. simpl. lia.
Qed.

Lemma sealed_blocks_are_not_empty_witness :
  length (Blockchain.chain demo_mined)
  <= S (length (Blockchain.get_all_transactions demo_mined)).
Proof.
  apply (sealed_blocks_are_not_empty demo_mined).
  eapply Blockchain.reachable_step with (c := Blockchain.Mine "5.5").
  - exact demo_ledger_reachable.
  - vm_compute. reflexivity.
Defined.

(** X4.  On every reachable ledger no voter id occurs on two transactions,
    sealed or pending, and the admitted set has exactly as many voter ids
    as the ledger has transactions: the voters who can no longer vote are
    the sealed votes plus the pending ones. *)
Theorem one_transaction_per_voter (s : Blockchain.t) :
  Blockchain.reachable s ->
  NoDup (map Tx.voter_id
             (Blockchain.get_all_transactions s
              ++ Blockchain.pending_transactions s)) /\
  size (Blockchain.voters s)
  = length (Blockchain.get_all_transactions s)
    + length (Blockchain.pending_transactions s).
Proof.
  intros Hr. destruct (reachable_one_each s Hr) as [Hv Hnd].
  split; [done|]. rewrite Hv. unfold Blockchain.voter_ids.
  rewrite size_list_to_set by done.
  unfold Ledger.all_transactions. by rewrite length_map, length_app.
Qed.

Lemma one_transaction_per_voter_witness :
  size (Blockchain.voters demo_ledger)
  = length (Blockchain.get_all_transactions demo_ledger)
    + length (Blockchain.pending_transactions demo_ledger).
Proof.
  exact (proj2 (one_transaction_per_voter demo_ledger demo_ledger_reachable)).
Defined.

(** X5.  Sealing keeps the admission order: after any run of calls the
    sealed transactions followed by the pending ones are those of before
    followed by the transactions of the successful admits, in call order;
    on a fresh ledger they are exactly the successful admits. *)
Theorem transactions_in_admission_order
    (s : Blockchain.t) (calls : list Blockchain.call)
    (oks : list bool) (s' : Blockchain.t) :
  Blockchain.run calls s = Some (oks, s') ->
  Blockchain.get_all_transactions s' ++ Blockchain.pending_transactions s'
  = (Blockchain.get_all_transactions s ++ Blockchain.pending_transactions s)
    ++ Ledger.admitted calls oks /\
  (forall now,
      s = Blockchain.new now ->
      Blockchain.get_all_transactions s' ++ Blockchain.pending_transactions s'
      = Ledger.admitted calls oks).
Proof.
  intros Hrun. pose proof (all_transactions_run _ _ _ _ Hrun) as Hall.
  unfold Ledger.all_transactions in Hall.
  split; [done|]. intros now ->. by rewrite Hall.
Qed.

Lemma transactions_in_admission_order_witness :
  Blockchain.get_all_transactions demo_ledger
  ++ Blockchain.pending_transactions demo_ledger
  = [Tx.mk "V1" "Alice" "r1" "2.5"; Tx.mk "V2" "Bob" "r2" "4.5"].
Proof.
  apply (proj2 (transactions_in_admission_order (Blockchain.new "1.5")
           [ Blockchain.AddTransaction "V1" "Alice" "r1" "2.5";
             Blockchain.Mine "3.5";
             Blockchain.AddTransaction "V2" "Bob" "r2" "4.5" ]
           [true; true; true] demo_ledger ltac:(vm_compute; reflexivity))
           "1.5").
  reflexivity.
Defined.

(** X6.  On a ledger built by the constructor and by calls no call raises:
    every run of admits and mines returns one flag per call ([mine] finds
    [chain[-1]] because the chain is never empty). *)
Theorem calls_never_raise (s : Blockchain.t) (calls : list Blockchain.call) :
  Blockchain.reachable s ->
  exists oks s',
    Blockchain.run calls s = Some (oks, s') /\
    Blockchain.reachable s' /\
    length oks = length calls.
Proof. apply run_reachable. Qed.

Lemma calls_never_raise_witness :
  exists oks s',
    Blockchain.run demo_calls demo_ledger = Some (oks, s') /\
    Blockchain.reachable s' /\
    length oks = length demo_calls.
Proof. exact (calls_never_raise demo_ledger demo_calls demo_ledger_reachable). Defined.



(** X8.  [get_block_info] lists one entry per block, in chain order: on a
    reachable ledger the entry at position [i] has index [i], the first
    entry is the genesis entry (no transactions, previous hash "0"), every
    later entry names the hash of the entry before it, and the
    transactions of the entries after the first are the sealed
    transactions. *)
Theorem block_info_mirrors_chain
    (strftime : string -> string) (s : Blockchain.t) :
  Blockchain.reachable s ->
  length (Ledger.get_block_info strftime s) = length (Blockchain.chain s) /\
  (forall i e,
      Ledger.get_block_info strftime s !! i = Some e ->
      BlockInfo.index e = i) /\
  (exists g,
      Ledger.get_block_info strftime s !! 0 = Some g /\
      BlockInfo.transactions g = [] /\ BlockInfo.previous_hash g = "0") /\
  (forall i e e',
      Ledger.get_block_info strftime s !! i = Some e ->
      Ledger.get_block_info strftime s !! S i = Some e' ->
      BlockInfo.previous_hash e' = BlockInfo.hash e) /\
  concat (map BlockInfo.transactions
              (drop 1 (Ledger.get_block_info strftime s)))
  = Blockchain.get_all_transactions s.
Proof.
  intros Hr. rewrite get_block_info_map.
  destruct (reachable_chain s Hr) as [(g & Hg & Hgi & Hgt & Hgp) Hlinked].
  split; [by rewrite length_map|]. split; [|split; [|split]].
  - intros i e He. apply list_lookup_fmap_Some in He as (b & -> & Hb).
    simpl. by apply (reachable_index s Hr).
  - eexists. rewrite list_lookup_fmap, Hg. simpl. by repeat split.
  - intros i e e' He He'.
    apply list_lookup_fmap_Some in He as (b & -> & Hb).
    apply list_lookup_fmap_Some in He' as (b' & -> & Hb').
    simpl. by eapply Hlinked.
  - rewrite get_all_transactions_concat.
    destruct (Blockchain.chain s) as [|b blocks]; [done|]. simpl.
    rewrite !drop_0, map_map. done.
Qed.

Lemma block_info_mirrors_chain_witness :
  length (Ledger.get_block_info id demo_mined) = 3 /\
  concat (map BlockInfo.transactions (drop 1 (Ledger.get_block_info id demo_mined)))
  = [Tx.mk "V1" "Alice" "r1" "2.5"; Tx.mk "V2" "Bob" "r2" "4.5"].
Proof.
  destruct (block_info_mirrors_chain id demo_mined) as (Hlen & _ & _ & _ & Htx).
  - eapply Blockchain.reachable_step with (c := Blockchain.Mine "5.5").
    + exact demo_ledger_reachable.
    + vm_compute. reflexivity.
  - split; [exact Hlen | exact Htx].
Defined.


(** X10.  A receipt is a fixed-length slice of a SHA-256 hex digest: the
    receipt of [app.py] and [prototype.py] has exactly 10 characters, the
    one of [app2.py] exactly 16, the hash of a block exactly 64, all of
    them lowercase hex digits, whatever the voter id, the candidate and
    the clock reading are. *)
Theorem receipts_are_hex_slices :
  (forall voter_id candidate now,
      String.length (App.receipt_of voter_id candidate now) = 10 /\
      lower_hex (App.receipt_of voter_id candidate now) = true) /\
  (forall voter_id candidate timestamp,
      String.length (App2.generate_receipt_id voter_id candidate timestamp)
      = 16 /\
      lower_hex (App2.generate_receipt_id voter_id candidate timestamp)
      = true) /\
  (forall index transactions timestamp previous_hash,
      String.length
        (Block.hash (Block.new index transactions timestamp previous_hash))
      = 64 /\
      lower_hex
        (Block.hash (Block.new index transactions timestamp previous_hash))
      = true).
Proof.
  split; [|split].
  - intros voter_id candidate now. unfold App.receipt_of.
    destruct (hexdigest_chars
                (PyStr.encode (voter_id +:+ candidate +:+ now))) as [Hl Hh].
    split; [|by apply lower_hex_slice].
    rewrite chars_length, chars_substring, length_take, Hl. done.
  - intros voter_id candidate timestamp. unfold App2.generate_receipt_id.
    destruct (hexdigest_chars
                (PyStr.encode (voter_id +:+ candidate +:+ timestamp)))
      as [Hl Hh].
    split; [|by apply lower_hex_slice].
    rewrite chars_length, chars_substring, length_take, Hl. done.
  - intros index transactions timestamp previous_hash.
    unfold Block.new, Block.hash_of_dict. simpl.
    destruct (hexdigest_chars
                (PyStr.encode
                   (Block.block_string
                      (Block.dict_in_init index transactions timestamp
                                          previous_hash 0)))) as [Hl Hh].
    split; [|done]. by rewrite chars_length.
Qed.

(** * The registries *)

Section RegistryFacts.

Context {V : Type}.
Implicit Types (reg : list (string * V)).

Lemma get_Some_elem k reg x :
  Dict.get k reg = Some x -> (k, x) ∈ reg.
Proof.
  induction reg as [|[k' x'] reg IH]; simpl; [done|].
  destruct (decide (k' = k)) as [->|Hne].
  - intros [= ->]. left.
  - intros H. right. by apply IH.
Qed.

Lemma get_None_keys k reg :
  Dict.get k reg = None <-> (k ∉ map fst reg).
Proof.
  induction reg as [|[k' x'] reg IH]; simpl.
  - split; [intros _; apply not_elem_of_nil|done].
  - destruct (decide (k' = k)) as [->|Hne].
    + split; [done|]. intros H. exfalso. apply H. left.
    + rewrite IH, not_elem_of_cons. naive_solver.
Qed.

Lemma contains_keys k reg :
  PyDict.contains k reg = true <-> k ∈ map fst reg.
Proof.
  unfold PyDict.contains. rewrite bool_decide_eq_true.
  destruct (Dict.get k reg) as [x|] eqn:Hg.
  - split; [|by eexists]. intros _. apply get_Some_elem in Hg.
    apply list_elem_of_fmap. by exists (k, x).
  - split; [by intros [? ?]|]. intros Hin. by apply get_None_keys in Hg.
Qed.

Lemma set_fresh k x reg :
  (k ∉ map fst reg) -> PyDict.set k x reg = reg ++ [(k, x)].
Proof.
  induction reg as [|[k' x'] reg IH]; simpl; [done|].
  intros [Hne Hout]%not_elem_of_cons.
  rewrite decide_False by done. by rewrite IH.
Qed.

Lemma get_app_fresh k k' x reg :
  k <> k' -> Dict.get k (reg ++ [(k', x)]) = Dict.get k reg.
Proof.
  intros Hne. induction reg as [|[k0 x0] reg IH]; simpl.
  - by rewrite decide_False.
  - by rewrite IH.
Qed.

Context (email_of : V -> string).

Lemma email_taken_emails email reg :
  existsb (fun kv => bool_decide (email = email_of kv.2)) reg = true
  <-> email ∈ map (fun kv => email_of kv.2) reg.
Proof.
  rewrite existsb_exists, list_elem_of_fmap. split.
  - intros (kv & Hin & He). apply bool_decide_eq_true in He.
    exists kv. split; [done|]. by apply list_elem_of_In.
  - intros (kv & -> & Hin). exists kv. apply list_elem_of_In in Hin.
    split; [done|]. by apply bool_decide_eq_true.
Qed.

(** What a registration does to the registry. *)
Lemma insert_cases voter_id email v reg :
  (Registry.insert email_of voter_id email v reg
   = (Registry.VoterIdTaken, reg) /\ voter_id ∈ map fst reg) \/
  (Registry.insert email_of voter_id email v reg
   = (Registry.EmailTaken, reg) /\
   (voter_id ∉ map fst reg) /\ email ∈ map (fun kv => email_of kv.2) reg) \/
  (Registry.insert email_of voter_id email v reg
   = (Registry.RegistrationSuccessful, reg ++ [(voter_id, v)]) /\
   (voter_id ∉ map fst reg) /\ (email ∉ map (fun kv => email_of kv.2) reg)).
Proof.
  unfold Registry.insert.
  destruct (PyDict.contains voter_id reg) eqn:Hc.
  - left. split; [done|]. by apply contains_keys.
  - assert (voter_id ∉ map fst reg) as Hout.
    { intros Hin. apply contains_keys in Hin. congruence. }
    destruct (existsb _ reg) eqn:He.
    + right. left. split; [done|]. split; [done|].
      by apply email_taken_emails.
    + right. right. rewrite set_fresh by done. split; [done|].
      split; [done|]. intros Hin. apply email_taken_emails in Hin. congruence.
Qed.

End RegistryFacts.

Section FormFacts.

Lemma falsy_false (x : option string) :
  Flask.falsy x = false <-> exists s, x = Some s /\ s <> EmptyString.
Proof.
  destruct x as [s|]; simpl.
  - rewrite bool_decide_eq_false. naive_solver.
  - naive_solver.
Qed.

(** The outcome of the form of [app.py]. *)
Lemma flask_register_voter_cases voter_id name email domain (st : App.t) :
  ((Flask.register_voter voter_id name email domain st).1
   <> Registry.RegistrationSuccessful /\
   (Flask.register_voter voter_id name email domain st).2 = st) \/
  (exists voter_id' name' email' domain',
      voter_id = Some voter_id' /\ name = Some name' /\
      email = Some email' /\ domain = Some domain' /\
      voter_id' <> EmptyString /\ name' <> EmptyString /\
      email' <> EmptyString /\ domain' <> EmptyString /\
      (voter_id' ∉ map fst (App.registered_voters st)) /\
      (email' ∉ map (fun kv => App.email kv.2) (App.registered_voters st)) /\
      Flask.register_voter voter_id name email domain st
      = (Registry.RegistrationSuccessful,
         {| App.blockchain := App.blockchain st;
            App.registered_voters :=
              App.registered_voters st
              ++ [(voter_id', App.mk_voter name' email' domain')];
            App.votes_table := App.votes_table st |})).
Proof.
  unfold Flask.register_voter.
  destruct voter_id as [voter_id'|], name as [name'|], email as [email'|],
    domain as [domain'|]; try (left; by split).
  destruct (Flask.falsy (Some voter_id')) eqn:H1; [left; by split|].
  destruct (Flask.falsy (Some name')) eqn:H2; [left; by split|].
  destruct (Flask.falsy (Some email')) eqn:H3; [left; by split|].
  destruct (Flask.falsy (Some domain')) eqn:H4; [left; by split|].
  simpl.
  apply falsy_false in H1 as (? & [= <-] & H1), H2 as (? & [= <-] & H2),
    H3 as (? & [= <-] & H3), H4 as (? & [= <-] & H4).
  destruct (insert_cases App.email voter_id' email'
              (App.mk_voter name' email' domain') (App.registered_voters st))
    as [[-> _]|[[-> _]|[-> [Hid Hem]]]].
  - left. split; [done|]. by destruct st.
  - left. split; [done|]. by destruct st.
  - right. by exists voter_id', name', email', domain'.
Qed.

(** The outcome of the forms of [app2.py]. *)
Lemma streamlit_register_voter_cases voter_id name email domain stamp
    (st : App2.t) :
  ((Streamlit.register_voter voter_id name email domain stamp st).1
   <> Registry.RegistrationSuccessful /\
   (Streamlit.register_voter voter_id name email domain stamp st).2 = st) \/
  (voter_id <> EmptyString /\ name <> EmptyString /\ email <> EmptyString /\
   (voter_id ∉ map fst (App2.registered_voters st)) /\
   (email ∉ map (fun kv => App2.email kv.2) (App2.registered_voters st)) /\
   Streamlit.register_voter voter_id name email domain stamp st
   = (Registry.RegistrationSuccessful,
      {| App2.blockchain := App2.blockchain st;
         App2.candidate_list := App2.candidate_list st;
         App2.registered_voters :=
           App2.registered_voters st
           ++ [(voter_id, App2.mk_voter name email domain stamp)];
         App2.qr_vote_counts := App2.qr_vote_counts st;
         App2.votes_table := App2.votes_table st;
         App2.qr_voters := App2.qr_voters st |})).
Proof.
  unfold Streamlit.register_voter.
  destruct (bool_decide (voter_id = EmptyString)) eqn:H1; [left; by split|].
  destruct (bool_decide (name = EmptyString)) eqn:H2; [left; by split|].
  destruct (bool_decide (email = EmptyString)) eqn:H3; [left; by split|].
  simpl. apply bool_decide_eq_false in H1, H2, H3.
  destruct (insert_cases App2.email voter_id email
              (App2.mk_voter name email domain stamp)
              (App2.registered_voters st))
    as [[-> _]|[[-> _]|[-> [Hid Hem]]]].
  - left. split; [done|]. by destruct st.
  - left. split; [done|]. by destruct st.
  - right. done.
Qed.


Lemma unique_snoc {V : Type} (email_of : V -> string)
    (reg : list (string * V)) k v :
  Registry.unique email_of reg ->
  (k ∉ map fst reg) -> (email_of v ∉ map (fun kv => email_of kv.2) reg) ->
  Registry.unique email_of (reg ++ [(k, v)]).
Proof.
  intros [Hk He] Hid Hem. unfold Registry.unique. rewrite !map_app. simpl.
  split.
  - apply NoDup_app. split; [done|]. split; [|apply NoDup_singleton].
    intros k' Hin Hin'. apply list_elem_of_singleton in Hin'. by subst k'.
  - apply NoDup_app. split; [done|]. split; [|apply NoDup_singleton].
    intros e Hin Hin'. apply list_elem_of_singleton in Hin'. by subst e.
Qed.

End FormFacts.



(** * The registration scan on registries *)

Section ScanOnRegistries.

Lemma filter_key_absent {A K : Type} `{EqDecision K} (key : A -> K) k
    (l : list A) :
  (k ∉ map key l) -> filter (fun x => key x = k) l = [].
Proof.
  induction l as [|x l IH]; [done|]. simpl.
  intros [Hne Hout]%not_elem_of_cons.
  rewrite filter_cons_False by done. by apply IH.
Qed.

(** A key column without repetition has no key counted twice. *)
Lemma count_key_unique {A K : Type} `{EqDecision K} (key : A -> K) k
    (l : list A) :
  NoDup (map key l) -> Frame.count_key key k l <= 1.
Proof.
  unfold Frame.count_key. induction l as [|x l IH]; simpl; [lia|].
  intros [Hout Hnd]%NoDup_cons. rewrite filter_cons.
  destruct (decide (key x = k)) as [<-|Hne]; [|by apply IH].
  simpl. by rewrite filter_key_absent.
Qed.

(** Dropping rows does not raise a count. *)
Lemma count_key_filter {A K : Type} `{EqDecision K} (key : A -> K) k
    (P : A -> Prop) `{forall x, Decision (P x)} (l : list A) :
  Frame.count_key key k (filter P l) <= Frame.count_key key k l.
Proof.
  unfold Frame.count_key. rewrite list_filter_filter.
  apply sublist_length.
  induction l as [|x l IH]; [done|]. rewrite !filter_cons.
  destruct (decide (key x = k /\ P x)) as [[Hk HP]|Hn].
  - rewrite decide_True by done. by apply sublist_skip.
  - destruct (decide (key x = k)); [by apply sublist_cons|done].
Qed.

Lemma app2_voters_df_emails (reg : list (string * App2.voter)) :
  map VoterRow.Email (App2.voters_df reg)
  = map (fun kv => App2.email kv.2) reg.
Proof. unfold App2.voters_df. by rewrite map_map. Qed.

Lemma prototype_voters_df_emails (reg : list (string * Prototype.voter)) :
  map VoterRow.Email (Prototype.voters_df reg)
  = map (fun kv => Prototype.email kv.2) reg.
Proof. unfold Prototype.voters_df. by rewrite map_map. Qed.

Lemma app2_voters_df_filter (P : string * App2.voter -> Prop)
    `{forall kv, Decision (P kv)} (reg : list (string * App2.voter)) k :
  Frame.count_key VoterRow.Email k (App2.voters_df (filter P reg))
  <= Frame.count_key VoterRow.Email k (App2.voters_df reg).
Proof.
  unfold Frame.count_key, App2.voters_df.
  induction reg as [|kv reg IH]; [done|].
  rewrite filter_cons. destruct (decide (P kv)); simpl.
  - rewrite !filter_cons. simpl.
    destruct (decide (App2.email kv.2 = k)); simpl; lia.
  - rewrite filter_cons. simpl.
    destruct (decide (App2.email kv.2 = k)); simpl; lia.
Qed.

(** No label at all means an empty list. *)
Lemma no_label_nil (l : list nat) : (forall idx, idx ∉ l) -> l = [].
Proof.
  destruct l as [|x l]; [done|]. intros H. exfalso. apply (H x). left.
Qed.

Lemma list_of_set_NoDup (flagged : list nat) : NoDup (list_of_set flagged).
Proof. unfold list_of_set. apply NoDup_elements. Qed.

(** The frame a page shows. *)
Lemma page_cases (df : list VoterRow.t) (flagged : list nat) :
  (forall idx, idx ∈ flagged -> is_Some (df !! idx)) ->
  exists rows,
    Frame.loc df flagged = Some rows /\
    Forall2 (fun idx row => df !! idx = Some row) flagged rows /\
    Scan.page df flagged
    = Some (match df, rows with
            | [], _ => Scan.NoVoters
            | _ :: _, [] => Scan.NoSuspicious
            | _ :: _, _ :: _ => Scan.Suspicious rows
            end).
Proof.
  intros Hv. destruct (loc_valid df flagged Hv) as (rows & Hloc & _).
  exists rows. split; [done|]. split.
  - by apply mapM_Some.
  - unfold Scan.page. destruct df as [|row0 df]; [done|]. rewrite Hloc.
    by destruct rows.
Qed.

End ScanOnRegistries.

(** X12.  The scan of [app2.py] never fails and is exact: every label in
    [flagged] is a label of the voter frame (so [voters_df.loc[flagged]]
    finds each one), no label is there twice, a registration is flagged
    exactly when its email is shared, its domain contains a listed domain
    or its name is too short, and the page shows exactly the flagged rows:
    "No registered voters" for an empty registry, "No suspicious activity"
    when nothing is flagged. *)
Theorem scan_shows_exactly_the_flagged (reg : list (string * App2.voter)) :
  NoDup (App2.flagged reg) /\
  (forall idx,
      idx ∈ App2.flagged reg <->
      exists row,
        App2.voters_df reg !! idx = Some row /\
        (1 < Frame.count_key VoterRow.Email (VoterRow.Email row)
                             (App2.voters_df reg) \/
         existsb (fun s => PyStr.contains s (PyStr.lower (VoterRow.Domain row)))
                 App2.suspicious_domains = true \/
         (PyStr.split_len (VoterRow.Name row) <? 2) ||
         (String.length (VoterRow.Name row) <? 5) = true)) /\
  exists rows,
    Forall2 (fun idx row => App2.voters_df reg !! idx = Some row)
            (App2.flagged reg) rows /\
    App2.fraud_detection reg
    = Some (match reg, rows with
            | [], _ => Scan.NoVoters
            | _ :: _, [] => Scan.NoSuspicious
            | _ :: _, _ :: _ => Scan.Suspicious rows
            end).
Proof.
  split; [apply list_of_set_NoDup|]. split; [apply app2_flagged_spec|].
  destruct (page_cases (App2.voters_df reg) (App2.flagged reg))
    as (rows & _ & Hrows & Hpage).
  { intros idx Hin. apply app2_flagged_spec in Hin as (row & Hrow & _).
    by exists row. }
  exists rows. split; [done|]. unfold App2.fraud_detection. rewrite Hpage.
  by destruct reg.
Qed.

(** X13.  On a registry in which no email is shared (the registration
    forms keep it so) the duplicate-email rule of the scans is idle: the
    scan of [app2.py] flags exactly the registrations with a listed domain
    or a short name, the scan of [prototype.py] exactly those with a listed
    domain. *)
Theorem duplicate_rule_idle_on_unique_emails :
  (forall (reg : list (string * App2.voter)) idx,
      Registry.unique App2.email reg ->
      (idx ∈ App2.flagged reg <->
       exists row,
         App2.voters_df reg !! idx = Some row /\
         (existsb (fun s => PyStr.contains s (PyStr.lower (VoterRow.Domain row)))
                  App2.suspicious_domains = true \/
          (PyStr.split_len (VoterRow.Name row) <? 2) ||
          (String.length (VoterRow.Name row) <? 5) = true))) /\
  (forall (reg : list (string * Prototype.voter)) idx,
      Registry.unique Prototype.email reg ->
      (idx ∈ Prototype.flagged reg <->
       exists row,
         Prototype.voters_df reg !! idx = Some row /\
         existsb (fun s => PyStr.contains s (PyStr.lower (VoterRow.Domain row)))
                 Prototype.suspicious_domains = true)).
Proof.
  split.
  - intros reg idx [_ He]. rewrite app2_flagged_spec.
    split; intros (row & Hrow & H); exists row; (split; [done|]).
    + destruct H as [H|H]; [|done]. exfalso.
      pose proof (count_key_unique VoterRow.Email (VoterRow.Email row)
                    (App2.voters_df reg)) as Hle.
      rewrite app2_voters_df_emails in Hle. specialize (Hle He). lia.
    + by right.
  - intros reg idx [_ He]. rewrite prototype_flagged_spec.
    split; intros (row & Hrow & H); exists row; (split; [done|]).
    + destruct H as [H|H]; [|done]. exfalso.
      pose proof (count_key_unique VoterRow.Email (VoterRow.Email row)
                    (Prototype.voters_df reg)) as Hle.
      rewrite prototype_voters_df_emails in Hle. specialize (Hle He). lia.
    + by right.
Qed.

Lemma duplicate_rule_idle_on_unique_emails_witness :
  0 ∈ App2.flagged (App2.registered_voters demo_remediation) <->
  exists row,
    App2.voters_df (App2.registered_voters demo_remediation) !! 0 = Some row /\
    (existsb (fun s => PyStr.contains s (PyStr.lower (VoterRow.Domain row)))
             App2.suspicious_domains = true \/
     (PyStr.split_len (VoterRow.Name row) <? 2) ||
     (String.length (VoterRow.Name row) <? 5) = true).
Proof.
  apply (proj1 duplicate_rule_idle_on_unique_emails).
  split; apply (bool_decide_unpack _); vm_compute; exact I.
Defined.

(** X14.  Remediation settles the scan of [app2.py]: when the page shows
    flagged registrations and the button removes them, the registrations
    that stay keep their order, none of them is flagged by a new scan, and
    the page then reports no suspicious activity (or no voters). *)
Theorem remediation_settles_the_scan
    (st : App2.t) (rows : list VoterRow.t) :
  App2.fraud_detection (App2.registered_voters st)
  = Some (Scan.Suspicious rows) ->
  let st' := App2.remove_flagged rows st in
  App2.flagged (App2.registered_voters st') = [] /\
  App2.fraud_detection (App2.registered_voters st')
  = Some (match App2.registered_voters st' with
          | [] => Scan.NoVoters
          | _ :: _ => Scan.NoSuspicious
          end) /\
  App2.registered_voters st' `sublist_of` App2.registered_voters st.
Proof.
  intros Hpage st'.
  set (reg := App2.registered_voters st) in *.
  set (ids := map VoterRow.Voter_ID rows).
  assert (App2.registered_voters st'
          = filter (fun kv => kv.1 ∉ ids) reg) as Hreg'.
  { subst st'. simpl. apply pop_all_filter. }
  rewrite Hreg'.
  assert (forall idx row,
      idx ∈ App2.flagged reg -> App2.voters_df reg !! idx = Some row ->
      row ∈ rows) as Hshown.
  { unfold App2.fraud_detection, Scan.page in Hpage.
    destruct (App2.voters_df reg) as [|row0 df] eqn:Hdf; [done|].
    destruct (Frame.loc (row0 :: df) (App2.flagged reg)) as [rows'|] eqn:Hloc;
      [|done].
    destruct rows' as [|r rows']; [done|]. injection Hpage as <-.
    intros idx row Hin Hrow. apply mapM_Some in Hloc.
    apply list_elem_of_lookup in Hin as [i Hi].
    destruct (Forall2_lookup_l _ _ _ _ _ Hloc Hi) as (row' & Hr & Hrow').
    simpl in Hrow'. rewrite Hrow in Hrow'. injection Hrow' as <-.
    by eapply list_elem_of_lookup_2. }
  assert (App2.flagged (filter (fun kv => kv.1 ∉ ids) reg) = []) as Hnone.
  { apply no_label_nil. intros idx Hin.
    apply app2_flagged_spec in Hin as (row & Hrow & Hrule).
    unfold App2.voters_df in Hrow.
    apply list_lookup_fmap_Some in Hrow as (kv & -> & Hkv).
    apply list_elem_of_lookup_2, list_elem_of_filter in Hkv as [Hout Hkv].
    apply list_elem_of_lookup in Hkv as [j Hj].
    set (row := {| VoterRow.Voter_ID := kv.1;
                   VoterRow.Name := App2.name kv.2;
                   VoterRow.Email := App2.email kv.2;
                   VoterRow.Domain := App2.domain kv.2 |}) in *.
    assert (App2.voters_df reg !! j = Some row) as Hrowj
      by (unfold App2.voters_df; by rewrite list_lookup_fmap, Hj).
    apply Hout. subst ids. apply list_elem_of_fmap. exists row.
    split; [done|]. apply (Hshown j); [|done].
    apply app2_flagged_spec. exists row. split; [done|].
    destruct Hrule as [Hdup|Hrule]; [left|by right].
    eapply Nat.lt_le_trans; [exact Hdup|].
    apply (app2_voters_df_filter (fun kv => kv.1 ∉ map VoterRow.Voter_ID rows)). }
  split; [done|]. split; [|apply sublist_filter].
  unfold App2.fraud_detection. rewrite Hnone. unfold Scan.page, App2.voters_df.
  by destruct (filter (fun kv => kv.1 ∉ ids) reg).
Qed.

Lemma remediation_settles_the_scan_witness :
  App2.flagged
    (App2.registered_voters
       (App2.remove_flagged [VoterRow.mk "V1" "Al" "al@acme.org" "acme.org"]
                            demo_remediation)) = [].
Proof.
  apply (remediation_settles_the_scan demo_remediation
           [VoterRow.mk "V1" "Al" "al@acme.org" "acme.org"]).
  vm_compute. reflexivity.
Defined.

(** X15.  Remediation does not free the ledger mark: a voter who has been
    admitted and whose registration is removed is still refused by the
    manual vote after registering again, and the refusal changes nothing;
    removal and registration leave the ledger as it is. *)
Theorem removed_voter_stays_admitted
    (st : App2.t) (rows : list VoterRow.t)
    (voter_id name email domain stamp candidate timestamp now_tx stamp' : string) :
  voter_id ∈ Blockchain.voters (App2.blockchain st) ->
  let st1 := App2.remove_flagged rows st in
  let st2 := (Streamlit.register_voter voter_id name email domain stamp st1).2 in
  App2.blockchain st2 = App2.blockchain st /\
  App2.submit_vote voter_id candidate timestamp now_tx stamp' st2
  = Some (App2.AlreadyVoted, st2).
Proof.
  intros Hin st1 st2.
  assert (App2.blockchain st2 = App2.blockchain st) as Hbc.
  { subst st2.
    destruct (streamlit_register_voter_cases voter_id name email domain stamp st1)
      as [[_ ->]|(_ & _ & _ & _ & _ & ->)]; done. }
  split; [done|]. unfold App2.submit_vote. rewrite Hbc.
  by rewrite decide_True.
Qed.

Lemma removed_voter_stays_admitted_witness :
  App2.submit_vote "V1" "Bob" "1700000009.5" "1700000009.5"
    "2023-11-14 22:30:00"
    (Streamlit.register_voter "V1" "Albert Roe" "albert@acme.org" "acme.org"
       "2023-11-14 22:29:00"
       (App2.remove_flagged [VoterRow.mk "V1" "Al" "al@acme.org" "acme.org"]
                            demo_remediation)).2
  = Some (App2.AlreadyVoted,
          (Streamlit.register_voter "V1" "Albert Roe" "albert@acme.org"
             "acme.org" "2023-11-14 22:29:00"
             (App2.remove_flagged
                [VoterRow.mk "V1" "Al" "al@acme.org" "acme.org"]
                demo_remediation)).2).
Proof.
  apply (removed_voter_stays_admitted demo_remediation
           [VoterRow.mk "V1" "Al" "al@acme.org" "acme.org"]
           "V1" "Albert Roe" "albert@acme.org" "acme.org"
           "2023-11-14 22:29:00" "Bob" "1700000009.5" "1700000009.5"
           "2023-11-14 22:30:00").
  apply (bool_decide_unpack _). vm_compute. exact I.
Defined.

(** * The pages of [app.py] *)

Section FlaskFacts.

(** The three outcomes of a cast. *)
Lemma cast_vote_cases v c now now_tx stamp (st : App.t) :
  (Dict.get v (App.registered_voters st) = None /\
   App.cast_vote v c now now_tx stamp st = (App.MustRegister, st)) \/
  (is_Some (Dict.get v (App.registered_voters st)) /\
   v ∈ Blockchain.voters (App.blockchain st) /\
   App.cast_vote v c now now_tx stamp st = (App.AlreadyVoted, st)) \/
  (exists info,
      Dict.get v (App.registered_voters st) = Some info /\
      (v ∉ Blockchain.voters (App.blockchain st)) /\
      App.cast_vote v c now now_tx stamp st
      = (App.VoteCast (App.receipt_of v c now),
         {| App.blockchain :=
              {| Blockchain.chain := Blockchain.chain (App.blockchain st);
                 Blockchain.pending_transactions :=
                   Blockchain.pending_transactions (App.blockchain st)
                   ++ [Tx.mk v c (App.receipt_of v c now) now_tx];
                 Blockchain.voters :=
                   {[v]} ∪ Blockchain.voters (App.blockchain st) |};
            App.registered_voters := App.registered_voters st;
            App.votes_table :=
              App.votes_table st
              ++ [ {| App.Vote.Voter_ID := v;
                      App.Vote.Name := App.name info;
                      App.Vote.Email := App.email info;
                      App.Vote.Domain := App.domain info;
                      App.Vote.Candidate := c;
                      App.Vote.Receipt := App.receipt_of v c now;
                      App.Vote.Timestamp := stamp |} ] |})).
Proof.
  unfold App.cast_vote.
  destruct (Dict.get v (App.registered_voters st)) as [info|] eqn:Hg;
    [|by left].
  right. destruct (decide (v ∈ Blockchain.voters (App.blockchain st)))
    as [Hin|Hout].
  - left. by split; [eexists|].
  - right. exists info. split; [done|]. split; [done|].
    by rewrite (add_transaction_fresh _ _ _ _ _ Hout).
Qed.

Lemma flask_invariant (st : App.t) :
  Flask.reachable st ->
  Blockchain.reachable (App.blockchain st) /\
  Registry.unique App.email (App.registered_voters st) /\
  Forall (fun kv => kv.1 <> EmptyString /\ App.name kv.2 <> EmptyString /\
                    App.email kv.2 <> EmptyString /\
                    App.domain kv.2 <> EmptyString)
         (App.registered_voters st) /\
  Forall2 (Flask.row_of_tx (App.registered_voters st)) (App.votes_table st)
          (Ledger.all_transactions (App.blockchain st)).
Proof.
  induction 1 as [now|st rq st' Hr (Hbc & Hu & Hf & Hrows) Hh].
  - simpl. split; [apply Blockchain.reachable_new|].
    split; [split; apply NoDup_nil_2|]. split; [done|].
    rewrite all_transactions_new. constructor.
  - destruct rq as [voter_id name email domain|v c now now_tx stamp|now];
      simpl in Hh.
    + injection Hh as <-.
      destruct (flask_register_voter_cases voter_id name email domain st)
        as [[_ ->]|(v' & n' & e' & d' & -> & -> & -> & -> & H1 & H2 & H3 & H4
                    & Hid & Hem & ->)]; [done|].
      simpl. split; [done|]. split; [by apply unique_snoc|]. split.
      * apply Forall_app. split; [done|]. by repeat constructor.
      * eapply Forall2_impl; [exact Hrows|].
        intros row tx (Hv & Hc & Hrc & Hg). repeat split; try done.
        rewrite get_app_fresh; [done|]. intros Heq. rewrite Heq in Hg.
        apply get_Some_elem in Hg. apply Hid.
        apply list_elem_of_fmap. eexists. split; [|exact Hg]. done.
    + injection Hh as <-.
      destruct (cast_vote_cases v c now now_tx stamp st)
        as [[_ ->]|[(_ & _ & ->)|(info & Hg & Hout & ->)]]; [done|done|].
      simpl.
      assert (Blockchain.step (App.blockchain st)
                (Blockchain.AddTransaction v c (App.receipt_of v c now) now_tx)
              = Some (true,
                      {| Blockchain.chain := Blockchain.chain (App.blockchain st);
                         Blockchain.pending_transactions :=
                           Blockchain.pending_transactions (App.blockchain st)
                           ++ [Tx.mk v c (App.receipt_of v c now) now_tx];
                         Blockchain.voters :=
                           {[v]} ∪ Blockchain.voters (App.blockchain st) |}))
        as Hstep.
      { simpl. by rewrite (add_transaction_fresh _ _ _ _ _ Hout). }
      split; [by eapply Blockchain.reachable_step|]. split; [done|].
      split; [done|].
      rewrite (all_transactions_step _ _ _ _ Hstep). simpl.
      apply Forall2_app; [done|]. constructor; [|constructor].
      repeat split; simpl; try done. by destruct info.
    + unfold App.mine_block in Hh.
      destruct (Blockchain.mine now (App.blockchain st)) as [[ok bc]|] eqn:Hm;
        [|done].
      injection Hh as <-. simpl.
      assert (Blockchain.step (App.blockchain st) (Blockchain.Mine now)
              = Some (ok, bc)) as Hstep by done.
      split; [by eapply Blockchain.reachable_step|]. split; [done|].
      split; [done|].
      rewrite (all_transactions_step _ _ _ _ Hstep). simpl.
      by rewrite app_nil_r.
Qed.

(** Rule 1 of the fraud tab flags labels of the voter frame. *)
Lemma elem_of_flag_suspicious_emails (irs : list (nat * VoterRow.t))
    (flagged : gset nat) idx :
  idx ∈ fold_left App.flag_suspicious_email irs flagged ->
  idx ∈ flagged \/ exists row, (idx, row) ∈ irs.
Proof.
  revert flagged. induction irs as [|[i row] irs IH]; intros flagged; simpl.
  - by left.
  - intros H. apply IH in H as [H|(row' & Hin)].
    + unfold App.flag_suspicious_email in H. simpl in H.
      match type of H with _ ∈ (if ?b then _ else _) => destruct b end;
        [|by left].
      apply elem_of_union in H as [H|H]; [|by left].
      apply elem_of_singleton in H as ->. right. exists row. left.
    + right. exists row'. by right.
Qed.

(** The labels of the fraud tab: labels of the voter frame or labels of
    the vote table. *)
Lemma flagged_labels (st : App.t) idx :
  idx ∈ App.flagged st ->
  idx < length (App.registered_voters st) \/
  idx < length (App.votes_table st).
Proof.
  unfold App.flagged. intros H.
  assert (idx ∈ fold_left App.flag_suspicious_email
                  (Frame.iterrows (App.voters_df (App.registered_voters st))) ∅
          -> idx < length (App.registered_voters st)) as Hrule1.
  { intros H1. apply elem_of_flag_suspicious_emails in H1 as [H1|(row & Hin)].
    - by apply not_elem_of_empty in H1.
    - apply elem_of_iterrows in Hin. apply lookup_lt_Some in Hin.
      unfold App.voters_df in Hin. by rewrite length_map in Hin. }
  destruct (App.votes_table st) as [|row0 rows] eqn:Hdf; [left; by apply Hrule1|].
  apply elem_of_flag_groups in H as [H|(g & row & _ & Hrow & _)].
  - left. by apply Hrule1.
  - right. by apply lookup_lt_Some in Hrow.
Qed.

End FlaskFacts.

Lemma scenario_sealed_reachable : Flask.reachable scenario_sealed.
Proof.
  eapply Flask.reachable_handle with (rq := Flask.MineBlock "1700000001.5").
  - eapply Flask.reachable_handle
      with (rq := Flask.CastVote "V1" "Alice" "1700000000.5" "1700000000.5"
                                 "2023-11-14 22:13:20").
    + eapply Flask.reachable_handle
        with (rq := Flask.Register (Some "V1") (Some "Jane Doe")
                                   (Some "jane@acme.org") (Some "acme.org")).
      * apply (Flask.reachable_start "1699999999.5").
      * reflexivity.
    + reflexivity.
  - vm_compute. reflexivity.
Qed.

(** A run of requests leads from a reachable state to a reachable one. *)
Lemma reachable_requests (rqs : list Flask.request) (st : App.t) :
  Flask.reachable st ->
  Flask.reachable
    (fold_left (fun st rq => default st (Flask.handle st rq)) rqs st).
Proof.
  revert st. induction rqs as [|rq rqs IH]; intros st Hr; simpl; [done|].
  apply IH. destruct (Flask.handle st rq) as [st'|] eqn:Hh; simpl; [|done].
  by eapply Flask.reachable_handle.
Qed.

(** The state with the five block votes is reached by requests: ten
    registrations, then the votes of the five voters registered last. *)
Example shifted_block_votes_reachable : Flask.reachable shifted_block_votes.
Proof.
  assert (shifted_block_votes
          = fold_left (fun st rq => default st (Flask.handle st rq))
              (map (fun kv => Flask.Register (Some kv.1)
                                (Some (App.name kv.2)) (Some (App.email kv.2))
                                (Some (App.domain kv.2)))
                   shifted_registry
               ++ map (fun v => Flask.CastVote v "Alice" "1700000000.5"
                                  "1700000000.5" "2023-11-14 22:13:20")
                      ["V6"; "V7"; "V8"; "V9"; "V10"])
              (App.mk (Blockchain.new "1699999999.5") [] [])) as ->
    by (vm_compute; reflexivity).
  apply reachable_requests, Flask.reachable_start.
Qed.

(** X16.  In every state that [app.py] reaches by registrations, casts and
    mines, no voter id and no email is registered twice and every
    registered voter has a voter id, a name, an email and a domain that are
    not empty. *)
Theorem flask_registry_is_well_formed (st : App.t) :
  Flask.reachable st ->
  NoDup (map fst (App.registered_voters st)) /\
  NoDup (map (fun kv => App.email kv.2) (App.registered_voters st)) /\
  (forall voter_id info,
      Dict.get voter_id (App.registered_voters st) = Some info ->
      voter_id <> EmptyString /\ App.name info <> EmptyString /\
      App.email info <> EmptyString /\ App.domain info <> EmptyString).
Proof.
  intros Hr. destruct (flask_invariant st Hr) as (_ & [Hk He] & Hf & _).
  split; [done|]. split; [done|]. intros voter_id info Hg.
  apply get_Some_elem in Hg. rewrite Forall_forall in Hf.
  apply (Hf (voter_id, info)). exact Hg.
Qed.

Lemma flask_registry_is_well_formed_witness :
  NoDup (map fst (App.registered_voters scenario_sealed)) /\
  NoDup (map (fun kv => App.email kv.2) (App.registered_voters scenario_sealed)).
Proof.
  destruct (flask_registry_is_well_formed scenario_sealed
              scenario_sealed_reachable) as (Hk & He & _).
  by split.
Defined.

(** X17.  In every state that [app.py] reaches, the vote table mirrors the
    ledger: its rows are, in order, the sealed transactions followed by the
    pending ones, each row with the voter id, candidate and receipt of its
    transaction and with the name, email and domain under which that voter
    is registered; so the voter ids of the table are the admitted set. *)
Theorem vote_table_mirrors_ledger (st : App.t) :
  Flask.reachable st ->
  Forall2
    (fun row tx =>
       App.Vote.Voter_ID row = Tx.voter_id tx /\
       App.Vote.Candidate row = Tx.candidate tx /\
       App.Vote.Receipt row = Tx.receipt_id tx /\
       Dict.get (App.Vote.Voter_ID row) (App.registered_voters st)
       = Some (App.mk_voter (App.Vote.Name row) (App.Vote.Email row)
                            (App.Vote.Domain row)))
    (App.votes_table st)
    (Blockchain.get_all_transactions (App.blockchain st)
     ++ Blockchain.pending_transactions (App.blockchain st)) /\
  list_to_set (map App.Vote.Voter_ID (App.votes_table st))
  = Blockchain.voters (App.blockchain st) /\
  Blockchain.reachable (App.blockchain st).
Proof.
  intros Hr. destruct (flask_invariant st Hr) as (Hbc & _ & _ & Hrows).
  split; [exact Hrows|]. split; [|done].
  destruct (reachable_one_each _ Hbc) as [-> _].
  unfold Blockchain.voter_ids. f_equal.
  unfold Ledger.all_transactions in *.
  induction Hrows as [|row tx rows txs (Hv & _) _ IH]; [done|].
  simpl. by rewrite Hv, IH.
Qed.

Lemma vote_table_mirrors_ledger_witness :
  list_to_set (map App.Vote.Voter_ID (App.votes_table scenario_sealed))
  = Blockchain.voters (App.blockchain scenario_sealed).
Proof.
  exact (proj1 (proj2 (vote_table_mirrors_ledger scenario_sealed
                         scenario_sealed_reachable))).
Defined.

(** X18.  In every state that [app.py] reaches there are at most as many
    vote rows as registered voters, so every label that the fraud tab puts
    into [flagged], from the voter frame or from the vote table, is a label
    of the voter frame and [voters_df.loc[flagged]] finds each one. *)
Theorem fraud_tab_labels_are_voter_labels (st : App.t) :
  Flask.reachable st ->
  length (App.votes_table st) <= length (App.registered_voters st) /\
  (forall idx,
      idx ∈ App.flagged st ->
      is_Some (App.voters_df (App.registered_voters st) !! idx)) /\
  is_Some (App.flagged_df st).
Proof.
  intros Hr. destruct (flask_invariant st Hr) as (Hbc & _ & _ & Hrows).
  assert (length (App.votes_table st) <= length (App.registered_voters st))
    as Hlen.
  { assert (map App.Vote.Voter_ID (App.votes_table st)
            = map Tx.voter_id (Ledger.all_transactions (App.blockchain st)))
      as Hids.
    { clear Hbc Hr.
      induction Hrows as [|row tx rows txs (Hv & _) _ IH]; [done|].
      simpl. by rewrite Hv, IH. }
    destruct (reachable_one_each _ Hbc) as [_ Hnd].
    rewrite <- Hids in Hnd.
    rewrite <- (length_map App.Vote.Voter_ID),
      <- (length_map fst (App.registered_voters st)).
    apply submseteq_length, NoDup_submseteq; [done|].
    intros k Hk. apply list_elem_of_fmap in Hk as (row & -> & Hrow).
    apply list_elem_of_lookup in Hrow as [i Hi].
    destruct (Forall2_lookup_l _ _ _ _ _ Hrows Hi) as (tx & _ & _ & _ & _ & Hg).
    apply get_Some_elem in Hg. apply list_elem_of_fmap. by eexists (_, _). }
  assert (forall idx,
      idx ∈ App.flagged st ->
      is_Some (App.voters_df (App.registered_voters st) !! idx)) as Hvalid.
  { intros idx Hin. apply lookup_lt_is_Some. unfold App.voters_df.
    rewrite length_map. apply flagged_labels in Hin. lia. }
  split; [done|]. split; [done|]. unfold App.flagged_df.
  destruct (App.voters_df (App.registered_voters st)) as [|row rows] eqn:Hdf;
    [by eexists|].
  destruct (elements (App.flagged st)) as [|label labels] eqn:Hel;
    [by eexists|].
  destruct (loc_valid (row :: rows) (label :: labels)) as (shown & -> & _);
    [|by eexists].
  intros idx Hin. rewrite <- Hel in Hin. apply elem_of_elements in Hin.
  by apply Hvalid.
Qed.

Lemma fraud_tab_labels_are_voter_labels_witness :
  length (App.votes_table scenario_sealed)
  <= length (App.registered_voters scenario_sealed) /\
  is_Some (App.flagged_df scenario_sealed).
Proof.
  destruct (fraud_tab_labels_are_voter_labels scenario_sealed
              scenario_sealed_reachable) as (Hlen & _ & Hdf).
  by split.
Defined.

(** X19.  A cast in [app.py] has three outcomes and no other: "must
    register" for a voter id that is not registered, "already voted" for a
    registered one that is in the admitted set, and otherwise a receipt,
    one more pending transaction and one more vote row; the two refusals
    change nothing, and the second "already voted" answer, after
    [add_transaction], is never given.  The manual vote of [app2.py]
    likewise never ends without a message. *)
Theorem cast_has_three_outcomes :
  (forall v c now now_tx stamp (st : App.t),
      let r := App.cast_vote v c now now_tx stamp st in
      r.1 <> App.AlreadyVotedLate /\
      (r.1 = App.MustRegister <->
       Dict.get v (App.registered_voters st) = None) /\
      (r.1 = App.AlreadyVoted <->
       is_Some (Dict.get v (App.registered_voters st)) /\
       v ∈ Blockchain.voters (App.blockchain st)) /\
      (r.1 = App.MustRegister \/ r.1 = App.AlreadyVoted -> r.2 = st) /\
      (is_Some (Dict.get v (App.registered_voters st)) ->
       (v ∉ Blockchain.voters (App.blockchain st)) ->
       r.1 = App.VoteCast (App.receipt_of v c now) /\
       Blockchain.pending_transactions (App.blockchain r.2)
       = Blockchain.pending_transactions (App.blockchain st)
         ++ [Tx.mk v c (App.receipt_of v c now) now_tx] /\
       length (App.votes_table r.2) = S (length (App.votes_table st)))) /\
  (forall v c timestamp now_tx stamp (st st' : App2.t),
      App2.submit_vote v c timestamp now_tx stamp st
      <> Some (App2.NoMessage, st')).
Proof.
  split.
  - intros v c now now_tx stamp st r. subst r.
    destruct (cast_vote_cases v c now now_tx stamp st)
      as [[Hg ->]|[(Hg & Hin & ->)|(info & Hg & Hout & ->)]]; simpl.
    + rewrite Hg. split; [done|]. split; [done|]. split.
      * split; [done|]. by intros [[? ?] _].
      * split; [done|]. by intros [? ?].
    + split; [done|]. split.
      * split; [done|]. intros Hn. rewrite Hn in Hg. by destruct Hg.
      * split; [done|]. split; [done|]. done.
    + rewrite Hg. split; [done|]. split; [done|]. split.
      * split; [done|]. by intros [_ ?].
      * split; [by intros [?|?]|]. intros _ _. split; [done|].
        split; [done|]. rewrite length_app. simpl. lia.
  - intros v c timestamp now_tx stamp st st'. unfold App2.submit_vote.
    destruct (decide (v ∈ Blockchain.voters (App2.blockchain st)))
      as [Hin|Hout]; [done|].
    rewrite (add_transaction_fresh _ _ _ _ _ Hout).
    by destruct (Dict.get v (App2.registered_voters st)).
Qed.

(** * Accounts, candidates and the QR channel *)

Section AccountFacts.

Implicit Types (users : list (string * Flask.User.t)).

Lemma mobile_taken mobile users :
  existsb (fun u => bool_decide (Flask.User.mobile u.2 = mobile)) users = true
  <-> mobile ∈ map (fun u => Flask.User.mobile u.2) users.
Proof.
  rewrite existsb_exists, list_elem_of_fmap. split.
  - intros (u & Hin & He). apply bool_decide_eq_true in He.
    exists u. split; [done|]. by apply list_elem_of_In.
  - intros (u & -> & Hin). exists u. apply list_elem_of_In in Hin.
    split; [done|]. by apply bool_decide_eq_true.
Qed.

Lemma get_snoc_new {V : Type} k (x : V) (d : list (string * V)) :
  (k ∉ map fst d) -> Dict.get k (d ++ [(k, x)]) = Some x.
Proof.
  induction d as [|[k' x'] d IH]; simpl.
  - intros _. by rewrite decide_True.
  - intros [Hne Hout]%not_elem_of_cons. rewrite decide_False by done.
    by apply IH.
Qed.

Lemma get_app_old {V : Type} k (x : V) (d d' : list (string * V)) :
  Dict.get k d = Some x -> Dict.get k (d ++ d') = Some x.
Proof.
  induction d as [|[k' x'] d IH]; simpl; [done|].
  by destruct (decide (k' = k)).
Qed.

Lemma register_cases username mobile email password file :
  (Flask.register username mobile email password file = (false, file) /\
   (email ∈ map fst (Flask.load_users file) \/
    mobile ∈ map (fun u => Flask.User.mobile u.2) (Flask.load_users file))) \/
  (Flask.register username mobile email password file
   = (true,
      Some (Flask.load_users file
            ++ [(email, Flask.User.mk username mobile password)])) /\
   (email ∉ map fst (Flask.load_users file)) /\
   (mobile ∉ map (fun u => Flask.User.mobile u.2) (Flask.load_users file))).
Proof.
  unfold Flask.register.
  destruct (PyDict.contains email (Flask.load_users file)) eqn:Hc; simpl.
  - left. split; [done|]. left. by apply contains_keys.
  - assert (email ∉ map fst (Flask.load_users file)) as Hout.
    { intros Hin. apply contains_keys in Hin. congruence. }
    destruct (existsb _ (Flask.load_users file)) eqn:Hm.
    + left. split; [done|]. right. by apply mobile_taken.
    + right. unfold Flask.save_users. rewrite set_fresh by done.
      split; [done|]. split; [done|].
      intros Hin. apply mobile_taken in Hin. congruence.
Qed.

End AccountFacts.

(** X20.  [register] of [app.py] creates an account exactly when neither
    the email nor the mobile number is taken; a refusal leaves [users.json]
    as it is, an acceptance appends the account, no existing account is
    changed, and accounts whose emails and mobile numbers are not shared
    stay so. *)
Theorem accounts_stay_unique
    (username mobile email password : string)
    (file : option (list (string * Flask.User.t))) :
  let r := Flask.register username mobile email password file in
  (r.1 = true <->
   (email ∉ map fst (Flask.load_users file)) /\
   (mobile ∉ map (fun u => Flask.User.mobile u.2) (Flask.load_users file))) /\
  (r.1 = false -> r.2 = file) /\
  (r.1 = true ->
   Flask.load_users r.2
   = Flask.load_users file
     ++ [(email, Flask.User.mk username mobile password)]) /\
  (forall email' account,
      Dict.get email' (Flask.load_users file) = Some account ->
      Dict.get email' (Flask.load_users r.2) = Some account) /\
  (Registry.unique Flask.User.mobile (Flask.load_users file) ->
   Registry.unique Flask.User.mobile (Flask.load_users r.2)).
Proof.
  intros r. subst r.
  destruct (register_cases username mobile email password file)
    as [[-> Htaken]|[-> [Hid Hm]]]; simpl.
  - split; [|by split_and!]. split; [done|]. intros [? ?]. by destruct Htaken.
  - split; [done|]. split; [done|]. split; [done|]. split.
    + intros email' account Hg. by apply get_app_old.
    + intros Hu. by apply unique_snoc.
Qed.

(** X21.  An account that [register] created logs in: with the email and
    the password of the registration [login] succeeds and puts the email
    and the user name into the session, also after further registrations;
    with another password it fails and leaves the session as it is; a
    session is let in by [login_required] after the login and not after
    [logout]. *)
Theorem registered_account_logs_in
    (username mobile email password : string)
    (file file' : option (list (string * Flask.User.t)))
    (session : Flask.Session.t) :
  Flask.register username mobile email password file = (true, file') ->
  Flask.login email password file' session
  = (true, Flask.Session.mk (Some email) (Some username)) /\
  (forall username2 mobile2 email2 password2,
      Flask.login email password
        (Flask.register username2 mobile2 email2 password2 file').2 session
      = (true, Flask.Session.mk (Some email) (Some username))) /\
  (forall password',
      password' <> password ->
      Flask.login email password' file' session = (false, session)) /\
  Flask.login_required (Flask.login email password file' session).2 = true /\
  Flask.login_required
    (Flask.logout (Flask.login email password file' session).2) = false.
Proof.
  intros Hreg.
  destruct (register_cases username mobile email password file)
    as [[Hr _]|[Hr [Hid _]]]; rewrite Hr in Hreg; [done|].
  injection Hreg as <-.
  assert (Dict.get email
            (Flask.load_users
               (Some (Flask.load_users file
                      ++ [(email, Flask.User.mk username mobile password)])))
          = Some (Flask.User.mk username mobile password)) as Hg
    by (simpl; by apply get_snoc_new).
  assert (forall f,
      Dict.get email (Flask.load_users f)
      = Some (Flask.User.mk username mobile password) ->
      Flask.login email password f session
      = (true, Flask.Session.mk (Some email) (Some username))) as Hlogin.
  { intros f Hf. unfold Flask.login. rewrite Hf. simpl.
    by rewrite bool_decide_eq_true_2. }
  split; [by apply Hlogin|]. split; [|split; [|split]].
  - intros username2 mobile2 email2 password2. apply Hlogin.
    destruct (register_cases username2 mobile2 email2 password2
                (Some (Flask.load_users file
                       ++ [(email, Flask.User.mk username mobile password)])))
      as [[-> _]|[-> _]]; [done|].
    simpl. apply get_app_old. by apply get_snoc_new.
  - intros password' Hne. unfold Flask.login. rewrite Hg. simpl.
    by rewrite bool_decide_eq_false_2.
  - by rewrite Hlogin.
  - done.
Qed.

Lemma registered_account_logs_in_witness :
  Flask.login "jane@acme.org" "s3cret"
    (Some [("jane@acme.org", Flask.User.mk "jane" "5550100" "s3cret")])
    (Flask.Session.mk None None)
  = (true, Flask.Session.mk (Some "jane@acme.org") (Some "jane")).
Proof.
  apply (registered_account_logs_in "jane" "5550100" "jane@acme.org" "s3cret"
           None).
  reflexivity.
Defined.

Section CandidateFacts.

Lemma remove_listed (x : string) (l : list string) :
  x ∈ l -> is_Some (PyDict.remove x l).
Proof.
  induction l as [|y l IH]; simpl; [by intros ?%elem_of_nil|].
  intros Hin. destruct (decide (y = x)) as [->|Hne]; [by eexists|].
  apply elem_of_cons in Hin as [->|Hin]; [done|].
  destruct (IH Hin) as [l' ->]. by eexists.
Qed.

Lemma remove_NoDup (x : string) (l l' : list string) :
  PyDict.remove x l = Some l' -> NoDup l ->
  NoDup l' /\ forall y, y ∈ l' <-> y ∈ l /\ y <> x.
Proof.
  revert l'. induction l as [|y l IH]; intros l'; simpl; [done|].
  destruct (decide (y = x)) as [->|Hne].
  - intros [= <-] [Hout Hnd]%NoDup_cons. split; [done|].
    intros z. rewrite elem_of_cons. split.
    + intros Hz. split; [by right|]. by intros ->.
    + by intros [[->|Hz] Hzx].
  - destruct (PyDict.remove x l) as [rest|] eqn:Hr; [|done].
    intros [= <-] [Hout Hnd]%NoDup_cons.
    destruct (IH rest eq_refl Hnd) as [Hnd' Hiff]. split.
    + apply NoDup_cons. split; [|done]. rewrite Hiff. tauto.
    + intros z. rewrite !elem_of_cons, Hiff. split.
      * intros [->|[Hz Hzx]]; [by split; [left|]|]. split; [by right|done].
      * intros [[->|Hz] Hzx]; [by left|]. by right.
Qed.

Lemma candidates_invariant (cs : Flask.Candidates.t) :
  Flask.candidates_reachable cs ->
  NoDup (Flask.Candidates.candidate_list cs) /\
  (EmptyString ∉ Flask.Candidates.candidate_list cs) /\
  dom (Flask.Candidates.qr_vote_counts cs)
  = list_to_set (Flask.Candidates.candidate_list cs).
Proof.
  induction 1 as [|cs rq cs' Hr (Hnd & Hne & Hdom) Hh].
  - simpl. split; [apply NoDup_nil_2|]. split; [apply not_elem_of_nil|].
    by rewrite dom_empty_L.
  - destruct rq as [[name|]|[name|]|[name|]]; simpl in Hh;
      try (injection Hh as <-; done).
    + injection Hh as <-. unfold Flask.add_candidate. simpl.
      destruct (bool_decide (name = EmptyString)) eqn:He; [done|].
      destruct (bool_decide (name ∈ Flask.Candidates.candidate_list cs))
        eqn:Hin; [done|].
      simpl. apply bool_decide_eq_false in He, Hin. split; [|split].
      * apply NoDup_app. split; [done|]. split; [|apply NoDup_singleton].
        intros x Hx Hx'. apply list_elem_of_singleton in Hx'. by subst x.
      * rewrite elem_of_app, list_elem_of_singleton. intros [?|?]; by auto.
      * rewrite dom_insert_L, Hdom, list_to_set_app_L. simpl.
        rewrite (right_id_L ∅ (∪)). apply (comm_L (∪)).
    + unfold Flask.remove_candidate in Hh.
      destruct (bool_decide (name ∈ Flask.Candidates.candidate_list cs))
        eqn:Hin; [|by injection Hh as <-].
      destruct (PyDict.remove name (Flask.Candidates.candidate_list cs))
        as [rest|] eqn:Hrm; [|done].
      injection Hh as <-. simpl.
      destruct (remove_NoDup _ _ _ Hrm Hnd) as [Hnd' Hiff].
      split; [done|]. split.
      * rewrite Hiff. tauto.
      * rewrite dom_delete_L, Hdom. apply set_eq. intros y.
        rewrite elem_of_difference, !elem_of_list_to_set, elem_of_singleton.
        by rewrite Hiff.
    + injection Hh as <-. unfold Flask.simulate_qr_scan.
      destruct (bool_decide (name ∈ Flask.Candidates.candidate_list cs))
        eqn:Hin; [|done].
      simpl. apply bool_decide_eq_true in Hin.
      split; [done|]. split; [done|].
      rewrite dom_insert_L, Hdom. apply set_eq. intros y.
      rewrite elem_of_union, elem_of_singleton, elem_of_list_to_set.
      split; [intros [->|?]; done|by right].
Qed.

End CandidateFacts.

(** X22.  Whatever the candidate tab and the scanner of [app.py] are asked
    to do, the candidate list holds no name twice and no empty name, the
    QR counters exist for exactly the listed candidates (removing a
    candidate drops its counter), and no request raises: [list.remove] is
    only reached for a listed name. *)
Theorem candidates_stay_consistent
    (cs : Flask.Candidates.t) (rq : Flask.candidate_request) :
  Flask.candidates_reachable cs ->
  NoDup (Flask.Candidates.candidate_list cs) /\
  (EmptyString ∉ Flask.Candidates.candidate_list cs) /\
  dom (Flask.Candidates.qr_vote_counts cs)
  = list_to_set (Flask.Candidates.candidate_list cs) /\
  is_Some (Flask.handle_candidates cs rq).
Proof.
  intros Hr. destruct (candidates_invariant cs Hr) as (Hnd & Hne & Hdom).
  split; [done|]. split; [done|]. split; [done|].
  destruct rq as [c|[name|]|c]; simpl; try by eexists.
  unfold Flask.remove_candidate.
  destruct (bool_decide (name ∈ Flask.Candidates.candidate_list cs)) eqn:Hin;
    [|by eexists].
  apply bool_decide_eq_true in Hin.
  destruct (remove_listed _ _ Hin) as [rest ->]. by eexists.
Qed.

Lemma candidates_stay_consistent_witness :
  NoDup ["Alice"; "Bob"] /\
  dom (<[ "Bob" := 0 ]> (<[ "Alice" := 0 ]> (∅ : gmap string nat)))
  = list_to_set ["Alice"; "Bob"].
Proof.
  destruct (candidates_stay_consistent
              (Flask.Candidates.mk ["Alice"; "Bob"]
                 (<[ "Bob" := 0 ]> (<[ "Alice" := 0 ]> ∅)))
              (Flask.SimulateScan (Some "Alice")))
    as (Hnd & _ & Hdom & _).
  - eapply Flask.candidates_step with (rq := Flask.AddCandidate (Some "Bob")).
    + eapply Flask.candidates_step
        with (rq := Flask.AddCandidate (Some "Alice")).
      * apply Flask.candidates_start.
      * reflexivity.
    + reflexivity.
  - by split.
Defined.

(** X23.  The QR channel of [app2.py] takes one vote per uploaded image
    and never touches the ledger: a scan of a listed candidate with an
    image not seen before adds one to that candidate's QR counter and one
    QR row to the vote table and leaves chain, pending list, admitted set,
    tally and registry as they are; the same image is refused from then
    on, whatever it decodes to, and the refusal changes nothing; a scan of
    an unlisted candidate changes nothing. *)
Theorem qr_vote_once_per_image
    (candidate image_md5 timestamp stamp : string) (st : App2.t) :
  let r := App2.qr_vote candidate image_md5 timestamp stamp st in
  App2.blockchain r.2 = App2.blockchain st /\
  App2.registered_voters r.2 = App2.registered_voters st /\
  (candidate ∉ App2.candidate_list st ->
   r = (App2.InvalidCandidate, st)) /\
  (candidate ∈ App2.candidate_list st ->
   ("qr_voter_" +:+ image_md5) ∈ App2.qr_voters st ->
   r = (App2.QRAlreadyVoted, st)) /\
  (candidate ∈ App2.candidate_list st ->
   ("qr_voter_" +:+ image_md5) ∉ App2.qr_voters st ->
   r.1 = App2.QRVoteRecorded
           (App2.generate_receipt_id ("qr_voter_" +:+ image_md5) candidate
                                     timestamp) /\
   App2.qr_vote_counts r.2 !!! candidate
   = S (App2.qr_vote_counts st !!! candidate) /\
   (forall other, other <> candidate ->
      App2.qr_vote_counts r.2 !!! other = App2.qr_vote_counts st !!! other) /\
   length (Streamlit.qr_rows candidate (App2.votes_table r.2))
   = S (length (Streamlit.qr_rows candidate (App2.votes_table st))) /\
   (forall candidate' timestamp' stamp',
      candidate' ∈ App2.candidate_list st ->
      App2.qr_vote candidate' image_md5 timestamp' stamp' r.2
      = (App2.QRAlreadyVoted, r.2))).
Proof.
  intros r. subst r. unfold App2.qr_vote.
  destruct (decide (candidate ∈ App2.candidate_list st)) as [Hc|Hc].
  - destruct (decide ("qr_voter_" +:+ image_md5 ∈ App2.qr_voters st))
      as [Hv|Hv]; simpl.
    + by repeat split.
    + split; [done|]. split; [done|]. split; [done|]. split; [done|].
      intros _ _. split; [done|]. split.
      { rewrite lookup_total_insert_eq. lia. }
      split.
      { intros other Hne. by rewrite lookup_total_insert_ne. }
      split.
      { unfold Streamlit.qr_rows. rewrite filter_app, length_app.
        rewrite filter_cons_True by done. simpl. lia. }
      intros candidate' timestamp' stamp' Hc'.
      rewrite decide_True by done. rewrite decide_True; [done|].
      apply elem_of_union_l. by apply elem_of_singleton.
  - simpl. by repeat split.
Qed.

(** X24.  A QR receipt verifies through the fallback of [app2.py]: after a
    recorded QR vote the button "Verify Vote" answers with the row of that
    vote, provided no sealed transaction and no earlier QR row carries the
    same receipt id. *)
Theorem qr_receipt_is_verified
    (candidate image_md5 timestamp stamp r : string) (st st' : App2.t) :
  App2.qr_vote candidate image_md5 timestamp stamp st
  = (App2.QRVoteRecorded r, st') ->
  (forall tx,
      tx ∈ Blockchain.get_all_transactions (App2.blockchain st) ->
      Tx.receipt_id tx <> r) ->
  (forall row,
      row ∈ App2.votes_table st ->
      App2.VoteRow.Receipt_ID row = r ->
      App2.VoteRow.Vote_Method row <> "QR") ->
  App2.verify_vote r st'
  = App2.QRVoteVerified
      {| App2.VoteRow.Voter_ID := "qr_voter_" +:+ image_md5;
         App2.VoteRow.Name := "QR Voter";
         App2.VoteRow.Email := "qr@voter.com";
         App2.VoteRow.Domain := "Mobile";
         App2.VoteRow.Candidate := candidate;
         App2.VoteRow.Receipt_ID := r;
         App2.VoteRow.Vote_Method := "QR";
         App2.VoteRow.Timestamp := stamp |}.
Proof.
  unfold App2.qr_vote.
  destruct (decide (candidate ∈ App2.candidate_list st)) as [Hc|Hc]; [|done].
  destruct (decide ("qr_voter_" +:+ image_md5 ∈ App2.qr_voters st))
    as [Hv|Hv]; [done|].
  intros [= <- <-] Hsealed Hrows. unfold App2.verify_vote. simpl.
  rewrite decide_False.
  2:{ intros He.
      pose proof (generate_receipt_id_length ("qr_voter_" +:+ image_md5)
                    candidate timestamp) as Hl.
      by rewrite He in Hl. }
  rewrite first_with_receipt_None by done.
  rewrite first_qr_row_first; [done|done|done|exact Hrows].
Qed.

Lemma qr_receipt_is_verified_witness :
  App2.verify_vote "98ce32f299ac8f4b"
    (App2.qr_vote "Alice" "9e107d9d372bb6826bd81d3542a419d6" "1700000001.5"
       "2023-11-14 22:13:21" mixed_first_sealed).2
  = App2.QRVoteVerified
      {| App2.VoteRow.Voter_ID := "qr_voter_9e107d9d372bb6826bd81d3542a419d6";
         App2.VoteRow.Name := "QR Voter";
         App2.VoteRow.Email := "qr@voter.com";
         App2.VoteRow.Domain := "Mobile";
         App2.VoteRow.Candidate := "Alice";
         App2.VoteRow.Receipt_ID := "98ce32f299ac8f4b";
         App2.VoteRow.Vote_Method := "QR";
         App2.VoteRow.Timestamp := "2023-11-14 22:13:21" |}.
Proof.
  apply (qr_receipt_is_verified "Alice" "9e107d9d372bb6826bd81d3542a419d6"
           "1700000001.5" "2023-11-14 22:13:21" "98ce32f299ac8f4b"
           mixed_first_sealed).
  - vm_compute. reflexivity.
  - intros tx Hin. vm_compute in Hin.
    apply elem_of_cons in Hin as [->|Hin]; [done|].
    by apply elem_of_nil in Hin.
  - intros row Hin. vm_compute in Hin.
    apply elem_of_cons in Hin as [->|Hin]; [done|].
    by apply elem_of_nil in Hin.
Defined.
